(** * ETL pipeline: detection, extraction, schema inference, normalization

    A shallow embedding of [src/etl_pipeline.py] (class [ETLPipeline]) and
    the properties its specification states about it.

    Conventions of the embedding.
    - A Python [str] is a [string]; a character is an 8-bit [ascii], so the
      embedding covers documents whose code points are below 256 (what the
      Latin-1 fallback of [read_file] yields, and every ASCII document).
    - A Python [dict] is an association list in insertion order with
      pairwise distinct keys: assignment to a present key keeps its
      position, assignment to a new key appends.
    - A Python [set] has no specified iteration order: wherever the source
      lists a set, the order comes from an arbitrary ranking function, so
      every theorem holds whatever order the interpreter picks.
    - Exceptions are values of [exn]; a method that can raise returns
      [exn + result].
    - The object state ([extracted_data], [schema]) is threaded explicitly. *)

From Stdlib Require Import ZArith List String Ascii Bool Lia Permutation.
From Stdlib Require Import DecimalString.
Import ListNotations.

#[local] Set Warnings "-register-all".
#[local] Open Scope string_scope.
#[local] Open Scope list_scope.

(* ================================================================== *)
(** ** Python strings *)
(* ================================================================== *)

Module PyStr.

(** [len(s) > 0], the truth value of a string. *)
Definition truthy (s : string) : bool :=
  match s with EmptyString => false | String _ _ => true end.

(** [s.startswith(p)]. *)
Fixpoint starts_with (p s : string) : bool :=
  match p, s with
  | EmptyString, _ => true
  | String a p', String b s' => Ascii.eqb a b && starts_with p' s'
  | String _ _, EmptyString => false
  end.

(** [s[n:]]: the string without its first [n] characters. *)
Fixpoint drop (n : nat) (s : string) : string :=
  match n, s with
  | O, _ => s
  | S n', String _ s' => drop n' s'
  | S _, EmptyString => EmptyString
  end.

(** [s[:n]]: the first [n] characters. *)
Fixpoint take (n : nat) (s : string) : string :=
  match n, s with
  | O, _ => EmptyString
  | S n', String c s' => String c (take n' s')
  | S _, EmptyString => EmptyString
  end.

(** [s.replace(old, '')]: every non-overlapping occurrence of [old],
    scanning left to right, is removed.  [skip] counts the characters of
    an occurrence still to be dropped.  With an empty [old] Python
    inserts the (empty) replacement between characters: nothing
    changes. *)
Fixpoint remove_from (old : string) (skip : nat) (s : string) : string :=
  match s with
  | EmptyString => EmptyString
  | String c s' =>
      match skip with
      | S k => remove_from old k s'
      | O =>
          if starts_with old s
          then remove_from old (String.length old - 1) s'
          else String c (remove_from old 0 s')
      end
  end.

Definition remove_all (old s : string) : string :=
  if truthy old then remove_from old 0 s else s.

(** [s.split(sep)] for a one-character separator. *)
Fixpoint split_on (sep : ascii) (s : string) : list string :=
  match s with
  | EmptyString => [EmptyString]
  | String c s' =>
      if Ascii.eqb c sep then EmptyString :: split_on sep s'
      else match split_on sep s' with
           | [] => [String c EmptyString]
           | w :: ws => String c w :: ws
           end
  end.

(** [c.isspace()] on code points below 256: tab, line feed, vertical tab,
    form feed, carriage return, the separators 28 to 31, space, next
    line (133) and no-break space (160). *)
Definition is_space (c : ascii) : bool :=
  let n := nat_of_ascii c in
  (((9 <=? n) && (n <=? 13)) || ((28 <=? n) && (n <=? 32))
   || (n =? 133) || (n =? 160))%nat.

Fixpoint lstrip (s : string) : string :=
  match s with
  | EmptyString => EmptyString
  | String c s' => if is_space c then lstrip s' else s
  end.

(** [rstrip]: a character is kept when it is not white space or when
    something survives after it. *)
Fixpoint rstrip (s : string) : string :=
  match s with
  | EmptyString => EmptyString
  | String c s' =>
      match rstrip s' with
      | EmptyString => if is_space c then EmptyString else String c EmptyString
      | r => String c r
      end
  end.

(** [s.strip()]. *)
Definition strip (s : string) : string := rstrip (lstrip s).

(** [len(s.split())]: the number of maximal runs of characters that are
    not white space.  [inside] tells whether the previous character
    belonged to a run. *)
Fixpoint count_words (inside : bool) (s : string) : nat :=
  match s with
  | EmptyString => 0
  | String c s' =>
      if is_space c then count_words false s'
      else (if inside then 0 else 1) + count_words true s'
  end.

Definition word_count (s : string) : nat := count_words false s.

(** [str(n)] for a natural number. *)
Definition of_nat (n : nat) : string := NilEmpty.string_of_uint (Nat.to_uint n).

(** [sorted(xs)] on strings: ascending code-point order (insertion sort;
    the result of a sort does not depend on the algorithm as the order is
    total and antisymmetric). *)
Fixpoint insert_sorted (x : string) (xs : list string) : list string :=
  match xs with
  | [] => [x]
  | y :: ys => if String.leb x y then x :: xs else y :: insert_sorted x ys
  end.

Definition sorted (xs : list string) : list string :=
  fold_right insert_sorted [] xs.

End PyStr.

(* ================================================================== *)
(** ** Python sets listed in an unspecified order *)
(* ================================================================== *)

Module PySet.

Fixpoint insert_by (rank : string -> nat) (x : string) (xs : list string) : list string :=
  match xs with
  | [] => [x]
  | y :: ys => if (rank x <=? rank y)%nat then x :: xs else y :: insert_by rank x ys
  end.

(** [list(set(xs))]: the distinct elements of [xs], in the order the
    ranking [rank] induces.  Every order of the distinct elements is the
    result for some [rank]. *)
Definition to_list (rank : string -> nat) (xs : list string) : list string :=
  fold_right (insert_by rank) [] (nodup string_dec xs).

End PySet.

(* ================================================================== *)
(** ** Python dicts *)
(* ================================================================== *)

Module Dict.
Section Ops.
Context {V : Type}.

(** [d.get(k)], with [None] for a missing key. *)
Fixpoint get (k : string) (d : list (string * V)) : option V :=
  match d with
  | [] => None
  | (k', v) :: rest => if String.eqb k k' then Some v else get k rest
  end.

(** [k in d]. *)
Definition contains (k : string) (d : list (string * V)) : bool :=
  match get k d with Some _ => true | None => false end.

(** [d[k] = v]: a present key keeps its place, a new key goes last. *)
Fixpoint setitem (k : string) (v : V) (d : list (string * V)) : list (string * V) :=
  match d with
  | [] => [(k, v)]
  | (k', v') :: rest =>
      if String.eqb k k' then (k', v) :: rest else (k', v') :: setitem k v rest
  end.

(** [for k, v in items: d[k] = v]. *)
Definition fold_items (items d : list (string * V)) : list (string * V) :=
  fold_left (fun d kv => setitem (fst kv) (snd kv) d) items d.

(** [dict(items)]. *)
Definition of_items (items : list (string * V)) : list (string * V) :=
  fold_items items [].

(** [d.keys()]. *)
Definition keys (d : list (string * V)) : list string := map fst d.

(** [{k: v for k, v in d.items() if k not in excluded}]. *)
Definition without (excluded : list string) (d : list (string * V)) : list (string * V) :=
  filter (fun kv => negb (existsb (String.eqb (fst kv)) excluded)) d.
End Ops.
End Dict.

(* ================================================================== *)
(** ** Values held by records *)
(* ================================================================== *)

(** What [json.loads] and the extractors put into a record.  A float is
    carried by the literal it was read from: the pipeline never computes
    with it.  [VNavigableString] is the string class of BeautifulSoup, which
    [soup.title.string] returns: a [str] under another type name. *)
Inductive value : Type :=
| VNone
| VBool (b : bool)
| VInt (n : Z)
| VFloat (lit : string)
| VStr (s : string)
| VNavigableString (s : string)
| VList (items : list value)
| VDict (d : list (string * value)).

Abbreviation dict := (list (string * value)).

Definition is_dict (v : value) : bool :=
  match v with VDict _ => true | _ => false end.

Definition is_none (v : value) : bool :=
  match v with VNone => true | _ => false end.

(** Structural equality of values. *)
Fixpoint value_eqb (a b : value) : bool :=
  match a, b with
  | VNone, VNone => true
  | VBool x, VBool y => Bool.eqb x y
  | VInt x, VInt y => Z.eqb x y
  | VFloat x, VFloat y => String.eqb x y
  | VStr x, VStr y => String.eqb x y
  | VNavigableString x, VNavigableString y => String.eqb x y
  | VList xs, VList ys =>
      (fix go (xs ys : list value) : bool :=
         match xs, ys with
         | [], [] => true
         | x :: xs', y :: ys' => value_eqb x y && go xs' ys'
         | _, _ => false
         end) xs ys
  | VDict xs, VDict ys =>
      (fix go (xs ys : list (string * value)) : bool :=
         match xs, ys with
         | [], [] => true
         | (k, x) :: xs', (k', y) :: ys' => String.eqb k k' && value_eqb x y && go xs' ys'
         | _, _ => false
         end) xs ys
  | _, _ => false
  end.

(** [type(v).__name__]. *)
Definition type_name (v : value) : string :=
  match v with
  | VNone => "NoneType"
  | VBool _ => "bool"
  | VInt _ => "int"
  | VFloat _ => "float"
  | VStr _ => "str"
  | VNavigableString _ => "NavigableString"
  | VList _ => "list"
  | VDict _ => "dict"
  end.

(* ================================================================== *)
(** ** [ETLPipeline.flatten_dict] *)
(* ================================================================== *)

(** [f"{parent_key}{sep}{k}" if parent_key else k]. *)
Definition new_key (parent_key sep k : string) : string :=
  if PyStr.truthy parent_key then (parent_key ++ sep ++ k)%string else k.

(** What one entry [(k, v)] of the loop adds to [items], [key] being its
    [new_key]: the items of the recursive call for a dict, the entry itself
    for a list and for anything else.  The recursive call returns
    [dict(items)] of its own loop. *)
Fixpoint flatten_entry (sep key : string) (v : value) : dict :=
  match v with
  | VDict d =>
      Dict.of_items
        ((fix loop (d : dict) : dict :=
            match d with
            | [] => []
            | (k, v') :: rest => flatten_entry sep (new_key key sep k) v' ++ loop rest
            end) d)
  | VList _ => [(key, v)]
  | _ => [(key, v)]
  end.

(** The list [items] at the end of the loop of [flatten_dict(d, parent_key, sep)]. *)
Definition flatten_items (d : dict) (parent_key sep : string) : dict :=
  flat_map (fun kv => flatten_entry sep (new_key parent_key sep (fst kv)) (snd kv)) d.

Definition flatten_dict (d : dict) (parent_key sep : string) : dict :=
  Dict.of_items (flatten_items d parent_key sep).

(** An already flat object: none of its values is a dict. *)
Definition flat (d : dict) : Prop := forall k v, In (k, v) d -> is_dict v = false.

(** The words of the specification about nested objects.  A leaf is a
    value that is not a dict: a number, a string, null, and a list as a
    whole, an empty one too.  [leaves v] lists the leaves under [v] in the
    order of the document, each with its key path, the keys that lead
    from [v] down to it. *)
Fixpoint leaves (v : value) : list (list string * value) :=
  match v with
  | VDict d =>
      (fix loop (d : dict) : list (list string * value) :=
         match d with
         | [] => []
         | (k, v') :: rest =>
             map (fun leaf => (k :: fst leaf, snd leaf)) (leaves v') ++ loop rest
         end) d
  | _ => [([], v)]
  end.

(** [sep.join(path)]. *)
Fixpoint join (sep : string) (path : list string) : string :=
  match path with
  | [] => EmptyString
  | [k] => k
  | k :: rest => (k ++ sep ++ join sep rest)%string
  end.

(** The flattening as the specification words it: every leaf of the
    object under its joined key path, in the order of the document. *)
Definition joined_paths (d : dict) (sep : string) : dict :=
  map (fun leaf => (join sep (fst leaf), snd leaf)) (leaves (VDict d)).

(* ================================================================== *)
(** ** [json.loads] *)
(* ================================================================== *)

(** The decoder of the Python standard library, as [detect_content_types]
    and [extract_json] call it (no hooks, strict strings).  An integer of
    more than 4300 digits is refused, as [int] refuses it with a
    [ValueError] ([sys.int_info.default_max_str_digits], CPython 3.11 and
    the releases the limit was backported to).  Two things are outside of
    the embedding.  An escape [\uXXXX] above U+00FF names a character
    outside the 8-bit alphabet and is refused here, where Python accepts
    it.  Arrays nested deeper than the recursion limit of the interpreter
    leaves room for (about a thousand levels by default) are accepted
    here, where Python raises [RecursionError].  So [loads s <> None]
    stands for: [json.loads] returns on [s], for a text that has neither
    of the two. *)
Module Json.

Inductive result : Type :=
| Ok (v : value) (rest : string)
| Err
| OutOfFuel.

Definition chr (n : nat) : ascii := ascii_of_nat n.

(** The double quote and the backslash. *)
Definition dquote : ascii := chr 34.
Definition backslash : ascii := chr 92.

(** The decoder's white space: space, tab, line feed, carriage return. *)
Definition is_ws (c : ascii) : bool :=
  let n := nat_of_ascii c in
  ((n =? 32) || (n =? 9) || (n =? 10) || (n =? 13))%nat.

Fixpoint skip_ws (s : string) : string :=
  match s with
  | String c s' => if is_ws c then skip_ws s' else s
  | EmptyString => EmptyString
  end.

Definition is_digit (c : ascii) : bool :=
  let n := nat_of_ascii c in ((48 <=? n) && (n <=? 57))%nat.

Definition hex_val (c : ascii) : option nat :=
  let n := nat_of_ascii c in
  if ((48 <=? n) && (n <=? 57))%nat then Some (n - 48)
  else if ((65 <=? n) && (n <=? 70))%nat then Some (n - 55)
  else if ((97 <=? n) && (n <=? 102))%nat then Some (n - 87)
  else None.

Definition hex4 (a b c d : ascii) : option nat :=
  match hex_val a, hex_val b, hex_val c, hex_val d with
  | Some x, Some y, Some z, Some w => Some (((x * 16 + y) * 16 + z) * 16 + w)
  | _, _, _, _ => None
  end.

(** The one-letter escapes. *)
Definition unescape (e : ascii) : option ascii :=
  if Ascii.eqb e dquote then Some dquote
  else if Ascii.eqb e backslash then Some backslash
  else match e with
       | "/"%char => Some "/"%char
       | "b"%char => Some (chr 8)
       | "f"%char => Some (chr 12)
       | "n"%char => Some (chr 10)
       | "r"%char => Some (chr 13)
       | "t"%char => Some (chr 9)
       | _ => None
       end.

Definition cons_char (c : ascii) (r : option (string * string)) : option (string * string) :=
  match r with
  | Some (body, rest) => Some (String c body, rest)
  | None => None
  end.

(** [scanstring]: [s] starts after the opening quote; the result is the
    decoded string and what follows the closing quote. *)
Fixpoint scan_string (s : string) : option (string * string) :=
  match s with
  | EmptyString => None
  | String c s' =>
      if Ascii.eqb c dquote then Some (EmptyString, s')
      else if Ascii.eqb c backslash then
        match s' with
        | EmptyString => None
        | String e s'' =>
            if Ascii.eqb e "u"%char then
              match s'' with
              | String h1 (String h2 (String h3 (String h4 s3))) =>
                  match hex4 h1 h2 h3 h4 with
                  | Some n => if (n <? 256)%nat then cons_char (chr n) (scan_string s3) else None
                  | None => None
                  end
              | _ => None
              end
            else
              match unescape e with
              | Some ch => cons_char ch (scan_string s'')
              | None => None
              end
        end
      else if (nat_of_ascii c <? 32)%nat then None
      else cons_char c (scan_string s')
  end.

(** The longest prefix of digits, and the rest. *)
Fixpoint span_digits (s : string) : string * string :=
  match s with
  | String c s' =>
      if is_digit c then let (ds, r) := span_digits s' in (String c ds, r)
      else (EmptyString, s)
  | EmptyString => (EmptyString, EmptyString)
  end.

Fixpoint digits_value (acc : Z) (ds : string) : Z :=
  match ds with
  | String c ds' => digits_value (acc * 10 + Z.of_nat (nat_of_ascii c - 48)) ds'
  | EmptyString => acc
  end.

(** The integer part of the number pattern: an optional minus sign, then
    a lone zero or a digit run that starts with a nonzero digit. *)
Definition scan_integer (s : string) : option (string * string) :=
  let (sign, s1) :=
    match s with
    | String "-"%char r => ("-", r)
    | _ => (EmptyString, s)
    end in
  match s1 with
  | String "0"%char r => Some ((sign ++ "0")%string, r)
  | String c _ =>
      if is_digit c then let (ds, r) := span_digits s1 in Some ((sign ++ ds)%string, r)
      else None
  | EmptyString => None
  end.

(** The optional fraction: a dot and at least one digit. *)
Definition scan_frac (s : string) : string * string :=
  match s with
  | String "."%char r =>
      match span_digits r with
      | (EmptyString, _) => (EmptyString, s)
      | (ds, r') => (String "."%char ds, r')
      end
  | _ => (EmptyString, s)
  end.

(** The optional exponent: [e] or [E], an optional sign, at least one digit. *)
Definition scan_exp (s : string) : string * string :=
  match s with
  | String e r =>
      if Ascii.eqb e "e"%char || Ascii.eqb e "E"%char then
        let (sign, r1) :=
          match r with
          | String "-"%char r' => ("-", r')
          | String "+"%char r' => ("+", r')
          | _ => (EmptyString, r)
          end in
        match span_digits r1 with
        | (EmptyString, _) => (EmptyString, s)
        | (ds, r') => (String e (sign ++ ds)%string, r')
        end
      else (EmptyString, s)
  | EmptyString => (EmptyString, s)
  end.

Definition int_of_literal (lit : string) : Z :=
  match lit with
  | String "-"%char ds => (- digits_value 0 ds)%Z
  | _ => digits_value 0 lit
  end.

(** [sys.int_info.default_max_str_digits]: [int(lit)] raises [ValueError]
    when [lit] has more digits, the sign not counted. *)
Definition max_str_digits : nat := 4300.

Definition digit_count (lit : string) : nat :=
  match lit with
  | String "-"%char ds => String.length ds
  | _ => String.length lit
  end.

(** A number: an [int] when it has neither fraction nor exponent, a
    [float] otherwise.  [None] also stands for the [ValueError] of [int]
    on too many digits: no other literal starts as a number does, so
    the decoding fails as a whole. *)
Definition scan_number (s : string) : option (value * string) :=
  match scan_integer s with
  | None => None
  | Some (i, r) =>
      let (frac, r1) := scan_frac r in
      let (ex, r2) := scan_exp r1 in
      if PyStr.truthy frac || PyStr.truthy ex
      then Some (VFloat (i ++ frac ++ ex)%string, r2)
      else if (max_str_digits <? digit_count i)%nat then None
      else Some (VInt (int_of_literal i), r2)
  end.

(** The literals and numbers of [scan_once], tried in its order. *)
Definition scan_atom (s : string) : result :=
  if PyStr.starts_with "null" s then Ok VNone (PyStr.drop 4 s)
  else if PyStr.starts_with "true" s then Ok (VBool true) (PyStr.drop 4 s)
  else if PyStr.starts_with "false" s then Ok (VBool false) (PyStr.drop 5 s)
  else match scan_number s with
       | Some (v, r) => Ok v r
       | None =>
           if PyStr.starts_with "NaN" s then Ok (VFloat "NaN") (PyStr.drop 3 s)
           else if PyStr.starts_with "Infinity" s then Ok (VFloat "Infinity") (PyStr.drop 8 s)
           else if PyStr.starts_with "-Infinity" s then Ok (VFloat "-Infinity") (PyStr.drop 9 s)
           else Err
       end.

(** [scan_once], [JSONObject] and [JSONArray].  [s] holds what is left of
    the text.  [scan_members] starts after the opening quote of a key,
    [scan_items] at the first character of an element; both carry what
    they have read so far.  A call is made on a text shorter than its
    caller's, or on the same text after a bracket was read, so fuel above
    twice the length of the text is never used up (lemma
    [loads_fuel_suffices]). *)
Fixpoint scan_once (fuel : nat) (s : string) : result :=
  match fuel with
  | O => OutOfFuel
  | S f =>
      match s with
      | EmptyString => Err
      | String c s' =>
          if Ascii.eqb c dquote then
            match scan_string s' with
            | Some (str, r) => Ok (VStr str) r
            | None => Err
            end
          else if Ascii.eqb c "{"%char then
            match skip_ws s' with
            | String c1 r1 =>
                if Ascii.eqb c1 "}"%char then Ok (VDict []) r1
                else if Ascii.eqb c1 dquote then scan_members f [] r1
                else Err
            | EmptyString => Err
            end
          else if Ascii.eqb c "["%char then
            match skip_ws s' with
            | String c1 r1 =>
                if Ascii.eqb c1 "]"%char then Ok (VList []) r1
                else scan_items f [] (String c1 r1)
            | EmptyString => Err
            end
          else scan_atom s
      end
  end

with scan_members (fuel : nat) (pairs : dict) (s : string) : result :=
  match fuel with
  | O => OutOfFuel
  | S f =>
      match scan_string s with
      | None => Err
      | Some (key, r) =>
          match skip_ws r with
          | String c1 r1 =>
              if Ascii.eqb c1 ":"%char then
                match scan_once f (skip_ws r1) with
                | Ok v r2 =>
                    let pairs' := pairs ++ [(key, v)] in
                    match skip_ws r2 with
                    | String c2 r3 =>
                        if Ascii.eqb c2 "}"%char then Ok (VDict (Dict.of_items pairs')) r3
                        else if Ascii.eqb c2 ","%char then
                          match skip_ws r3 with
                          | String c3 r4 =>
                              if Ascii.eqb c3 dquote then scan_members f pairs' r4 else Err
                          | EmptyString => Err
                          end
                        else Err
                    | EmptyString => Err
                    end
                | Err => Err
                | OutOfFuel => OutOfFuel
                end
              else Err
          | EmptyString => Err
          end
      end
  end

with scan_items (fuel : nat) (values : list value) (s : string) : result :=
  match fuel with
  | O => OutOfFuel
  | S f =>
      match scan_once f s with
      | Ok v r =>
          let values' := values ++ [v] in
          match skip_ws r with
          | String c1 r1 =>
              if Ascii.eqb c1 "]"%char then Ok (VList values') r1
              else if Ascii.eqb c1 ","%char then scan_items f values' (skip_ws r1)
              else Err
          | EmptyString => Err
          end
      | Err => Err
      | OutOfFuel => OutOfFuel
      end
  end.

(** [json.loads(s)]: leading white space, one value, trailing white space,
    then the end of the text; [None] stands for [JSONDecodeError]. *)
Definition loads_fuel (fuel : nat) (s : string) : option value :=
  match scan_once fuel (skip_ws s) with
  | Ok v r => match skip_ws r with EmptyString => Some v | String _ _ => None end
  | Err => None
  | OutOfFuel => None
  end.

Definition loads (s : string) : option value :=
  loads_fuel (S (2 * String.length s)) s.

End Json.

(** Documents and JSON texts are written below with an apostrophe wherever
    the text has a double quote. *)
Fixpoint quoted (s : string) : string :=
  match s with
  | EmptyString => EmptyString
  | String c s' => String (if Ascii.eqb c "'"%char then Json.dquote else c) (quoted s')
  end.

(* ================================================================== *)
(** ** The patterns of [detect_content_types] *)
(* ================================================================== *)

(** Each pattern of the source is matched by a scanner written for it.
    The scanners are exact because none of the patterns can succeed after
    giving back characters: whatever follows a repetition in them starts
    with a character the repetition cannot consume. *)
Module Re.

(** [re.findall]: the matcher is tried at each position from the left;
    after a match the scan resumes behind it.  A matcher returns what
    [findall] reports and the length of the whole match, never 0.
    [skip] counts the characters of the last match still to be passed. *)
Fixpoint findall (match_at : string -> option (string * nat)) (skip : nat) (s : string)
  : list string :=
  match s with
  | EmptyString => []
  | String _ s' =>
      match skip with
      | S k => findall match_at k s'
      | O =>
          match match_at s with
          | Some (found, len) => found :: findall match_at (len - 1) s'
          | None => findall match_at 0 s'
          end
      end
  end.

(** Lower case of an ASCII letter, for [re.IGNORECASE]. *)
Definition lower (c : ascii) : ascii :=
  let n := nat_of_ascii c in
  if ((65 <=? n) && (n <=? 90))%nat then ascii_of_nat (n + 32) else c.

Fixpoint starts_with_ci (p s : string) : bool :=
  match p, s with
  | EmptyString, _ => true
  | String a p', String b s' => Ascii.eqb (lower a) (lower b) && starts_with_ci p' s'
  | String _ _, EmptyString => false
  end.

(** Position of the first [c] in [s]. *)
Fixpoint index_of (c : ascii) (s : string) : option nat :=
  match s with
  | EmptyString => None
  | String b s' => if Ascii.eqb b c then Some 0 else option_map S (index_of c s')
  end.

(** Position of the first occurrence of [p] in [s], letter case ignored. *)
Fixpoint find_ci (p s : string) : option nat :=
  if starts_with_ci p s then Some 0
  else match s with
       | EmptyString => None
       | String _ s' => option_map S (find_ci p s')
       end.

(** Length of the longest prefix whose characters satisfy [ok]. *)
Fixpoint run_length (ok : ascii -> bool) (s : string) : nat :=
  match s with
  | String c s' => if ok c then S (run_length ok s') else 0
  | EmptyString => 0
  end.

(** The HTML patterns: an opening word such as [<div], anything but [>]
    up to the first [>], then the shortest text that ends with the
    closing tag; letter case ignored, line ends included. *)
Definition html_match (opening closing : string) (s : string) : option (string * nat) :=
  if starts_with_ci opening s then
    let after := PyStr.drop (String.length opening) s in
    match index_of ">"%char after with
    | None => None
    | Some i =>
        match find_ci closing (PyStr.drop (S i) after) with
        | None => None
        | Some j =>
            let len := String.length opening + S i + j + String.length closing in
            Some (PyStr.take len s, len)
        end
    end
  else None.

(** The JSON pattern, after its opening brace: characters other than
    braces and brace pairs without a brace inside, up to a closing brace.
    [inner] tells whether the scan is inside such a pair.  The result is
    the number of characters up to and with the closing brace. *)
Fixpoint json_span (inner : bool) (s : string) : option nat :=
  match s with
  | EmptyString => None
  | String c s' =>
      if Ascii.eqb c "{"%char then
        if inner then None else option_map S (json_span true s')
      else if Ascii.eqb c "}"%char then
        if inner then option_map S (json_span false s') else Some 1
      else option_map S (json_span inner s')
  end.

Definition json_match (s : string) : option (string * nat) :=
  match s with
  | String c s' =>
      if Ascii.eqb c "{"%char then
        match json_span false s' with
        | Some n => Some (PyStr.take (S n) s, S n)
        | None => None
        end
      else None
  | EmptyString => None
  end.

(** The base64 alphabet without and with the padding character. *)
Definition is_b64 (c : ascii) : bool :=
  let n := nat_of_ascii c in
  (((65 <=? n) && (n <=? 90)) || ((97 <=? n) && (n <=? 122))
   || ((48 <=? n) && (n <=? 57)) || (n =? 43) || (n =? 47))%nat.

Definition is_b64_pad (c : ascii) : bool := is_b64 c || Ascii.eqb c "="%char.

(** The data URI patterns: the scheme prefix, at least one character
    other than a semicolon, [;base64,], then the payload, which is what
    [findall] reports. *)
Definition data_uri_match (prefix : string) (s : string) : option (string * nat) :=
  if PyStr.starts_with prefix s then
    let after := PyStr.drop (String.length prefix) s in
    let n := run_length (fun c => negb (Ascii.eqb c ";"%char)) after in
    let tail := PyStr.drop n after in
    if (1 <=? n)%nat && PyStr.starts_with ";base64," tail then
      let payload := PyStr.drop 8 tail in
      let m := run_length is_b64_pad payload in
      if (1 <=? m)%nat
      then Some (PyStr.take m payload, String.length prefix + n + 8 + m)
      else None
    else None
  else None.

(** The generic pattern: at least 64 characters of the alphabet, then at
    most two padding characters. *)
Definition base64_run_match (s : string) : option (string * nat) :=
  let n := run_length is_b64 s in
  if (64 <=? n)%nat then
    let pad := Nat.min 2 (run_length (fun c => Ascii.eqb c "="%char) (PyStr.drop n s)) in
    Some (PyStr.take (n + pad) s, n + pad)
  else None.

End Re.

(* ================================================================== *)
(** ** What the pipeline takes from its environment *)
(* ================================================================== *)

(** The places where the source lists a set. *)
Inductive site : Type :=
| HtmlSpans
| Base64Spans
| AllKeys
| ValueTypes (key : string).

(** [BeautifulSoup(html_string, 'html.parser')], as far as [extract_html]
    looks at it: [soup.title] is absent ([None]) or a tag whose [.string]
    is a string or [None]; [soup.get_text()] is a string.  These are the
    answers of the parser where it returns.  On markup it refuses the
    parser raises; [extract] and [run_stages] below describe the calls
    in which it does not, [extract_guarded] and [run_guarded] further
    down the calls in which it may. *)
Record html_parser : Type := {
  soup_title : string -> option (option string);
  soup_get_text : string -> string
}.

Record environment : Type := {
  bs4 : html_parser;
  (** the order in which a set built at a site is listed *)
  set_rank : site -> string -> nat
}.

(* ================================================================== *)
(** ** [detect_content_types] *)
(* ================================================================== *)

Definition newline : ascii := ascii_of_nat 10.

Record detected : Type := {
  det_html : list string;
  det_json : list string;
  det_text : list string;
  det_base64 : list string
}.

(** The five HTML patterns, as opening word and closing tag. *)
Definition html_patterns : list (string * string) :=
  [ ("<html", "</html>");
    ("<!DOCTYPE", "</html>");
    ("<div", "</div>");
    ("<p", "</p>");
    ("<body", "</body>") ].

Definition base64_patterns : list (string -> option (string * nat)) :=
  [ Re.data_uri_match "data:image/";
    Re.data_uri_match "data:text/";
    Re.base64_run_match ].

(** The loop over [json_matches]: a match that parses is appended unless
    the list holds it already; one that does not parse is passed over. *)
Definition keep_json (kept : list string) (m : string) : list string :=
  match Json.loads m with
  | Some _ => if existsb (String.eqb m) kept then kept else kept ++ [m]
  | None => kept
  end.

Definition detect_content_types (env : environment) (content : string) : detected :=
  let html_matches :=
    flat_map (fun p => Re.findall (Re.html_match (fst p) (snd p)) 0 content) html_patterns in
  let html := PySet.to_list (set_rank env HtmlSpans) html_matches in
  let json_matches := Re.findall Re.json_match 0 content in
  let json := fold_left keep_json json_matches [] in
  let base64_matches := flat_map (fun m => Re.findall m 0 content) base64_patterns in
  let base64 := PySet.to_list (set_rank env Base64Spans) base64_matches in
  let remaining_text := fold_left (fun text span => PyStr.remove_all span text) html content in
  let remaining_text := fold_left (fun text span => PyStr.remove_all span text) json remaining_text in
  let paragraphs :=
    map PyStr.strip
      (filter (fun p => PyStr.truthy (PyStr.strip p)
                        && (5 <? String.length (PyStr.strip p))%nat)
              (PyStr.split_on newline remaining_text)) in
  {| det_html := html; det_json := json; det_text := paragraphs; det_base64 := base64 |}.

(* ================================================================== *)
(** ** The extractors *)
(* ================================================================== *)

Definition extract_html (env : environment) (html_string : string) : dict :=
  [ ("type", VStr "html");
    ("title", match soup_title (bs4 env) html_string with
              | Some (Some t) => VNavigableString t
              | Some None => VNone
              | None => VStr EmptyString
              end);
    ("word_count", VInt (Z.of_nat (PyStr.word_count (soup_get_text (bs4 env) html_string)))) ].

(** The [try] branch fails when [json.loads] raises and when what it
    returns has no [items] (it is not a dict). *)
Definition extract_json (json_string : string) : dict :=
  match Json.loads json_string with
  | Some (VDict data) =>
      let flattened := flatten_dict data EmptyString "_" in
      Dict.setitem "type" (VStr "json") flattened
  | _ =>
      [ ("type", VStr "json");
        ("error", VStr "Invalid JSON");
        ("raw", VStr (PyStr.take 100 json_string)) ]
  end.

Definition extract_text (text : string) : dict :=
  [ ("type", VStr "text");
    ("title", VStr (if (50 <? String.length text)%nat then PyStr.take 50 text else text));
    ("word_count", VInt (Z.of_nat (PyStr.word_count text))) ].

Definition extract_media (base64_data : string) : dict :=
  [ ("type", VStr "media");
    ("title", VStr "Base64 Media");
    ("word_count", VInt 0) ].

(* ================================================================== *)
(** ** The pipeline object *)
(* ================================================================== *)

(** One entry of [self.schema]. *)
Record descriptor : Type := {
  desc_type : list string;
  nullable : bool;
  present_in : nat
}.

(** The fields of [ETLPipeline] the four stages read and write. *)
Record ETLPipeline : Type := {
  extracted_data : list dict;
  schema : list (string * descriptor)
}.

(** [ETLPipeline()]: both fields empty. *)
Definition new_pipeline : ETLPipeline := {| extracted_data := []; schema := [] |}.

(** [for idx, x in enumerate(xs)]. *)
Definition enumerate {A : Type} (xs : list A) : list (nat * A) :=
  combine (seq 0 (List.length xs)) xs.

(** One loop of [extract]: each span is extracted, tagged with
    [f"{tag}_{idx}"] under [source_index], and appended. *)
Definition extract_all (tag : string) (extractor : string -> dict) (spans : list string)
  : list dict :=
  map (fun ix => Dict.setitem "source_index"
                   (VStr (tag ++ "_" ++ PyStr.of_nat (fst ix))%string)
                   (extractor (snd ix)))
      (enumerate spans).

Definition extract (env : environment) (content : string) (self : ETLPipeline) : ETLPipeline :=
  let detected := detect_content_types env content in
  {| extracted_data :=
       extracted_data self
       ++ extract_all "html" (extract_html env) (det_html detected)
       ++ extract_all "json" extract_json (det_json detected)
       ++ extract_all "text" extract_text (det_text detected)
       ++ extract_all "media" extract_media (det_base64 detected);
     schema := schema self |}.

(* ================================================================== *)
(** ** [infer_schema] *)
(* ================================================================== *)

(** [item.get(key)]: the value, [None] for a missing key. *)
Definition py_get (key : string) (item : dict) : value :=
  match Dict.get key item with Some v => v | None => VNone end.

(** The descriptor [infer_schema] stores for [key]. *)
Definition describe (env : environment) (data : list dict) (key : string) : descriptor :=
  let values := map (py_get key) (filter (Dict.contains key) data) in
  let value_types :=
    PySet.to_list (set_rank env (ValueTypes key))
      (map type_name (filter (fun v => negb (is_none v)) values)) in
  {| desc_type := match value_types with [] => ["NoneType"] | _ => value_types end;
     nullable := existsb is_none (map (py_get key) data);
     present_in := List.length (filter (Dict.contains key) data) |}.

(** The inner loop of the fill: [if key not in item: item[key] = None]. *)
Definition fill_missing (all_keys : list string) (item : dict) : dict :=
  fold_left (fun it key => if Dict.contains key it then it else Dict.setitem key VNone it)
            all_keys item.

Definition infer_schema (env : environment) (self : ETLPipeline) : ETLPipeline :=
  let data := extracted_data self in
  let all_keys := PySet.to_list (set_rank env AllKeys) (flat_map Dict.keys data) in
  {| schema :=
       fold_left (fun sch key => Dict.setitem key (describe env data key) sch)
                 all_keys (schema self);
     extracted_data := map (fill_missing all_keys) data |}.

(** The words of the specification about a record and a field name: the
    record contains the field, the record holds null for it, and the
    number of records of a list that contain it. *)
Definition has_field (key : string) (item : dict) : Prop := In key (Dict.keys item).

Definition has_fieldb (key : string) (item : dict) : bool :=
  if in_dec string_dec key (Dict.keys item) then true else false.

Definition holds_null (key : string) (item : dict) : bool :=
  match Dict.get key item with
  | Some VNone => true
  | _ => false
  end.

Fixpoint count_with_field (key : string) (data : list dict) : nat :=
  match data with
  | [] => 0
  | item :: rest => (if has_fieldb key item then 1 else 0) + count_with_field key rest
  end.

(** An environment for the examples: a parser that finds no title and
    takes the markup for the text, sets listed as they were filled. *)
Definition sample_env : environment :=
  {| bs4 := {| soup_title := fun _ => None; soup_get_text := fun s => s |};
     set_rank := fun _ _ => 0 |}.

(* ================================================================== *)
(** ** Tables *)
(* ================================================================== *)

(** A [pandas.DataFrame] as the pipeline uses it: column labels and rows
    of cells in the order of the labels.  A null cell is [VNone], whether
    pandas holds [None] or NaN there; the conversions pandas applies to the
    storage of a column (an integer column with a null becomes float) are
    not part of the embedding. *)
Record DataFrame : Type := {
  columns : list string;
  rows : list (list value)
}.

Inductive exn : Type :=
| TypeError
| KeyError (key : string).

Module Frame.

(** [pd.DataFrame()]. *)
Definition empty : DataFrame := {| columns := []; rows := [] |}.

(** [len(df)]. *)
Definition len (df : DataFrame) : nat := List.length (rows df).

Definition mem (c : string) (cols : list string) : bool := existsb (String.eqb c) cols.

(** Labels in the order of their first appearance. *)
Definition union_labels (seen new : list string) : list string :=
  fold_left (fun acc c => if mem c acc then acc else acc ++ [c]) new seen.

(** [pd.DataFrame(records)] for a list of dicts: the labels are the keys
    in the order of their first appearance, a record without a key has a
    null there. *)
Definition of_records (records : list dict) : DataFrame :=
  let cols := fold_left (fun acc r => union_labels acc (Dict.keys r)) records [] in
  {| columns := cols;
     rows := map (fun r => map (fun c => py_get c r) cols) records |}.

(** The cell of [row] under label [c], null when the label is missing. *)
Fixpoint cell (cols : list string) (row : list value) (c : string) : value :=
  match cols, row with
  | c' :: cols', v :: row' => if String.eqb c c' then v else cell cols' row' c
  | _, _ => VNone
  end.

(** [df[labels]]: the columns named, in that order; a missing label
    raises [KeyError]. *)
Definition select (labels : list string) (df : DataFrame) : exn + DataFrame :=
  match find (fun c => negb (mem c (columns df))) labels with
  | Some missing => inl (KeyError missing)
  | None =>
      inr {| columns := labels;
             rows := map (fun row => map (cell (columns df) row) labels) (rows df) |}
  end.

(** [pd.concat(frames, ignore_index=True, sort=False)]: the rows of the
    frames one after the other, under the union of their labels in the
    order of first appearance; a frame without a label has nulls there. *)
Definition concat (frames : list DataFrame) : DataFrame :=
  let cols := fold_left (fun acc f => union_labels acc (columns f)) frames [] in
  {| columns := cols;
     rows := flat_map (fun f => map (fun row => map (cell (columns f) row) cols) (rows f))
                      frames |}.

(** Replace the cell under [c], the row having the labels [cols]. *)
Fixpoint set_cell (cols : list string) (row : list value) (c : string) (v : value)
  : list value :=
  match cols, row with
  | c' :: cols', x :: row' =>
      if String.eqb c c' then v :: row' else x :: set_cell cols' row' c v
  | _, _ => row
  end.

(** [df[c] = v] with a scalar: an existing column is overwritten where it
    stands, a new one is added last. *)
Definition assign (c : string) (v : value) (df : DataFrame) : DataFrame :=
  if mem c (columns df)
  then {| columns := columns df;
          rows := map (fun row => set_cell (columns df) row c v) (rows df) |}
  else {| columns := columns df ++ [c];
          rows := map (fun row => row ++ [v]) (rows df) |}.

(** [pd.to_numeric(x, errors='coerce')], [fillna(0)], [astype(int)] on
    one cell.  The column it is applied to holds the integer assigned
    just before; what is not a number is coerced to 0 (the conversion of
    numeric strings and floats is not modelled). *)
Definition to_int (v : value) : value :=
  match v with
  | VInt n => VInt n
  | VBool b => VInt (if b then 1 else 0)
  | _ => VInt 0
  end.

(** [df[c] = f(df[c])], cell by cell. *)
Definition map_column (c : string) (f : value -> value) (df : DataFrame) : DataFrame :=
  {| columns := columns df;
     rows := map (fun row => set_cell (columns df) row c (f (cell (columns df) row c)))
                 (rows df) |}.

(** The column under [c], top to bottom. *)
Definition column (c : string) (df : DataFrame) : list value :=
  map (fun row => cell (columns df) row c) (rows df).

End Frame.

(* ================================================================== *)
(** ** [normalize] *)
(* ================================================================== *)

(** Sequencing of steps that can raise. *)
Definition bind {A B : Type} (m : exn + A) (k : A -> exn + B) : exn + B :=
  match m with
  | inl e => inl e
  | inr a => k a
  end.

Notation "x <- m ;; k" := (bind m (fun x => k))
  (at level 61, m at next level, right associativity).

(** The fields removed from every record before the table is built. *)
Definition artifact_fields : list string := ["word_count"; "title"].

(** Whether a value can be the key of a dict: lists and dicts cannot. *)
Definition hashable (v : value) : bool :=
  match v with
  | VList _ | VDict _ => false
  | _ => true
  end.

(** [==] between keys: a string equals a string with the same characters,
    whatever its class; [True] and [False] equal 1 and 0.  A float is
    compared by its literal (no key looked up below is a number). *)
Definition key_eqb (a b : value) : bool :=
  match a, b with
  | (VStr x | VNavigableString x), (VStr y | VNavigableString y) => String.eqb x y
  | VInt x, VInt y => Z.eqb x y
  | VBool x, VBool y => Bool.eqb x y
  | VInt x, VBool y | VBool y, VInt x => Z.eqb x (if y then 1 else 0)
  | VFloat x, VFloat y => String.eqb x y
  | VNone, VNone => true
  | _, _ => false
  end.

(** [grouped_by_type]: the buckets in the order their keys came up. *)
Abbreviation buckets := (list (value * list dict)).

(** [grouped_by_type[key]], when [key in grouped_by_type]. *)
Fixpoint bucket (key : value) (g : buckets) : option (list dict) :=
  match g with
  | [] => None
  | (k, records) :: rest => if key_eqb key k then Some records else bucket key rest
  end.

(** [if t not in g: g[t] = []] and [g[t].append(record)]. *)
Fixpoint bucket_append (t : value) (record : dict) (g : buckets) : buckets :=
  match g with
  | [] => [(t, [record])]
  | (k, records) :: rest =>
      if key_eqb t k then (k, records ++ [record]) :: rest
      else (k, records) :: bucket_append t record rest
  end.

(** [record.get('type', 'unknown')]. *)
Definition record_type (record : dict) : value :=
  match Dict.get "type" record with
  | Some v => v
  | None => VStr "unknown"
  end.

(** One turn of the grouping loop; the membership test raises on a key
    that cannot be hashed. *)
Definition group_step (acc : exn + buckets) (record : dict) : exn + buckets :=
  g <- acc ;;
  if hashable (record_type record)
  then inr (bucket_append (record_type record) record g)
  else inl TypeError.

Definition group_by_type (cleaned_data : list dict) : exn + buckets :=
  fold_left group_step cleaned_data (inr []).

Definition core_fields : list string := ["type"; "source_index"].

(** The body of the loop over the four tags, for a tag that has a bucket:
    the table of the bucket with the core fields first. *)
Definition type_frame (type_records : list dict) : exn + DataFrame :=
  let type_df := Frame.of_records type_records in
  let type_specific :=
    filter (fun col => negb (Frame.mem col core_fields)) (columns type_df) in
  let cols_to_keep := core_fields ++ type_specific in
  Frame.select cols_to_keep type_df.

Definition known_types : list string := ["html"; "json"; "text"; "media"].

(** One turn of the loop over the four tags: a tag without a bucket is
    passed over, the frame of a bucket is appended to [all_rows]. *)
Definition frames_step (grouped_by_type : buckets) (acc : exn + list DataFrame) (tag : string)
  : exn + list DataFrame :=
  all_rows <- acc ;;
  match bucket (VStr tag) grouped_by_type with
  | None => inr all_rows
  | Some type_records =>
      type_df <- type_frame type_records ;;
      inr (all_rows ++ [type_df])
  end.

Definition build_frames (grouped_by_type : buckets) : exn + list DataFrame :=
  fold_left (frames_step grouped_by_type) known_types (inr []).

Definition core_order : list string := ["type"; "source_index"; "total_items"].

(** [normalize] from the grouping loop on, [cleaned_data] being given. *)
Definition normalize_cleaned (cleaned_data : list dict) : exn + DataFrame :=
  grouped_by_type <- group_by_type cleaned_data ;;
  all_rows <- build_frames grouped_by_type ;;
  let df := match all_rows with
            | [] => Frame.empty
            | _ => Frame.concat all_rows
            end in
  if (Frame.len df =? 0)%nat then inr df
  else
    let total_items := Frame.len df in
    let df := Frame.assign "total_items" (VInt (Z.of_nat total_items)) df in
    let other_cols := filter (fun col => negb (Frame.mem col core_order)) (columns df) in
    let final_cols := core_order ++ PyStr.sorted other_cols in
    df <- Frame.select final_cols df ;;
    inr (if Frame.mem "total_items" (columns df)
         then Frame.map_column "total_items" Frame.to_int df
         else df).

(** The table of a list of records: the first loop builds [cleaned_data],
    a stripped copy of each record. *)
Definition normalize_records (data : list dict) : exn + DataFrame :=
  let cleaned_data := map (Dict.without artifact_fields) data in
  normalize_cleaned cleaned_data.

(** [self.normalize()]: the table, or the exception raised. *)
Definition normalize (self : ETLPipeline) : exn + DataFrame :=
  normalize_records (extracted_data self).

(** Steps 2 to 4 of [run] on a new pipeline: the object after
    [infer_schema], and what [normalize] returns. *)
Definition run_stages (env : environment) (content : string) : ETLPipeline * (exn + DataFrame) :=
  let self := infer_schema env (extract env content new_pipeline) in
  (self, normalize self).

(* ================================================================== *)
(** ** Vocabulary of the statements about tables *)
(* ================================================================== *)

(** The record falls into the bucket of [tag]. *)
Definition type_is (tag : string) (record : dict) : bool :=
  key_eqb (VStr tag) (record_type record).

(** The type of the record is one of the four tags. *)
Definition known_type (record : dict) : bool :=
  existsb (fun tag => type_is tag record) known_types.

(** The records with a known type, grouped by type in the order of the
    tags; inside a group the order of the list is kept. *)
Definition rows_in_order (data : list dict) : list dict :=
  flat_map (fun tag => filter (type_is tag) data) known_types.

(** A table given by its labels and, row by row, the function from labels
    to cells. *)
Definition table_of (cols : list string) (lookups : list (string -> value)) : DataFrame :=
  {| columns := cols; rows := map (fun f => map f cols) lookups |}.

(** The lookup function is null for every label outside of [cols]. *)
Definition null_outside (cols : list string) (f : string -> value) : Prop :=
  forall c, ~ In c cols -> f c = VNone.

(** The cells of the row that [normalize] builds from a record, the table
    having [n] rows. *)
Definition final_cell (n : nat) (record : dict) (c : string) : value :=
  if String.eqb c "total_items" then VInt (Z.of_nat n) else py_get c record.

(** One bucket as the grouping loop leaves it: absent without a member. *)
Definition bucket_of (members : list dict) : option (list dict) :=
  match members with
  | [] => None
  | _ => Some members
  end.

(** The frames of the loop over the tags, from the members of each bucket:
    the labels of the frame of a bucket and the lookups of its rows. *)
Definition frame_labels (type_records : list dict) : list string :=
  core_fields
  ++ filter (fun col => negb (Frame.mem col core_fields))
            (columns (Frame.of_records type_records)).

Definition parts_of (members : string -> list dict) (tags : list string)
  : list (list string * list (string -> value)) :=
  flat_map (fun tag =>
              match members tag with
              | [] => []
              | type_records =>
                  [(frame_labels type_records, map (fun r c => py_get c r) type_records)]
              end) tags.

(** A line feed, to write documents. *)
Definition nl : string := String newline EmptyString.

(** The document of the end-to-end example of the specification. *)
Definition example_document : string :=
  (quoted "{'a':1}" ++ nl ++ quoted "{'a':2}" ++ nl ++ "Hello world this is text" ++ nl)%string.

(** A document with one JSON object that has fields named [title] and
    [word_count] of its own. *)
Definition book_document : string :=
  (quoted "{'title':'Dune','word_count':188000,'pages':412}" ++ nl)%string.

(* ================================================================== *)
(** ** Documents made of JSON objects and text *)
(* ================================================================== *)

(** The text has no brace. *)
Fixpoint brace_free (s : string) : bool :=
  match s with
  | EmptyString => true
  | String c s' =>
      negb (Ascii.eqb c "{"%char) && negb (Ascii.eqb c "}"%char) && brace_free s'
  end.

(** A piece of a document: text, or an object given by what stands between
    its braces. *)
Inductive segment : Type :=
| Text (t : string)
| Object (body : string).

Definition object_text (body : string) : string :=
  String "{"%char (body ++ "}")%string.

Fixpoint render (segments : list segment) : string :=
  match segments with
  | [] => EmptyString
  | Text t :: rest => (t ++ render rest)%string
  | Object body :: rest => (object_text body ++ render rest)%string
  end.

(** The objects of a document, in the order of the document. *)
Fixpoint objects (segments : list segment) : list string :=
  match segments with
  | [] => []
  | Text _ :: rest => objects rest
  | Object body :: rest => object_text body :: objects rest
  end.

(** The text between the objects has no brace; an object has no brace
    besides its own pair, and [json.loads] accepts it. *)
Definition plain_segment (s : segment) : Prop :=
  match s with
  | Text t => brace_free t = true
  | Object body => brace_free body = true /\ Json.loads (object_text body) <> None
  end.

(* ================================================================== *)
(** ** The records as objects *)
(* ================================================================== *)

(** The records are dict objects and [self.extracted_data] is a list of
    references to them.  To tell a fresh copy from the record it copies,
    the objects are kept in a store: a reference is a position in the
    store, creating a dict adds it at the end of the store, and mutating a
    record would replace what the store holds at its reference. *)
Module Heap.

Abbreviation ref := nat.

Record object_state : Type := {
  store : list dict;
  extracted_refs : list ref
}.

Definition deref (s : list dict) (r : ref) : dict := nth r s [].

(** The records of [self.extracted_data], read through their references. *)
Definition view (o : object_state) : list dict :=
  map (deref (store o)) (extracted_refs o).

(** One turn of the first loop of [normalize]: the dict comprehension
    creates the dict [cleaned] from the fields of [record], and
    [cleaned_data.append(cleaned)] adds the reference to it. *)
Definition copy_stripped (acc : list ref * list dict) (record : ref) : list ref * list dict :=
  let (cleaned_data, s) := acc in
  let cleaned := Dict.without artifact_fields (deref s record) in
  (cleaned_data ++ [List.length s], s ++ [cleaned]).

(** [normalize]: the rest of the method reads the copies and writes to no
    dict. *)
Definition normalize (o : object_state) : (exn + DataFrame) * object_state :=
  let (cleaned_data, s) := fold_left copy_stripped (extracted_refs o) ([], store o) in
  (normalize_cleaned (map (deref s) cleaned_data),
   {| store := s; extracted_refs := extracted_refs o |}).

End Heap.
(* ================================================================== *)
(** * Further code: [run] on a pipeline in use, [SimpleETL] *)
(* ================================================================== *)

(** [ETLPipeline.run] with its loop over [items_by_type], on a pipeline
    that earlier calls have left records in, and the file loop of
    [SimpleETL] in [src/main.py], which runs every file on one pipeline;
    then the vocabulary of the further properties. *)

From Stdlib Require Import Sorting.Sorted DecimalNat.

(** Ascending order of labels, as [sorted] leaves them. *)
Definition label_le (a b : string) : Prop := String.leb a b = true.

(* ================================================================== *)
(** ** [run] on a pipeline in use, and the files of [SimpleETL] *)
(* ================================================================== *)

(** [processing_metadata['items_by_type']]: a count for each type value,
    in the order in which the values came up. *)
Abbreviation tallies := (list (value * nat)).

(** [items_by_type.get(t, 0)]. *)
Fixpoint tally_of (t : value) (counts : tallies) : nat :=
  match counts with
  | [] => 0
  | (k, n) :: rest => if key_eqb t k then n else tally_of t rest
  end.

(** [items_by_type[t] = items_by_type.get(t, 0) + 1]. *)
Fixpoint tally (t : value) (counts : tallies) : tallies :=
  match counts with
  | [] => [(t, 1)]
  | (k, n) :: rest =>
      if key_eqb t k then (k, n + 1) :: rest else (k, n) :: tally t rest
  end.

(** The loop of [run] over [self.extracted_data]: the lookup raises on a
    type that cannot be hashed, and the counts stay as the items before
    it left them. *)
Fixpoint tally_items (data : list dict) (counts : tallies) : option exn * tallies :=
  match data with
  | [] => (None, counts)
  | item :: rest =>
      if hashable (record_type item)
      then tally_items rest (tally (record_type item) counts)
      else (Some TypeError, counts)
  end.

(** The object [run] works on: the pipeline and its [items_by_type]. *)
Record run_state : Type := {
  pipeline : ETLPipeline;
  items_by_type : tallies
}.

(** [ETLPipeline(...)], as [SimpleETL.__init__] builds it. *)
Definition new_run_state : run_state :=
  {| pipeline := new_pipeline; items_by_type := [] |}.


(** [BeautifulSoup(html, 'html.parser')] raises on markup that the parser
    refuses, and nothing handles the exception before the [except] of
    [run]: it leaves [extract_html], the loop of [extract] and [extract].
    [parser_raises html] tells whether the parser raises on [html]. *)
Inductive failure : Type :=
| ParserError
| Raised (e : exn).

(** The first loop of [extract], over the HTML spans with their indexes,
    up to the first span on which the parser raises: the records
    appended, and whether the loop was left by the exception. *)
Fixpoint html_loop (env : environment) (parser_raises : string -> bool)
    (spans : list (nat * string)) : list dict * bool :=
  match spans with
  | [] => ([], false)
  | (idx, html) :: rest =>
      if parser_raises html then ([], true)
      else
        let (records, raised) := html_loop env parser_raises rest in
        (Dict.setitem "source_index" (VStr ("html_" ++ PyStr.of_nat idx)%string)
                      (extract_html env html) :: records,
         raised)
  end.

(** [extract] with the exception of the parser: the records of the HTML
    spans before the one that raises stay appended, the other loops are
    not reached. *)
Definition extract_guarded (env : environment) (parser_raises : string -> bool)
    (content : string) (self : ETLPipeline) : ETLPipeline * bool :=
  let detected := detect_content_types env content in
  let (html_records, raised) :=
    html_loop env parser_raises (enumerate (det_html detected)) in
  ({| extracted_data :=
        extracted_data self
        ++ html_records
        ++ (if raised then []
            else extract_all "json" extract_json (det_json detected)
                 ++ extract_all "text" extract_text (det_text detected)
                 ++ extract_all "media" extract_media (det_base64 detected));
      schema := schema self |},
   raised).

(** [run] from step 2 to step 4 with the exception of the parser. *)
Definition run_guarded (env : environment) (parser_raises : string -> bool)
    (content : string) (st : run_state) : run_state * (failure + DataFrame) :=
  let (self, raised) := extract_guarded env parser_raises content (pipeline st) in
  if raised
  then ({| pipeline := self; items_by_type := items_by_type st |}, inl ParserError)
  else
    match tally_items (extracted_data self) (items_by_type st) with
    | (Some e, counts) => ({| pipeline := self; items_by_type := counts |}, inl (Raised e))
    | (None, counts) =>
        let self := infer_schema env self in
        ({| pipeline := self; items_by_type := counts |},
         match normalize self with
         | inl e => inl (Raised e)
         | inr df => inr df
         end)
    end.

(** The loop of [SimpleETL.process_existing_files] over the files, given
    by their contents: [process_file] runs each on [self.pipeline], the
    one pipeline built in [__init__], and catches what [run] raises, so
    the loop goes on. *)
Fixpoint process_files (env : environment) (parser_raises : string -> bool)
    (contents : list string) (st : run_state)
  : run_state * list (failure + DataFrame) :=
  match contents with
  | [] => (st, [])
  | content :: rest =>
      let (st1, result) := run_guarded env parser_raises content st in
      let (st2, results) := process_files env parser_raises rest st1 in
      (st2, result :: results)
  end.

Definition process_existing_files (env : environment) (parser_raises : string -> bool)
    (contents : list string) : run_state * list (failure + DataFrame) :=
  process_files env parser_raises contents new_run_state.

(** Whether the parser raises in the [extract] of a document, and the
    number of records this [extract] leaves appended. *)
Definition parser_stops (env : environment) (parser_raises : string -> bool)
    (content : string) : bool :=
  snd (extract_guarded env parser_raises content new_pipeline).

Definition records_appended (env : environment) (parser_raises : string -> bool)
    (content : string) : nat :=
  List.length (extracted_data (fst (extract_guarded env parser_raises content new_pipeline))).


(** The number of records of type [tag] among the records. *)
Definition records_of_type (tag : string) (data : list dict) : nat :=
  List.length (filter (type_is tag) data).

(** Records as [extract] builds them: the type is one of the four tags
    and [source_index] is present. *)
Definition well_formed (data : list dict) : Prop :=
  forall r, In r data -> known_type r = true /\ has_field "source_index" r.

(** What two cells share whatever type pandas gives their columns: a null
    is a null, and a string stays the string it is.  (A number is stored
    by the type of its column: an integer becomes a float when its column
    holds a null.) *)
Definition same_null_or_string (a b : value) : Prop :=
  (a = VNone <-> b = VNone) /\ (forall s, a = VStr s <-> b = VStr s).

(** The cell of a row of the table holds what the record has under the
    label, as far as the type of the column cannot change it: a missing
    or null value is a null cell, a string is a cell with this string. *)
Definition cell_holds (cell : value) (record : dict) (c : string) : Prop :=
  (py_get c record = VNone -> cell = VNone)
  /\ (forall s, py_get c record = VStr s -> cell = VStr s).

(** Every character of the text belongs to the base64 alphabet. *)
Fixpoint base64_text (s : string) : bool :=
  match s with
  | EmptyString => true
  | String c s' => Re.is_b64 c && base64_text s'
  end.

(** The value is the empty object [{}]. *)
Definition is_empty_dict (v : value) : bool :=
  match v with
  | VDict [] => true
  | _ => false
  end.

(** A [p] element around a text, and the same element inside a [div]. *)
Definition paragraph_element (x : string) : string := ("<p>" ++ x ++ "</p>")%string.

Definition nested_element (x : string) : string :=
  ("<div>" ++ paragraph_element x ++ "</div>")%string.

(** The text of a document outside of its objects. *)
Fixpoint text_outside (segments : list segment) : string :=
  match segments with
  | [] => EmptyString
  | Text t :: rest => (t ++ text_outside rest)%string
  | Object _ :: rest => text_outside rest
  end.

(** The segments left when the objects whose text is among [spans] are
    cut out. *)
Definition without_objects (spans : list string) (segments : list segment) : list segment :=
  filter (fun s => match s with
                   | Text _ => true
                   | Object body => negb (existsb (String.eqb (object_text body)) spans)
                   end)
         segments.

(** The pieces of a document have no brace besides the pair of an
    object. *)
Definition braces_paired (s : segment) : Prop :=
  match s with
  | Text t => brace_free t = true
  | Object body => brace_free body = true
  end.

(* ================================================================== *)
(** * Properties *)
(* ================================================================== *)

(** ** Dicts *)

Section DictFacts.
Context {V : Type}.
Implicit Types (d items : list (string * V)) (k : string) (v : V).

Lemma get_setitem_eq k v d : Dict.get k (Dict.setitem k v d) = Some v.
Proof.
  induction d as [|[k' v'] d IH]; simpl.
  - now rewrite String.eqb_refl.
  - destruct (String.eqb k k') eqn:E; simpl; rewrite E; auto.
Qed.

Lemma get_setitem_ne k k' v d :
  k <> k' -> Dict.get k' (Dict.setitem k v d) = Dict.get k' d.
Proof.
  intros Hne. induction d as [|[k0 v0] d IH]; simpl.
  - destruct (String.eqb_spec k' k); congruence.
  - destruct (String.eqb_spec k k0) as [->|]; simpl.
    + destruct (String.eqb_spec k' k0); congruence.
    + now rewrite IH.
Qed.

Lemma get_None_not_key k d : Dict.get k d = None <-> ~ In k (Dict.keys d).
Proof.
  induction d as [|[k' v'] d IH]; simpl.
  - tauto.
  - destruct (String.eqb_spec k k') as [->|Hne].
    + split; [discriminate | intros H; exfalso; apply H; now left].
    + rewrite IH. split; [intros H [E|I]; [congruence | auto] | tauto].
Qed.

Lemma contains_key k d : Dict.contains k d = true <-> In k (Dict.keys d).
Proof.
  unfold Dict.contains. destruct (Dict.get k d) eqn:E.
  - split; [intros _ | reflexivity].
    destruct (in_dec string_dec k (Dict.keys d)) as [I|N]; [exact I|].
    apply get_None_not_key in N. congruence.
  - split; [discriminate|]. intros I. apply get_None_not_key in E. contradiction.
Qed.

Lemma contains_false_key k d : Dict.contains k d = false <-> ~ In k (Dict.keys d).
Proof.
  rewrite <- contains_key. destruct (Dict.contains k d); split; congruence.
Qed.

Lemma setitem_new k v d : ~ In k (Dict.keys d) -> Dict.setitem k v d = d ++ [(k, v)].
Proof.
  induction d as [|[k' v'] d IH]; simpl; intros H.
  - reflexivity.
  - destruct (String.eqb_spec k k') as [->|Hne].
    + exfalso. apply H. now left.
    + rewrite IH; auto.
Qed.

Lemma keys_setitem_old k v d : In k (Dict.keys d) -> Dict.keys (Dict.setitem k v d) = Dict.keys d.
Proof.
  induction d as [|[k' v'] d IH]; simpl; intros H.
  - contradiction.
  - destruct (String.eqb_spec k k') as [->|Hne]; simpl.
    + reflexivity.
    + f_equal. apply IH. destruct H; congruence.
Qed.

Lemma keys_setitem k v d :
  Dict.keys (Dict.setitem k v d)
  = if Dict.contains k d then Dict.keys d else Dict.keys d ++ [k].
Proof.
  destruct (Dict.contains k d) eqn:E.
  - apply keys_setitem_old. now apply contains_key.
  - rewrite setitem_new by now apply contains_false_key.
    unfold Dict.keys. now rewrite map_app.
Qed.

Lemma NoDup_keys_setitem k v d : NoDup (Dict.keys d) -> NoDup (Dict.keys (Dict.setitem k v d)).
Proof.
  intros H. rewrite keys_setitem. destruct (Dict.contains k d) eqn:E; [exact H|].
  apply contains_false_key in E.
  apply NoDup_app; [exact H | repeat constructor; simpl; tauto |].
  intros x Hx [<-|[]]. contradiction.
Qed.

Lemma In_setitem k v d kv :
  In kv (Dict.setitem k v d) -> kv = (k, v) \/ In kv d.
Proof.
  induction d as [|[k' v'] d IH]; simpl.
  - intros [<-|[]]. now left.
  - destruct (String.eqb_spec k k') as [->|Hne]; simpl.
    + intros [<-|H]; auto.
    + intros [<-|H]; auto. destruct (IH H); auto.
Qed.

Lemma fold_items_distinct items d :
  NoDup (Dict.keys (d ++ items)) -> Dict.fold_items items d = d ++ items.
Proof.
  revert d. induction items as [|[k v] items IH]; intros d H; simpl.
  - now rewrite app_nil_r.
  - rewrite setitem_new.
    + change (Dict.fold_items items (d ++ [(k, v)]) = d ++ (k, v) :: items).
      rewrite IH; rewrite <- app_assoc; [reflexivity | exact H].
    + unfold Dict.keys in H. rewrite map_app in H. simpl in H.
      apply NoDup_remove_2 in H. intros I. apply H. apply in_or_app. now left.
Qed.

Lemma of_items_distinct items : NoDup (Dict.keys items) -> Dict.of_items items = items.
Proof. intros H. apply (fold_items_distinct items []). exact H. Qed.

Lemma fold_items_NoDup items d : NoDup (Dict.keys d) -> NoDup (Dict.keys (Dict.fold_items items d)).
Proof.
  revert d. induction items as [|[k v] items IH]; intros d H; simpl; [exact H|].
  apply IH. now apply NoDup_keys_setitem.
Qed.

Lemma of_items_NoDup items : NoDup (Dict.keys (Dict.of_items items)).
Proof. apply fold_items_NoDup. constructor. Qed.

Lemma fold_items_In items d kv : In kv (Dict.fold_items items d) -> In kv d \/ In kv items.
Proof.
  revert d. induction items as [|[k v] items IH]; intros d H; simpl in *; [now left|].
  destruct (IH _ H) as [H1|H1]; [|now right; right].
  destruct (In_setitem _ _ _ _ H1) as [->|H2]; [right; now left | now left].
Qed.

Lemma of_items_In items kv : In kv (Dict.of_items items) -> In kv items.
Proof. intros H. destruct (fold_items_In _ _ _ H) as [[]|H']; exact H'. Qed.

Lemma get_In k v d : Dict.get k d = Some v -> In (k, v) d.
Proof.
  induction d as [|[k' v'] d IH]; simpl; [discriminate|].
  destruct (String.eqb_spec k k') as [->|Hne].
  - intros [= ->]. now left.
  - intros H. right. auto.
Qed.

Lemma In_get_distinct k v d : NoDup (Dict.keys d) -> In (k, v) d -> Dict.get k d = Some v.
Proof.
  induction d as [|[k' v'] d IH]; simpl; [contradiction|].
  intros Hnd [[= -> ->]|I].
  - now rewrite String.eqb_refl.
  - inversion Hnd as [|? ? Hn Hnd']; subst.
    destruct (String.eqb_spec k k') as [->|Hne].
    + exfalso. apply Hn. change k' with (fst (k', v)). now apply in_map.
    + auto.
Qed.

End DictFacts.

(** ** Values *)

(** Induction on values that reaches the elements of lists and dicts. *)
Lemma value_nested_ind (P : value -> Prop) :
  P VNone ->
  (forall b, P (VBool b)) ->
  (forall n, P (VInt n)) ->
  (forall lit, P (VFloat lit)) ->
  (forall s, P (VStr s)) ->
  (forall s, P (VNavigableString s)) ->
  (forall items, Forall P items -> P (VList items)) ->
  (forall d, Forall (fun kv => P (snd kv)) d -> P (VDict d)) ->
  forall v, P v.
Proof.
  intros HN HB HI HF HS HNS HL HD.
  fix IH 1. intros [| b | n | lit | s | s | items | d];
    [exact HN | apply HB | apply HI | apply HF | apply HS | apply HNS | | ].
  - apply HL. induction items as [|x xs IHxs]; constructor; [apply IH | exact IHxs].
  - apply HD. induction d as [|[k x] xs IHxs]; constructor; [apply IH | exact IHxs].
Qed.

(** ** [flatten_dict] *)

Section FlattenFacts.
Variable sep : string.

Lemma flatten_entry_dict key d :
  flatten_entry sep key (VDict d) = flatten_dict d key sep.
Proof.
  unfold flatten_dict, flatten_items. simpl. f_equal.
  induction d as [|[k v] d IH]; simpl; [reflexivity | now rewrite IH].
Qed.

Lemma flatten_entry_leaf key v :
  is_dict v = false -> flatten_entry sep key v = [(key, v)].
Proof. destruct v; simpl; intros H; try reflexivity. discriminate. Qed.

Lemma flatten_items_flat d : flat d -> flatten_items d EmptyString sep = d.
Proof.
  unfold flatten_items. induction d as [|[k v] d IH]; intros H; simpl; [reflexivity|].
  rewrite flatten_entry_leaf by (apply (H k); now left).
  simpl. f_equal. apply IH. intros k' v' I. apply (H k'). now right.
Qed.

Lemma In_flatten_items d parent kv :
  In kv (flatten_items d parent sep) ->
  exists k v, In (k, v) d /\ In kv (flatten_entry sep (new_key parent sep k) v).
Proof.
  unfold flatten_items. rewrite in_flat_map. intros [[k v] [I H]]. now exists k, v.
Qed.

Lemma flatten_entry_values v :
  forall key kv, In kv (flatten_entry sep key v) -> is_dict (snd kv) = false.
Proof.
  induction v as [| b | n | lit | s | s | items _ | d IH] using value_nested_ind;
    intros key kv; try (simpl; intros [<-|[]]; reflexivity).
  rewrite flatten_entry_dict. unfold flatten_dict. intros H.
  apply of_items_In, In_flatten_items in H. destruct H as (k & v & I & H).
  rewrite Forall_forall in IH. exact (IH (k, v) I _ _ H).
Qed.

Lemma flatten_dict_flat d parent : flat (flatten_dict d parent sep).
Proof.
  intros k v H. rewrite <- flatten_entry_dict in H.
  exact (flatten_entry_values _ _ _ H).
Qed.

Lemma flatten_dict_identity d :
  NoDup (Dict.keys d) -> flat d -> flatten_dict d EmptyString sep = d.
Proof.
  intros Hnd Hflat. unfold flatten_dict. rewrite flatten_items_flat by exact Hflat.
  now apply of_items_distinct.
Qed.

Lemma flatten_dict_idempotent d parent :
  flatten_dict (flatten_dict d parent sep) EmptyString sep = flatten_dict d parent sep.
Proof.
  apply flatten_dict_identity; [apply of_items_NoDup | apply flatten_dict_flat].
Qed.

Lemma starts_with_refl s : PyStr.starts_with s s = true.
Proof. induction s; simpl; [reflexivity|]. now rewrite Ascii.eqb_refl. Qed.

Lemma starts_with_app_l a b s :
  PyStr.starts_with (a ++ b)%string s = true -> PyStr.starts_with a s = true.
Proof.
  revert s. induction a as [|c a IH]; intros s; simpl; [reflexivity|].
  destruct s as [|c' s]; [discriminate|].
  rewrite !andb_true_iff. intros [E H]. split; [exact E | now apply IH].
Qed.

Lemma new_key_prefix parent k : PyStr.starts_with parent (new_key parent sep k) = true.
Proof.
  unfold new_key. destruct parent as [|c p]; [reflexivity|].
  cbn [PyStr.truthy]. apply (starts_with_app_l _ (sep ++ k)%string), starts_with_refl.
Qed.

Lemma starts_with_trans a b s :
  PyStr.starts_with a b = true -> PyStr.starts_with b s = true -> PyStr.starts_with a s = true.
Proof.
  revert b s. induction a as [|c a IH]; intros b s; simpl; [reflexivity|].
  destruct b as [|c1 b]; [discriminate|]. destruct s as [|c2 s]; simpl; [discriminate|].
  rewrite !andb_true_iff. intros [E1 H1] [E2 H2].
  apply Ascii.eqb_eq in E1, E2. subst. rewrite Ascii.eqb_refl. split; [reflexivity|].
  now apply (IH b).
Qed.

(** Every key an entry contributes starts with the key of the entry. *)
Lemma flatten_entry_keys v :
  forall key kv, In kv (flatten_entry sep key v) -> PyStr.starts_with key (fst kv) = true.
Proof.
  induction v as [| b | n | lit | s | s | items _ | d IH] using value_nested_ind;
    intros key kv; try (simpl; intros [<-|[]]; apply starts_with_refl).
  rewrite flatten_entry_dict. unfold flatten_dict. intros H.
  apply of_items_In, In_flatten_items in H. destruct H as (k & v & I & H).
  rewrite Forall_forall in IH. specialize (IH (k, v) I _ _ H).
  exact (starts_with_trans _ _ _ (new_key_prefix key k) IH).
Qed.

(** A list at the top level appears among the items under its own key. *)
Lemma flatten_items_list d k items :
  In (k, VList items) d -> In (k, VList items) (flatten_items d EmptyString sep).
Proof.
  intros I. unfold flatten_items. apply in_flat_map. exists (k, VList items).
  split; [exact I | now left].
Qed.

(** Joining a path whose first key is itself a joined pair. *)
Lemma join_step key k path :
  join sep ((key ++ sep ++ k)%string :: path) = join sep (key :: k :: path).
Proof.
  destruct path as [|k2 path]; [reflexivity|].
  cbn [join]. generalize (match path with
                          | [] => k2
                          | _ :: _ => (k2 ++ sep ++ join sep path)%string
                          end). intros tail.
  assert (Hassoc : forall a b c : string, ((a ++ b) ++ c = a ++ b ++ c)%string).
  { intros a b c. induction a as [|x a IH]; [reflexivity|]. cbn. now rewrite IH. }
  now rewrite !Hassoc.
Qed.

Lemma truthy_append (a b : string) : PyStr.truthy a = true -> PyStr.truthy (a ++ b) = true.
Proof. now destruct a. Qed.

(** The leaves of a dict, entry by entry. *)
Lemma leaves_cons k v d :
  leaves (VDict ((k, v) :: d))
  = map (fun leaf => (k :: fst leaf, snd leaf)) (leaves v) ++ leaves (VDict d).
Proof. reflexivity. Qed.

(** Without two paths that join to the same key, an entry contributes its
    leaves under the joined paths, at every depth. *)
Lemma flatten_entry_paths v :
  forall key,
    (is_dict v = true -> PyStr.truthy key = true) ->
    NoDup (map (fun leaf => join sep (key :: fst leaf)) (leaves v)) ->
    flatten_entry sep key v
    = map (fun leaf => (join sep (key :: fst leaf), snd leaf)) (leaves v).
Proof.
  induction v as [| b | n | lit | s | s | items _ | d IH] using value_nested_ind;
    intros key Hkey Hnd; try reflexivity.
  specialize (Hkey eq_refl).
  rewrite flatten_entry_dict. unfold flatten_dict.
  assert (Hitems : flatten_items d key sep
                   = map (fun leaf => (join sep (key :: fst leaf), snd leaf))
                         (leaves (VDict d))).
  { clear -IH Hkey Hnd. unfold flatten_items.
    induction d as [|[k v] d IHd]; [reflexivity|].
    rewrite leaves_cons in *. rewrite map_app, map_map in Hnd.
    cbn [flat_map fst snd]. rewrite map_app, map_map. cbn [fst snd].
    inversion IH as [|? ? Hv Hd]; subst.
    f_equal.
    - unfold new_key. rewrite Hkey. cbn [snd] in Hv. rewrite Hv.
      + apply map_ext. intros leaf. now rewrite join_step.
      + intros _. now apply truthy_append.
      + apply NoDup_app_remove_r in Hnd. cbn [fst] in Hnd.
        erewrite map_ext; [exact Hnd|]. intros leaf. apply join_step.
    - apply IHd; [exact Hd|]. now apply NoDup_app_remove_l in Hnd. }
  rewrite Hitems. apply of_items_distinct.
  unfold Dict.keys. rewrite map_map. exact Hnd.
Qed.

(** At the top, where the parent key is empty. *)
Lemma flatten_items_paths d :
  (forall k inner, In (k, VDict inner) d -> PyStr.truthy k = true) ->
  NoDup (Dict.keys (joined_paths d sep)) ->
  flatten_items d EmptyString sep = joined_paths d sep.
Proof.
  unfold joined_paths, flatten_items, Dict.keys. rewrite map_map. cbn [fst].
  induction d as [|[k v] d IH]; intros Hkeys Hnd; [reflexivity|].
  rewrite leaves_cons in *. rewrite map_app, map_map in *. cbn [fst snd] in *.
  cbn [flat_map fst snd]. f_equal.
  - change (new_key EmptyString sep k) with k. apply flatten_entry_paths.
    + intros Hv. destruct v; try discriminate. apply (Hkeys k d0). now left.
    + now apply NoDup_app_remove_r in Hnd.
  - apply IH; [|now apply NoDup_app_remove_l in Hnd].
    intros k' inner I. apply (Hkeys k' inner). now right.
Qed.

End FlattenFacts.

(** Distinctness of a list of concrete strings. *)
Ltac distinct_keys :=
  repeat (constructor; [simpl; intuition discriminate|]); constructor.

(** C7, as stated, fails: a list value is not always preserved under its
    key.  In [{"a_b": [1], "a": {"b": 2}}] the path [a], [b] flattens to the
    key [a_b] that the list already has, and [dict(items)] keeps the later
    value: the list is gone from the result.  Nor is every path joined
    with an underscore: under an empty key the inner keys stay as they
    are. *)
Lemma flatten_dict_list_overwritten :
  let d := [("a_b", VList [VInt 1]); ("a", VDict [("b", VInt 2)])] in
  NoDup (Dict.keys d)
  /\ Dict.get "a_b" d = Some (VList [VInt 1])
  /\ flatten_dict d EmptyString "_" = [("a_b", VInt 2)]
  /\ flatten_dict [(EmptyString, VDict [("b", VInt 1)])] EmptyString "_" = [("b", VInt 1)].
Proof.
  cbv zeta. split; [distinct_keys|]. repeat split; reflexivity.
Qed.

(** C7, amended: [flatten_dict] is the identity on every already flat
    object; it maps a nested object under a non-empty key to keys that
    start with that key and the underscore ([{"a":{"b":1}}] yields
    [{"a_b":1}]); a list value is preserved verbatim under its key
    whenever no two flattened paths give the same key; [flatten_dict]
    is idempotent; and, when no two key paths join to the same key and no
    object stands under an empty key at the top, the result is, in the
    order of the document, every leaf at every depth (a list as it is)
    under its key path joined with underscores. *)
Theorem flatten_dict_laws :
  (forall d, NoDup (Dict.keys d) -> flat d -> flatten_dict d EmptyString "_" = d)
  /\ flatten_dict [("a", VDict [("b", VInt 1)])] EmptyString "_" = [("a_b", VInt 1)]
  /\ (forall d k inner key v,
        In (k, VDict inner) d -> PyStr.truthy k = true ->
        In (key, v) (flatten_entry "_" k (VDict inner)) ->
        In (key, v) (flatten_items d EmptyString "_")
        /\ PyStr.starts_with (k ++ "_")%string key = true)
  /\ (forall d k items,
        In (k, VList items) d ->
        NoDup (Dict.keys (flatten_items d EmptyString "_")) ->
        Dict.get k (flatten_dict d EmptyString "_") = Some (VList items))
  /\ (forall d, flatten_dict (flatten_dict d EmptyString "_") EmptyString "_"
                = flatten_dict d EmptyString "_")
  /\ (forall d,
        (forall k inner, In (k, VDict inner) d -> PyStr.truthy k = true) ->
        NoDup (Dict.keys (joined_paths d "_")) ->
        flatten_dict d EmptyString "_" = joined_paths d "_").
Proof.
  split; [apply flatten_dict_identity|]. split; [reflexivity|].
  split; [|split; [|split]].
  - intros d k inner key v I Hk H. split.
    + unfold flatten_items. apply in_flat_map. exists (k, VDict inner). split; [exact I|].
      exact H.
    + rewrite flatten_entry_dict in H. apply of_items_In, In_flatten_items in H.
      destruct H as (k2 & v2 & _ & H). apply flatten_entry_keys in H. simpl in H.
      refine (starts_with_trans _ _ _ _ H).
      unfold new_key. rewrite Hk.
      replace (k ++ "_" ++ k2)%string with ((k ++ "_") ++ k2)%string.
      * apply (starts_with_app_l _ k2), starts_with_refl.
      * clear. induction k; simpl; [reflexivity | now f_equal].
  - intros d k items I Hnd. unfold flatten_dict.
    rewrite of_items_distinct by exact Hnd.
    apply In_get_distinct; [exact Hnd | now apply flatten_items_list].
  - intros d. apply flatten_dict_idempotent.
  - intros d Hkeys Hnd. unfold flatten_dict.
    rewrite flatten_items_paths by assumption.
    now apply of_items_distinct.
Qed.

Lemma flatten_dict_laws_witness :
  let d := [("a", VInt 1); ("b", VStr "x"); ("c", VList [VInt 1; VDict [("k", VNone)]])] in
  let n := [("a", VDict [("b", VInt 1); ("l", VList [VInt 2])]); ("c", VList [])] in
  let deep := [("a", VDict [("b", VDict [("c", VInt 1); ("l", VList [VDict []])]);
                            ("d", VDict [])]);
               ("e", VNone)] in
  flatten_dict d EmptyString "_" = d
  /\ (In ("a_l", VList [VInt 2]) (flatten_items n EmptyString "_")
      /\ PyStr.starts_with "a_" "a_l" = true)
  /\ Dict.get "c" (flatten_dict n EmptyString "_") = Some (VList [])
  /\ flatten_dict (flatten_dict n EmptyString "_") EmptyString "_"
     = flatten_dict n EmptyString "_"
  /\ flatten_dict deep EmptyString "_"
     = [("a_b_c", VInt 1); ("a_b_l", VList [VDict []]); ("e", VNone)].
Proof.
  cbv zeta.
  destruct flatten_dict_laws as (Hid & _ & Hpath & Hlist & Hidem & Hpaths).
  split; [|split; [|split; [|split]]].
  - apply Hid; [distinct_keys|].
    intros k v [[= <- <-]|[[= <- <-]|[[= <- <-]|[]]]]; reflexivity.
  - apply (Hpath _ "a" [("b", VInt 1); ("l", VList [VInt 2])]);
      [now left | reflexivity | right; now left].
  - apply Hlist; [right; now left | distinct_keys].
  - apply Hidem.
  - rewrite Hpaths; [reflexivity| |distinct_keys].
    intros k inner [[= <- <-]|[[=]|[]]]. reflexivity.
Defined.

(** ** Sets *)

Section SetFacts.
Variable rank : string -> nat.

Lemma insert_by_perm x xs : Permutation (PySet.insert_by rank x xs) (x :: xs).
Proof.
  induction xs as [|y ys IH]; simpl; [reflexivity|].
  destruct (rank x <=? rank y)%nat; [reflexivity|].
  rewrite IH. apply perm_swap.
Qed.

Lemma to_list_perm xs : Permutation (PySet.to_list rank xs) (nodup string_dec xs).
Proof.
  unfold PySet.to_list. induction (nodup string_dec xs) as [|y ys IH]; simpl; [reflexivity|].
  rewrite insert_by_perm. now constructor.
Qed.

Lemma to_list_In x xs : In x (PySet.to_list rank xs) <-> In x xs.
Proof.
  split; intros H.
  - apply (nodup_In string_dec). exact (Permutation_in _ (to_list_perm xs) H).
  - apply (nodup_In string_dec) in H.
    exact (Permutation_in _ (Permutation_sym (to_list_perm xs)) H).
Qed.

Lemma to_list_NoDup xs : NoDup (PySet.to_list rank xs).
Proof.
  apply (Permutation_NoDup (l := nodup string_dec xs));
    [symmetry; apply to_list_perm | apply NoDup_nodup].
Qed.

End SetFacts.

(** ** [infer_schema] *)

Section SchemaFacts.
Variable env : environment.

Lemma has_fieldb_contains key item : has_fieldb key item = Dict.contains key item.
Proof.
  unfold has_fieldb. destruct (in_dec string_dec key (Dict.keys item)) as [I|N].
  - symmetry. now apply contains_key.
  - symmetry. now apply contains_false_key.
Qed.

Lemma count_with_field_filter key data :
  count_with_field key data = List.length (filter (Dict.contains key) data).
Proof.
  induction data as [|item rest IH]; simpl; [reflexivity|].
  rewrite has_fieldb_contains, IH. now destruct (Dict.contains key item).
Qed.

Lemma count_with_field_le key data : count_with_field key data <= List.length data.
Proof.
  induction data as [|item rest IH]; simpl; [lia|].
  destruct (has_fieldb key item); lia.
Qed.

(** [item.get(key) is None]: the key is missing or its value is null. *)
Lemma py_get_none key item :
  is_none (py_get key item) = negb (has_fieldb key item) || holds_null key item.
Proof.
  rewrite has_fieldb_contains. unfold py_get, holds_null, Dict.contains.
  destruct (Dict.get key item) as [[]|]; reflexivity.
Qed.

Lemma nullable_split key data :
  existsb is_none (map (py_get key) data)
  = (count_with_field key data <? List.length data)%nat || existsb (holds_null key) data.
Proof.
  induction data as [|item rest IH]; [reflexivity|].
  cbn [map existsb count_with_field List.length]. rewrite IH, py_get_none.
  pose proof (count_with_field_le key rest) as Hle.
  destruct (has_fieldb key item); cbn [negb Nat.add].
  - change (S (count_with_field key rest) <? S (List.length rest))%nat
      with (count_with_field key rest <? List.length rest)%nat.
    destruct (holds_null key item), (count_with_field key rest <? List.length rest)%nat;
      reflexivity.
  - replace (count_with_field key rest <? S (List.length rest))%nat with true
      by (symmetry; apply Nat.ltb_lt; lia).
    reflexivity.
Qed.

(** The loop that stores the descriptors: a key of the loop ends with the
    descriptor computed for it, any other key keeps what it had. *)
Lemma schema_loop_get (f : string -> descriptor) keys sch key :
  Dict.get key (fold_left (fun sch k => Dict.setitem k (f k) sch) keys sch)
  = if in_dec string_dec key keys then Some (f key) else Dict.get key sch.
Proof.
  revert sch. induction keys as [|k ks IH]; intros sch; [reflexivity|].
  cbn [fold_left]. rewrite IH.
  destruct (in_dec string_dec key ks) as [I|N];
    destruct (in_dec string_dec key (k :: ks)) as [I'|N']; try reflexivity.
  - exfalso. apply N'. now right.
  - destruct I' as [->|I']; [apply get_setitem_eq | contradiction].
  - apply get_setitem_ne. intros ->. apply N'. now left.
Qed.

Lemma all_keys_In key data :
  In key (PySet.to_list (set_rank env AllKeys) (flat_map Dict.keys data))
  <-> exists item, In item data /\ has_field key item.
Proof. rewrite to_list_In, in_flat_map. reflexivity. Qed.

Lemma count_with_field_pos key data :
  0 < count_with_field key data <-> exists item, In item data /\ has_field key item.
Proof.
  induction data as [|item rest IH]; simpl.
  - split; [lia | intros (? & [] & _)].
  - unfold has_fieldb. destruct (in_dec string_dec key (Dict.keys item)) as [I|N].
    + split; [intros _; exists item; split; [now left | exact I] | lia].
    + rewrite Nat.add_0_l, IH. split.
      * intros (it & Hin & Hf). exists it. split; [now right | exact Hf].
      * intros (it & [<-|Hin] & Hf); [contradiction | now exists it].
Qed.

Lemma infer_schema_descriptor self key :
  0 < count_with_field key (extracted_data self) ->
  Dict.get key (schema (infer_schema env self))
  = Some (describe env (extracted_data self) key).
Proof.
  intros Hpos. apply count_with_field_pos, all_keys_In in Hpos.
  unfold infer_schema. cbn [schema]. rewrite schema_loop_get.
  destruct (in_dec string_dec key _) as [_|N]; [reflexivity | contradiction].
Qed.

(** The loop that fills one record. *)
Lemma fill_missing_get keys item key :
  Dict.get key (fill_missing keys item)
  = match Dict.get key item with
    | Some v => Some v
    | None => if in_dec string_dec key keys then Some VNone else None
    end.
Proof.
  unfold fill_missing. revert item. induction keys as [|k ks IH]; intros item.
  - simpl. now destruct (Dict.get key item).
  - cbn [fold_left]. rewrite IH. unfold Dict.contains.
    destruct (Dict.get k item) eqn:Ek.
    + destruct (Dict.get key item) eqn:E; [reflexivity|].
      destruct (in_dec string_dec key ks); destruct (in_dec string_dec key (k :: ks)) as [I|N];
        try reflexivity.
      * exfalso. apply N. now right.
      * destruct I as [->|I]; [congruence | contradiction].
    + destruct (string_dec k key) as [->|Hne].
      * rewrite get_setitem_eq, Ek.
        destruct (in_dec string_dec key (key :: ks)) as [_|N]; [reflexivity|].
        exfalso. apply N. now left.
      * rewrite get_setitem_ne by exact Hne.
        destruct (Dict.get key item); [reflexivity|].
        destruct (in_dec string_dec key ks); destruct (in_dec string_dec key (k :: ks)) as [I|N];
          try reflexivity.
        -- exfalso. apply N. now right.
        -- destruct I as [->|I]; [congruence | contradiction].
Qed.

End SchemaFacts.

(** C1, as stated, fails: a field that every record contains can still be
    nullable.  The document [{"a":null}] gives one record, which contains
    [a] with the value null: [k = n = 1], so [k < n] is false, and the
    descriptor of [a] has [nullable] true. *)
Lemma infer_schema_null_value_nullable :
  let self := extract sample_env (quoted "{'a':null}") new_pipeline in
  extracted_data self
  = [[("a", VNone); ("type", VStr "json"); ("source_index", VStr "json_0")]]
  /\ List.length (extracted_data self) = 1
  /\ count_with_field "a" (extracted_data self) = 1
  /\ option_map nullable (Dict.get "a" (schema (infer_schema sample_env self))) = Some true
  /\ option_map present_in (Dict.get "a" (schema (infer_schema sample_env self))) = Some 1
  /\ (1 <? 1)%nat = false.
Proof. cbv zeta. repeat split; vm_compute; reflexivity. Qed.

(** C1, amended: for every extracted-record list of length [n] and every
    field name present in [k] of the [n] records, [k] at least 1, the
    descriptor computed by [infer_schema] has [present_in] equal to [k] and
    [nullable] equal to ([k < n] or some record holds null for the field);
    so [nullable] equals [k < n] when no record holds null for the
    field. *)
Theorem infer_schema_presence (env : environment) (self : ETLPipeline) (key : string) :
  let data := extracted_data self in
  let k := count_with_field key data in
  let n := List.length data in
  0 < k ->
  exists desc,
    Dict.get key (schema (infer_schema env self)) = Some desc
    /\ present_in desc = k
    /\ nullable desc = ((k <? n)%nat || existsb (holds_null key) data)
    /\ (existsb (holds_null key) data = false -> nullable desc = (k <? n)%nat).
Proof.
  intros data k n Hpos. exists (describe env data key).
  split; [now apply infer_schema_descriptor|].
  split; [symmetry; apply count_with_field_filter|].
  assert (E : nullable (describe env data key)
              = ((k <? n)%nat || existsb (holds_null key) data))
    by apply nullable_split.
  split; [exact E|]. intros Hnull. rewrite E, Hnull. apply orb_false_r.
Qed.

Lemma infer_schema_presence_witness :
  let self :=
    {| extracted_data :=
         [ [("type", VStr "json"); ("a", VInt 1)];
           [("type", VStr "text"); ("title", VStr "x")];
           [("type", VStr "json"); ("a", VInt 2)] ];
       schema := [] |} in
  exists desc,
    Dict.get "a" (schema (infer_schema sample_env self)) = Some desc
    /\ present_in desc = 2
    /\ nullable desc = true.
Proof.
  cbv zeta.
  destruct (infer_schema_presence sample_env
              {| extracted_data :=
                   [ [("type", VStr "json"); ("a", VInt 1)];
                     [("type", VStr "text"); ("title", VStr "x")];
                     [("type", VStr "json"); ("a", VInt 2)] ];
                 schema := [] |} "a") as (desc & Hget & Hk & Hnull & _).
  - vm_compute. lia.
  - exists desc. split; [exact Hget|]. split; [exact Hk | exact Hnull].
Defined.

(** C3: after [infer_schema], every record contains every field name that
    appears in at least one record; a field the record had keeps its
    value, a field it lacked is null. *)
Theorem infer_schema_fills (env : environment) (self : ETLPipeline)
    (i : nat) (item : dict) (key : string) :
  nth_error (extracted_data self) i = Some item ->
  (exists other, In other (extracted_data self) /\ has_field key other) ->
  exists item',
    nth_error (extracted_data (infer_schema env self)) i = Some item'
    /\ has_field key item'
    /\ Dict.get key item'
       = match Dict.get key item with
         | Some v => Some v
         | None => Some VNone
         end.
Proof.
  intros Hi Hseen. apply (all_keys_In env) in Hseen.
  set (all_keys := PySet.to_list _ _) in Hseen.
  exists (fill_missing all_keys item).
  assert (G : Dict.get key (fill_missing all_keys item)
              = match Dict.get key item with Some v => Some v | None => Some VNone end).
  { rewrite fill_missing_get. destruct (Dict.get key item); [reflexivity|].
    destruct (in_dec string_dec key all_keys); [reflexivity | contradiction]. }
  split; [|split; [|exact G]].
  - unfold infer_schema. cbn [extracted_data]. now apply map_nth_error.
  - apply contains_key. unfold Dict.contains. rewrite G.
    now destruct (Dict.get key item).
Qed.

Lemma infer_schema_fills_witness :
  exists item',
    nth_error
      (extracted_data
         (infer_schema sample_env
            {| extracted_data :=
                 [ [("type", VStr "json"); ("a", VInt 1)];
                   [("type", VStr "text"); ("title", VStr "x")] ];
               schema := [] |})) 1 = Some item'
    /\ has_field "a" item'
    /\ Dict.get "a" item' = Some VNone.
Proof.
  apply (infer_schema_fills sample_env
           {| extracted_data :=
                [ [("type", VStr "json"); ("a", VInt 1)];
                  [("type", VStr "text"); ("title", VStr "x")] ];
              schema := [] |} 1 [("type", VStr "text"); ("title", VStr "x")] "a").
  - reflexivity.
  - exists [("type", VStr "json"); ("a", VInt 1)]. split; [now left | right; now left].
Defined.

(** ** Tables *)

Section FrameFacts.

Lemma mem_In c cols : Frame.mem c cols = true <-> In c cols.
Proof.
  unfold Frame.mem. rewrite existsb_exists. split.
  - intros (x & I & E). apply String.eqb_eq in E. now subst.
  - intros I. exists c. split; [exact I | apply String.eqb_refl].
Qed.

Lemma mem_false c cols : Frame.mem c cols = false <-> ~ In c cols.
Proof. rewrite <- mem_In. destruct (Frame.mem c cols); split; congruence. Qed.

Lemma union_labels_In c seen new :
  In c (Frame.union_labels seen new) <-> In c seen \/ In c new.
Proof.
  unfold Frame.union_labels. revert seen.
  induction new as [|x new IH]; intros seen; cbn [fold_left].
  - simpl. tauto.
  - rewrite IH. destruct (Frame.mem x seen) eqn:E.
    + apply mem_In in E. simpl. split; [tauto|].
      intros [H|[<-|H]]; auto.
    + rewrite in_app_iff. simpl. tauto.
Qed.

Lemma union_labels_NoDup seen new :
  NoDup seen -> NoDup (Frame.union_labels seen new).
Proof.
  unfold Frame.union_labels. revert seen.
  induction new as [|x new IH]; intros seen H; cbn [fold_left]; [exact H|].
  apply IH. destruct (Frame.mem x seen) eqn:E; [exact H|].
  apply mem_false in E. apply NoDup_app; [exact H | repeat constructor; simpl; tauto|].
  intros y Hy [<-|[]]. contradiction.
Qed.

(** Labels gathered over a list of label lists. *)
Lemma fold_union_In {A : Type} (labels : A -> list string) (xs : list A) seen c :
  In c (fold_left (fun acc x => Frame.union_labels acc (labels x)) xs seen)
  <-> In c seen \/ exists x, In x xs /\ In c (labels x).
Proof.
  revert seen. induction xs as [|x xs IH]; intros seen; cbn [fold_left].
  - split; [now left | intros [H|(x & [] & _)]; exact H].
  - rewrite IH, union_labels_In. split.
    + intros [[H|H]|(y & Hy & Hc)]; [now left | right; exists x; split; [now left | exact H] |].
      right. exists y. split; [now right | exact Hc].
    + intros [H|(y & [<-|Hy] & Hc)]; [now left; left | now left; right |].
      right. now exists y.
Qed.

Lemma fold_union_NoDup {A : Type} (labels : A -> list string) (xs : list A) seen :
  NoDup seen -> NoDup (fold_left (fun acc x => Frame.union_labels acc (labels x)) xs seen).
Proof.
  revert seen. induction xs as [|x xs IH]; intros seen H; cbn [fold_left]; [exact H|].
  apply IH. now apply union_labels_NoDup.
Qed.

(** The cell of a row built from a lookup function. *)
Lemma cell_map (f : string -> value) cols c :
  Frame.cell cols (map f cols) c = if Frame.mem c cols then f c else VNone.
Proof.
  induction cols as [|c' cols IH]; [reflexivity|].
  cbn [map Frame.cell]. unfold Frame.mem. cbn [existsb].
  destruct (String.eqb_spec c c') as [->|Hne]; [reflexivity|].
  exact IH.
Qed.

Lemma cell_map_total f cols c :
  null_outside cols f -> Frame.cell cols (map f cols) c = f c.
Proof.
  intros H. rewrite cell_map. destruct (Frame.mem c cols) eqn:E; [reflexivity|].
  symmetry. apply H. now apply mem_false.
Qed.

Lemma select_table labels cols fs :
  (forall c, In c labels -> In c cols) ->
  Forall (null_outside cols) fs ->
  Frame.select labels (table_of cols fs) = inr (table_of labels fs).
Proof.
  intros Hsub Hnull. unfold Frame.select.
  destruct (find _ labels) as [missing|] eqn:E.
  - apply find_some in E. destruct E as [I E]. cbn [columns table_of] in E.
    apply negb_true_iff, mem_false in E. exfalso. apply E. now apply Hsub.
  - unfold table_of. cbn [columns rows]. do 2 f_equal. rewrite map_map.
    apply map_ext_in. intros f Hf. apply map_ext. intros c.
    apply cell_map_total. rewrite Forall_forall in Hnull. now apply Hnull.
Qed.

Lemma select_missing labels df e :
  Frame.select labels df = inl e ->
  exists c, e = KeyError c /\ In c labels /\ ~ In c (columns df).
Proof.
  unfold Frame.select. destruct (find _ labels) as [missing|] eqn:E; [|discriminate].
  intros [= <-]. apply find_some in E. destruct E as [I E].
  apply negb_true_iff, mem_false in E. now exists missing.
Qed.

Lemma select_ok labels df df' :
  Frame.select labels df = inr df' ->
  (forall c, In c labels -> In c (columns df)) /\ columns df' = labels.
Proof.
  unfold Frame.select. destruct (find _ labels) as [missing|] eqn:E; [discriminate|].
  intros [= <-]. split; [|reflexivity].
  intros c I. pose proof (find_none _ _ E c I) as H. cbn beta in H.
  apply negb_false_iff in H. now apply mem_In.
Qed.

End FrameFacts.

Section FrameBuilders.

Lemma py_get_missing c record : ~ In c (Dict.keys record) -> py_get c record = VNone.
Proof.
  intros H. unfold py_get. apply get_None_not_key in H. now rewrite H.
Qed.

(** [pd.DataFrame(records)] is the table of the lookups of the records. *)
Lemma of_records_table records :
  Frame.of_records records
  = table_of (columns (Frame.of_records records)) (map (fun r c => py_get c r) records).
Proof. unfold Frame.of_records, table_of. cbn [columns rows]. now rewrite map_map. Qed.

Lemma of_records_columns records c :
  In c (columns (Frame.of_records records))
  <-> exists r, In r records /\ In c (Dict.keys r).
Proof.
  unfold Frame.of_records. cbn [columns].
  rewrite (fold_union_In (fun r : dict => Dict.keys r)). simpl. tauto.
Qed.

Lemma of_records_null_outside records :
  Forall (null_outside (columns (Frame.of_records records)))
         (map (fun r c => py_get c r) records).
Proof.
  apply Forall_map, Forall_forall. intros r Hr c Hc.
  apply py_get_missing. intros I. apply Hc, of_records_columns. now exists r.
Qed.

(** Rows built from lookups that are null outside of the labels of their
    frame, taken to a wider list of labels. *)
Lemma realign_rows cols cols' fs :
  Forall (null_outside cols) fs ->
  map (fun row => map (Frame.cell cols row) cols') (map (fun f => map f cols) fs)
  = map (fun f => map f cols') fs.
Proof.
  intros H. rewrite map_map. apply map_ext_in. intros f Hf. apply map_ext. intros c.
  apply cell_map_total. rewrite Forall_forall in H. now apply H.
Qed.

Lemma concat_rows cols (parts : list (list string * list (string -> value))) :
  Forall (fun p => Forall (null_outside (fst p)) (snd p)) parts ->
  flat_map (fun f => map (fun row => map (Frame.cell (columns f) row) cols) (rows f))
           (map (fun p => table_of (fst p) (snd p)) parts)
  = map (fun f => map f cols) (flat_map snd parts).
Proof.
  intros H. induction parts as [|[cs fs] parts IH]; [reflexivity|].
  inversion H as [|? ? H1 H2]; subst. cbn [map flat_map fst snd].
  rewrite map_app. f_equal; [|now apply IH].
  cbn [table_of columns rows]. now apply realign_rows.
Qed.

Lemma concat_tables (parts : list (list string * list (string -> value))) :
  Forall (fun p => Forall (null_outside (fst p)) (snd p)) parts ->
  Frame.concat (map (fun p => table_of (fst p) (snd p)) parts)
  = table_of (columns (Frame.concat (map (fun p => table_of (fst p) (snd p)) parts)))
             (flat_map snd parts).
Proof.
  intros H. unfold table_of at 2. rewrite <- (concat_rows _ _ H). reflexivity.
Qed.

Lemma concat_columns frames c :
  In c (columns (Frame.concat frames)) <-> exists f, In f frames /\ In c (columns f).
Proof.
  unfold Frame.concat. cbn [columns]. rewrite (fold_union_In columns). simpl. tauto.
Qed.

Lemma concat_columns_NoDup frames : NoDup (columns (Frame.concat frames)).
Proof. unfold Frame.concat. cbn [columns]. apply (fold_union_NoDup columns). constructor. Qed.

Lemma set_cell_map (f : string -> value) cols c v :
  NoDup cols ->
  Frame.set_cell cols (map f cols) c v
  = map (fun c' => if String.eqb c' c then v else f c') cols.
Proof.
  induction cols as [|c' cols IH]; intros Hnd; [reflexivity|].
  inversion Hnd as [|? ? Hn Hnd']; subst. cbn [map Frame.set_cell].
  destruct (String.eqb_spec c c') as [->|Hne].
  - rewrite String.eqb_refl. f_equal. apply map_ext_in. intros x Hx.
    destruct (String.eqb_spec x c') as [->|]; [contradiction | reflexivity].
  - destruct (String.eqb_spec c' c) as [->|_]; [congruence|].
    f_equal. now apply IH.
Qed.

Lemma set_cell_same (f : string -> value) cols c :
  Frame.set_cell cols (map f cols) c (f c) = map f cols.
Proof.
  induction cols as [|c' cols IH]; [reflexivity|]. cbn [map Frame.set_cell].
  destruct (String.eqb_spec c c') as [->|Hne]; [reflexivity | now f_equal].
Qed.

Lemma assign_table c v cols fs :
  NoDup cols ->
  Frame.assign c v (table_of cols fs)
  = table_of (if Frame.mem c cols then cols else cols ++ [c])
             (map (fun f c' => if String.eqb c' c then v else f c') fs).
Proof.
  intros Hnd. unfold Frame.assign. cbn [columns table_of rows].
  destruct (Frame.mem c cols) eqn:E; unfold table_of; f_equal; rewrite !map_map;
    apply map_ext; intros f.
  - now apply set_cell_map.
  - rewrite map_app. cbn [map]. rewrite String.eqb_refl. f_equal.
    apply map_ext_in. intros x Hx. apply mem_false in E.
    destruct (String.eqb_spec x c) as [->|]; [contradiction | reflexivity].
Qed.

Lemma map_column_table c g cols fs :
  (forall f, In f fs -> In c cols -> g (f c) = f c) ->
  Frame.map_column c g (table_of cols fs) = table_of cols fs.
Proof.
  intros H. unfold Frame.map_column, table_of. cbn [columns rows]. f_equal.
  rewrite map_map. apply map_ext_in. intros f Hf. rewrite cell_map.
  destruct (Frame.mem c cols) eqn:E.
  - rewrite H by (auto; now apply mem_In). apply set_cell_same.
  - apply mem_false in E. clear -E. induction cols as [|c' cols IH]; [reflexivity|].
    cbn [map Frame.set_cell]. destruct (String.eqb_spec c c') as [->|Hne].
    + exfalso. apply E. now left.
    + f_equal. apply IH. intros I. apply E. now right.
Qed.

End FrameBuilders.

(** ** [normalize]: the grouping loop *)

Section GroupingFacts.

Lemma key_eqb_str_compat s a b :
  key_eqb a b = true -> key_eqb (VStr s) a = key_eqb (VStr s) b.
Proof.
  destruct a, b; simpl; try discriminate; try reflexivity;
    intros E; apply String.eqb_eq in E; now subst.
Qed.

Lemma key_eqb_str_join s a b :
  key_eqb (VStr s) a = true -> key_eqb (VStr s) b = true -> key_eqb a b = true.
Proof.
  destruct a, b; simpl; try discriminate;
    intros E1 E2; apply String.eqb_eq in E1, E2; subst; apply String.eqb_refl.
Qed.

Lemma key_eqb_str_hashable s a : key_eqb (VStr s) a = true -> hashable a = true.
Proof. destruct a; simpl; try discriminate; reflexivity. Qed.

Lemma bucket_append_lookup tag t record g :
  bucket (VStr tag) (bucket_append t record g)
  = if key_eqb (VStr tag) t
    then Some (match bucket (VStr tag) g with
               | Some l => l ++ [record]
               | None => [record]
               end)
    else bucket (VStr tag) g.
Proof.
  induction g as [|[k rs] g IH]; cbn [bucket_append bucket].
  - reflexivity.
  - destruct (key_eqb t k) eqn:Etk; cbn [bucket].
    + rewrite (key_eqb_str_compat tag _ _ Etk).
      destruct (key_eqb (VStr tag) k); reflexivity.
    + destruct (key_eqb (VStr tag) k) eqn:Ek; [|exact IH].
      destruct (key_eqb (VStr tag) t) eqn:Et; [|reflexivity].
      rewrite (key_eqb_str_join tag t k Et Ek) in Etk. discriminate.
Qed.

Lemma group_loop_raised cleaned e : fold_left group_step cleaned (inl e) = inl e.
Proof. induction cleaned as [|r cleaned IH]; [reflexivity | exact IH]. Qed.

Lemma group_loop cleaned :
  forall g0 (members : string -> list dict),
    (forall tag, bucket (VStr tag) g0 = bucket_of (members tag)) ->
    forallb (fun r => hashable (record_type r)) cleaned = true ->
    exists g,
      fold_left group_step cleaned (inr g0) = inr g
      /\ forall tag, bucket (VStr tag) g
                     = bucket_of (members tag ++ filter (type_is tag) cleaned).
Proof.
  induction cleaned as [|r cleaned IH]; intros g0 members Hg0 Hall.
  - exists g0. split; [reflexivity|]. intros tag. cbn [filter].
    now rewrite app_nil_r.
  - cbn [forallb] in Hall. apply andb_true_iff in Hall. destruct Hall as [Hr Hall].
    cbn [fold_left]. unfold group_step at 2. cbn [bind]. rewrite Hr.
    destruct (IH (bucket_append (record_type r) r g0)
                 (fun tag => members tag ++ if type_is tag r then [r] else []))
      as (g & Hg & Hbuckets); [|exact Hall|].
    + intros tag. rewrite bucket_append_lookup, Hg0. unfold type_is.
      destruct (key_eqb (VStr tag) (record_type r)).
      * destruct (members tag); reflexivity.
      * now rewrite app_nil_r.
    + exists g. split; [exact Hg|]. intros tag. rewrite Hbuckets. cbn [filter].
      rewrite <- app_assoc. now destruct (type_is tag r).
Qed.

Lemma group_loop_unhashable cleaned g0 :
  forallb (fun r => hashable (record_type r)) cleaned = false ->
  fold_left group_step cleaned (inr g0) = inl TypeError.
Proof.
  revert g0. induction cleaned as [|r cleaned IH]; intros g0 Hall; [discriminate|].
  cbn [forallb] in Hall. cbn [fold_left]. unfold group_step at 2. cbn [bind].
  destruct (hashable (record_type r)); [now apply IH | apply group_loop_raised].
Qed.

Lemma group_by_type_members cleaned :
  forallb (fun r => hashable (record_type r)) cleaned = true ->
  exists g,
    group_by_type cleaned = inr g
    /\ forall tag, bucket (VStr tag) g = bucket_of (filter (type_is tag) cleaned).
Proof.
  intros Hall. exact (group_loop cleaned [] (fun _ => []) (fun _ => eq_refl) Hall).
Qed.

Lemma group_by_type_unhashable cleaned :
  forallb (fun r => hashable (record_type r)) cleaned = false ->
  group_by_type cleaned = inl TypeError.
Proof. apply group_loop_unhashable. Qed.

End GroupingFacts.

(** ** [normalize]: the frames of the buckets *)

Section BucketFrames.

Lemma type_frame_labels type_records c :
  (forall c', In c' core_fields -> In c' (columns (Frame.of_records type_records))) ->
  In c (frame_labels type_records) <-> In c (columns (Frame.of_records type_records)).
Proof.
  intros Hcore. unfold frame_labels. rewrite in_app_iff, filter_In. split.
  - intros [H|[H _]]; [now apply Hcore | exact H].
  - intros H. destruct (Frame.mem c core_fields) eqn:E.
    + left. now apply mem_In.
    + right. split; [exact H | reflexivity].
Qed.

Lemma type_frame_table type_records type_df :
  type_frame type_records = inr type_df ->
  type_df = table_of (frame_labels type_records) (map (fun r c => py_get c r) type_records)
  /\ (forall c, In c (frame_labels type_records)
                <-> exists r, In r type_records /\ In c (Dict.keys r))
  /\ Forall (null_outside (frame_labels type_records))
            (map (fun r c => py_get c r) type_records).
Proof.
  unfold type_frame. fold (frame_labels type_records). intros H.
  destruct (select_ok _ _ _ H) as [Hsub _].
  assert (Hcore : forall c', In c' core_fields ->
                             In c' (columns (Frame.of_records type_records))).
  { intros c' I. apply Hsub. unfold frame_labels. apply in_or_app. now left. }
  assert (Hlabels : forall c, In c (frame_labels type_records)
                              <-> exists r, In r type_records /\ In c (Dict.keys r)).
  { intros c. rewrite type_frame_labels by exact Hcore. apply of_records_columns. }
  split; [|split; [exact Hlabels|]].
  - rewrite of_records_table, select_table in H.
    + now injection H as <-.
    + exact Hsub.
    + apply of_records_null_outside.
  - apply Forall_map, Forall_forall. intros r Hr c Hc. apply py_get_missing.
    intros I. apply Hc, Hlabels. now exists r.
Qed.

Lemma frames_loop_raised g tags e : fold_left (frames_step g) tags (inl e) = inl e.
Proof. induction tags as [|t tags IH]; [reflexivity | exact IH]. Qed.

Lemma frames_loop g (members : string -> list dict) tags :
  (forall tag, bucket (VStr tag) g = bucket_of (members tag)) ->
  forall acc all_rows,
    fold_left (frames_step g) tags (inr acc) = inr all_rows ->
    all_rows = acc ++ map (fun p => table_of (fst p) (snd p)) (parts_of members tags)
    /\ Forall (fun p => Forall (null_outside (fst p)) (snd p)) (parts_of members tags)
    /\ (forall c, (exists p, In p (parts_of members tags) /\ In c (fst p))
                  -> exists r, In r (flat_map members tags) /\ In c (Dict.keys r))
    /\ (forall r c, In r (flat_map members tags) -> In c (Dict.keys r)
                    -> exists p, In p (parts_of members tags) /\ In c (fst p)).
Proof.
  intros Hg. induction tags as [|tag tags IH]; intros acc all_rows H.
  - cbn in H. injection H as <-. cbn. rewrite app_nil_r.
    repeat split; [constructor | intros c (p & [] & _) | intros r c []].
  - cbn [fold_left] in H. unfold frames_step at 2 in H. cbn [bind] in H.
    rewrite Hg in H. unfold parts_of. cbn [flat_map]. fold (parts_of members tags).
    destruct (members tag) as [|r0 rs] eqn:Em; cbn [bucket_of] in H.
    + cbn [app]. exact (IH _ _ H).
    + destruct (type_frame (r0 :: rs)) as [e|type_df] eqn:Ef; cbn [bind] in H.
      * rewrite frames_loop_raised in H. discriminate.
      * destruct (type_frame_table _ _ Ef) as (-> & Hlabels & Hnull).
        destruct (IH _ _ H) as (-> & Hparts & Hcols & Hrecs).
        split; [|split; [|split]].
        -- rewrite <- app_assoc. reflexivity.
        -- constructor; [exact Hnull | exact Hparts].
        -- intros c (p & [<-|Hp] & Hc).
           ++ apply Hlabels in Hc. destruct Hc as (r & Hr & Hc).
              exists r. split; [apply in_or_app; now left | exact Hc].
           ++ destruct (Hcols c) as (r & Hr & Hc'); [now exists p|].
              exists r. split; [apply in_or_app; now right | exact Hc'].
        -- intros r c Hr Hc. apply in_app_or in Hr. destruct Hr as [Hr|Hr].
           ++ eexists. split; [now left|]. apply Hlabels. now exists r.
           ++ destruct (Hrecs r c Hr Hc) as (p & Hp & Hc'). exists p. split; [now right | exact Hc'].
Qed.

Lemma parts_of_lookups members tags :
  flat_map snd (parts_of members tags)
  = map (fun r c => py_get c r) (flat_map members tags).
Proof.
  induction tags as [|tag tags IH]; [reflexivity|].
  unfold parts_of. cbn [flat_map]. fold (parts_of members tags).
  rewrite flat_map_app, map_app, IH. f_equal.
  destruct (members tag); [reflexivity|]. cbn [flat_map snd]. now rewrite app_nil_r.
Qed.

Lemma parts_of_nil members tags :
  parts_of members tags = [] <-> flat_map members tags = [].
Proof.
  induction tags as [|tag tags IH]; [tauto|].
  unfold parts_of. cbn [flat_map]. fold (parts_of members tags).
  destruct (members tag) as [|r rs]; [exact IH|].
  split; discriminate.
Qed.

End BucketFrames.

(** ** [normalize]: the table *)

Section NormalizeFacts.

Lemma insert_sorted_In x y xs : In y (PyStr.insert_sorted x xs) <-> y = x \/ In y xs.
Proof.
  induction xs as [|z zs IH]; simpl; [intuition|].
  destruct (String.leb x z); simpl; [intuition|]. rewrite IH. intuition.
Qed.

Lemma sorted_In x xs : In x (PyStr.sorted xs) <-> In x xs.
Proof.
  unfold PyStr.sorted. induction xs as [|y ys IH]; simpl; [tauto|].
  rewrite insert_sorted_In, IH. intuition.
Qed.

Lemma final_cell_override n r :
  (fun c' => if String.eqb c' "total_items" then VInt (Z.of_nat n) else py_get c' r)
  = final_cell n r.
Proof. reflexivity. Qed.

(** What [normalize] returns, in terms of the records it was given: no
    type value was unhashable; the table is empty when no record has a
    known type; otherwise its rows are the records with a known type,
    grouped in the order of the tags, its labels are the core labels and
    then, sorted, every other field of these records, and each cell is the
    value of the record, [total_items] being the number of rows. *)
Lemma normalize_records_table data df :
  normalize_records data = inr df ->
  let cleaned := map (Dict.without artifact_fields) data in
  let recs := rows_in_order cleaned in
  forallb (fun r => hashable (record_type r)) cleaned = true
  /\ ((recs = [] /\ df = Frame.empty)
      \/ (recs <> []
          /\ (exists others,
                 columns df = core_order ++ PyStr.sorted others
                 /\ forall c, In c others
                              <-> ~ In c core_order
                                  /\ exists r, In r recs /\ In c (Dict.keys r))
          /\ df = table_of (columns df) (map (final_cell (List.length recs)) recs))).
Proof.
  intros H cleaned recs. unfold normalize_records, normalize_cleaned in H. fold cleaned in H.
  destruct (forallb (fun r => hashable (record_type r)) cleaned) eqn:Hhash;
    [|rewrite group_by_type_unhashable in H by exact Hhash; discriminate].
  split; [reflexivity|].
  destruct (group_by_type_members cleaned Hhash) as (g & Hg & Hbuckets).
  rewrite Hg in H. cbn [bind] in H.
  destruct (build_frames g) as [e|all_rows] eqn:Hframes; [discriminate|].
  cbn [bind] in H. unfold build_frames in Hframes.
  destruct (frames_loop g (fun tag => filter (type_is tag) cleaned) known_types
              Hbuckets [] all_rows Hframes) as (-> & Hnull & Hcols & Hrecs).
  fold (rows_in_order cleaned) in Hcols, Hrecs. fold recs in Hcols, Hrecs.
  set (parts := parts_of (fun tag => filter (type_is tag) cleaned) known_types) in *.
  assert (Hlook : flat_map snd parts = map (fun r c => py_get c r) recs)
    by apply parts_of_lookups.
  assert (Hnil : parts = [] <-> recs = []) by apply parts_of_nil.
  cbn [app] in H.
  destruct parts as [|p ps] eqn:Eparts.
  { left. cbn in H. injection H as <-. split; [now apply Hnil | reflexivity]. }
  right.
  assert (Hne : recs <> []) by (intros E; apply Hnil in E; discriminate).
  split; [exact Hne|].
  rewrite <- Eparts in *. clear Eparts p ps.
  set (frames := map (fun p => table_of (fst p) (snd p)) parts) in *.
  assert (Hconcat : Frame.concat frames
                    = table_of (columns (Frame.concat frames))
                               (map (fun r c => py_get c r) recs)).
  { unfold frames. rewrite concat_tables at 1 by exact Hnull. now rewrite Hlook. }
  set (cols0 := columns (Frame.concat frames)) in *.
  assert (Hcols0 : forall c, In c cols0 <-> exists p, In p parts /\ In c (fst p)).
  { intros c. unfold cols0. rewrite concat_columns. unfold frames. split.
    - intros (f & Hf & Hc). apply in_map_iff in Hf. destruct Hf as (p & <- & Hp).
      now exists p.
    - intros (p & Hp & Hc). exists (table_of (fst p) (snd p)). split; [|exact Hc].
      apply in_map_iff. now exists p. }
  assert (Hmatch : match frames with [] => Frame.empty | _ :: _ => Frame.concat frames end
                   = Frame.concat frames).
  { destruct frames eqn:E; [|reflexivity]. unfold frames in E.
    apply map_eq_nil in E. apply Hnil in E. contradiction. }
  rewrite Hmatch, Hconcat in H. clear Hmatch.
  assert (Hlen : Frame.len (table_of cols0 (map (fun r c => py_get c r) recs))
                 = List.length recs).
  { unfold Frame.len, table_of. cbn [rows]. now rewrite !length_map. }
  rewrite Hlen in H.
  destruct (List.length recs =? 0)%nat eqn:E0.
  { apply Nat.eqb_eq, length_zero_iff_nil in E0. contradiction. }
  rewrite assign_table in H by apply concat_columns_NoDup.
  rewrite map_map in H.
  set (cols1 := if Frame.mem "total_items" cols0 then cols0 else cols0 ++ ["total_items"]) in *.
  assert (Hcols1 : forall c, In c cols1 <-> c = "total_items" \/ In c cols0).
  { intros c. unfold cols1. destruct (Frame.mem "total_items" cols0) eqn:E.
    - apply mem_In in E. split; [now right | intros [->|I]; auto].
    - rewrite in_app_iff. simpl. intuition. }
  set (fs := map _ recs) in H.
  assert (Hfs : fs = map (final_cell (List.length recs)) recs) by reflexivity.
  clearbody fs.
  change (columns (table_of cols1 fs)) with cols1 in H.
  set (others := filter (fun col => negb (Frame.mem col core_order)) cols1) in *.
  destruct (Frame.select (core_order ++ PyStr.sorted others) (table_of cols1 fs))
    as [e|df1] eqn:Hsel; cbn [bind] in H; [discriminate|].
  destruct (select_ok _ _ _ Hsel) as [Hsub _]. cbn [columns table_of] in Hsub.
  assert (Hnull1 : Forall (null_outside cols1) fs).
  { subst fs. apply Forall_map, Forall_forall. intros r Hr c Hc. unfold final_cell.
    destruct (String.eqb_spec c "total_items") as [->|Hne'].
    - exfalso. apply Hc, Hcols1. now left.
    - apply py_get_missing. intros I. apply Hc, Hcols1. right. apply Hcols0.
      exact (Hrecs r c Hr I). }
  rewrite (select_table _ _ _ Hsub Hnull1) in Hsel. injection Hsel as <-.
  assert (Hdf : df = table_of (core_order ++ PyStr.sorted others) fs).
  { rewrite map_column_table in H.
    - destruct (Frame.mem "total_items" _) in H; now injection H as <-.
    - intros f Hf _. subst fs.
      apply in_map_iff in Hf. destruct Hf as (r & <- & _). reflexivity. }
  subst df. cbn [columns table_of]. split; [|now rewrite Hfs].
  exists others. split; [reflexivity|]. intros c. unfold others.
  rewrite filter_In, negb_true_iff, mem_false, Hcols1, Hcols0. split.
  - intros [[->|Hp] Hcore]; [exfalso; apply Hcore; cbn; tauto|].
    split; [exact Hcore | now apply Hcols].
  - intros [Hcore (r & Hr & Hc)]. split; [|exact Hcore]. right. exact (Hrecs r c Hr Hc).
Qed.

End NormalizeFacts.

Section NormalizedTable.

Lemma get_without (k : string) excluded (d : dict) :
  Dict.get k (Dict.without excluded d)
  = if existsb (String.eqb k) excluded then None else Dict.get k d.
Proof.
  unfold Dict.without. induction d as [|[k' v] d IH]; cbn [filter fst Dict.get].
  - now destruct (existsb _ excluded).
  - destruct (String.eqb_spec k k') as [->|Hne].
    + destruct (existsb (String.eqb k') excluded) eqn:E; cbn [negb].
      * exact IH.
      * cbn [Dict.get]. now rewrite String.eqb_refl.
    + destruct (existsb (String.eqb k') excluded); cbn [negb]; [exact IH|].
      cbn [Dict.get]. destruct (String.eqb_spec k k'); [contradiction | exact IH].
Qed.

Lemma without_keys c excluded (d : dict) :
  In c (Dict.keys (Dict.without excluded d)) -> In c (Dict.keys d) /\ ~ In c excluded.
Proof.
  unfold Dict.keys, Dict.without. rewrite !in_map_iff.
  intros ([k v] & <- & H). apply filter_In in H. destruct H as [I E]. cbn [fst] in *.
  split; [exists (k, v); now split|].
  intros Hex. apply negb_true_iff in E.
  assert (existsb (String.eqb k) excluded = true); [|congruence].
  apply existsb_exists. exists k. split; [exact Hex | apply String.eqb_refl].
Qed.

Lemma record_type_without (r : dict) :
  record_type (Dict.without artifact_fields r) = record_type r.
Proof. unfold record_type. now rewrite get_without. Qed.

Lemma type_is_without tag (r : dict) :
  type_is tag (Dict.without artifact_fields r) = type_is tag r.
Proof. unfold type_is. now rewrite record_type_without. Qed.

Lemma py_get_without c (r : dict) :
  ~ In c artifact_fields -> py_get c (Dict.without artifact_fields r) = py_get c r.
Proof.
  intros H. unfold py_get. rewrite get_without.
  destruct (existsb (String.eqb c) artifact_fields) eqn:E; [|reflexivity].
  apply existsb_exists in E. destruct E as (x & I & E). apply String.eqb_eq in E.
  subst. contradiction.
Qed.

Lemma filter_map_commute {A B : Type} (f : A -> B) (p : B -> bool) l :
  filter p (map f l) = map f (filter (fun x => p (f x)) l).
Proof.
  induction l as [|x l IH]; [reflexivity|]. cbn [map filter].
  destruct (p (f x)); cbn [map]; now rewrite IH.
Qed.

Lemma rows_in_order_cleaned data :
  rows_in_order (map (Dict.without artifact_fields) data)
  = map (Dict.without artifact_fields) (rows_in_order data).
Proof.
  unfold rows_in_order. induction known_types as [|tag tags IH]; [reflexivity|].
  cbn [flat_map]. rewrite map_app, IH. f_equal.
  rewrite filter_map_commute. f_equal. apply filter_ext. intros r.
  apply type_is_without.
Qed.

Lemma rows_in_order_In r data : In r (rows_in_order data) -> In r data.
Proof.
  unfold rows_in_order. rewrite in_flat_map. intros (tag & _ & H).
  now apply filter_In in H.
Qed.

Lemma rows_in_order_groups data :
  rows_in_order data
  = filter (type_is "html") data ++ filter (type_is "json") data
    ++ filter (type_is "text") data ++ filter (type_is "media") data.
Proof. unfold rows_in_order. cbn [known_types flat_map]. now rewrite app_nil_r. Qed.

Lemma column_table c cols fs :
  In c cols -> Frame.column c (table_of cols fs) = map (fun f => f c) fs.
Proof.
  intros I. unfold Frame.column, table_of. cbn [columns rows]. rewrite map_map.
  apply map_ext. intros f. rewrite cell_map.
  apply mem_In in I. now rewrite I.
Qed.

Lemma map_constant {A B : Type} (b : B) (l : list A) :
  map (fun _ => b) l = repeat b (List.length l).
Proof. induction l as [|x l IH]; [reflexivity|]. cbn. now rewrite IH. Qed.

Lemma table_len cols fs : Frame.len (table_of cols fs) = List.length fs.
Proof. unfold Frame.len, table_of. cbn [rows]. apply length_map. Qed.

(** C5: the table returned by [normalize] has no column named
    [word_count] and none named [title], whatever the records are, also
    when the records are those [infer_schema] has filled; the schema that
    [infer_schema] computes from the same records lists these names
    whenever a record contained them. *)
Theorem normalize_omits_artifacts (env : environment) (self : ETLPipeline) (key : string) :
  In key artifact_fields ->
  (forall df, normalize self = inr df -> ~ In key (columns df))
  /\ (forall df, normalize (infer_schema env self) = inr df -> ~ In key (columns df))
  /\ ((exists item, In item (extracted_data self) /\ has_field key item) ->
      In key (Dict.keys (schema (infer_schema env self)))).
Proof.
  intros Hkey.
  assert (Hcols : forall data df, normalize_records data = inr df -> ~ In key (columns df)).
  { intros data df H I. apply normalize_records_table in H. cbv zeta in H.
    destruct H as [_ [[_ ->]|(_ & (others & Hc & Hothers) & _)]]; [exact I|].
    rewrite Hc, in_app_iff, sorted_In, Hothers in I.
    destruct I as [I|[_ (r & Hr & Hin)]].
    - cbn in I, Hkey. intuition (subst; discriminate).
    - apply rows_in_order_In, in_map_iff in Hr. destruct Hr as (r0 & <- & _).
      apply without_keys in Hin. now destruct Hin. }
  split; [intros df; apply Hcols|]. split; [intros df; apply Hcols|].
  intros Hseen. apply count_with_field_pos in Hseen.
  apply contains_key. unfold Dict.contains.
  now rewrite (infer_schema_descriptor env self key Hseen).
Qed.

Lemma normalize_omits_artifacts_witness :
  let self :=
    {| extracted_data :=
         [ [("type", VStr "text"); ("title", VStr "Hello"); ("word_count", VInt 1);
            ("source_index", VStr "text_0")] ];
       schema := [] |} in
  (exists df, normalize (infer_schema sample_env self) = inr df
              /\ ~ In "title" (columns df))
  /\ In "title" (Dict.keys (schema (infer_schema sample_env self))).
Proof.
  cbv zeta.
  pose proof (normalize_omits_artifacts sample_env
    {| extracted_data :=
         [ [("type", VStr "text"); ("title", VStr "Hello"); ("word_count", VInt 1);
            ("source_index", VStr "text_0")] ];
       schema := [] |} "title") as H.
  destruct H as (_ & Htable & Hschema); [right; now left|].
  split.
  - eexists. split; [vm_compute; reflexivity|]. apply Htable. vm_compute. reflexivity.
  - apply Hschema. eexists. split; [now left|]. right. now left.
Defined.

(** C6: in every non-empty table produced by [normalize], the column
    [total_items] holds the same integer in every row, the number of rows
    of the table. *)
Theorem total_items_is_row_count (self : ETLPipeline) (df : DataFrame) :
  normalize self = inr df ->
  Frame.len df <> 0 ->
  In "total_items" (columns df)
  /\ Frame.column "total_items" df
     = repeat (VInt (Z.of_nat (Frame.len df))) (Frame.len df).
Proof.
  intros H Hlen. apply normalize_records_table in H. cbv zeta in H.
  destruct H as [_ [[_ ->]|(_ & (others & Hc & _) & Hdf)]]; [now elim Hlen|].
  assert (I : In "total_items" (columns df)) by (rewrite Hc; cbn; tauto).
  split; [exact I|]. rewrite Hdf at 1 2 3.
  rewrite column_table by exact I. rewrite table_len, !length_map, map_map.
  unfold final_cell. cbn [String.eqb Ascii.eqb Bool.eqb]. apply map_constant.
Qed.

Lemma total_items_is_row_count_witness :
  exists df,
    normalize {| extracted_data :=
                   [ [("type", VStr "json"); ("source_index", VStr "json_0");
                      ("total_items", VStr "many")];
                     [("type", VStr "text"); ("source_index", VStr "text_0")] ];
                 schema := [] |} = inr df
    /\ Frame.column "total_items" df = [VInt 2; VInt 2].
Proof.
  eexists. split; [vm_compute; reflexivity|].
  refine (proj2 (total_items_is_row_count
                   {| extracted_data :=
                        [ [("type", VStr "json"); ("source_index", VStr "json_0");
                           ("total_items", VStr "many")];
                          [("type", VStr "text"); ("source_index", VStr "text_0")] ];
                      schema := [] |} _ _ _)).
  - vm_compute. reflexivity.
  - vm_compute. discriminate.
Defined.

End NormalizedTable.

Section UnknownTypes.

Lemma fold_left_ext_in {A B : Type} (f g : A -> B -> A) (l : list B) (a : A) :
  (forall a x, In x l -> f a x = g a x) -> fold_left f l a = fold_left g l a.
Proof.
  revert a. induction l as [|x l IH]; intros a H; [reflexivity|].
  cbn [fold_left]. rewrite (H a x) by now left.
  apply IH. intros a' y I. apply H. now right.
Qed.

Lemma build_frames_ext g g' :
  (forall tag, In tag known_types -> bucket (VStr tag) g = bucket (VStr tag) g') ->
  build_frames g = build_frames g'.
Proof.
  intros H. unfold build_frames. apply fold_left_ext_in. intros acc tag I.
  unfold frames_step. now rewrite (H tag I).
Qed.

Lemma type_is_known tag r : In tag known_types -> type_is tag r = true -> known_type r = true.
Proof.
  intros I E. unfold known_type. apply existsb_exists. now exists tag.
Qed.

Lemma known_type_hashable r : known_type r = true -> hashable (record_type r) = true.
Proof.
  unfold known_type. rewrite existsb_exists. intros (tag & _ & E).
  exact (key_eqb_str_hashable _ _ E).
Qed.

Lemma filter_filter_implied {A : Type} (p q : A -> bool) l :
  (forall x, p x = true -> q x = true) -> filter p (filter q l) = filter p l.
Proof.
  intros H. induction l as [|x l IH]; [reflexivity|]. cbn [filter].
  destruct (q x) eqn:Eq; cbn [filter]; rewrite IH; [reflexivity|].
  destruct (p x) eqn:Ep; [|reflexivity]. rewrite (H x Ep) in Eq. discriminate.
Qed.

Lemma known_type_without r :
  known_type (Dict.without artifact_fields r) = known_type r.
Proof.
  unfold known_type. induction known_types as [|t ts IH]; [reflexivity|].
  cbn [existsb]. now rewrite type_is_without, IH.
Qed.

Lemma rows_in_order_known data : rows_in_order (filter known_type data) = rows_in_order data.
Proof.
  unfold rows_in_order.
  assert (H : forall tags, (forall t, In t tags -> In t known_types) ->
                flat_map (fun tag => filter (type_is tag) (filter known_type data)) tags
                = flat_map (fun tag => filter (type_is tag) data) tags).
  { induction tags as [|t ts IH]; intros Hsub; [reflexivity|]. cbn [flat_map].
    rewrite IH by (intros t' I; apply Hsub; now right). f_equal.
    apply filter_filter_implied. intros r. apply type_is_known, Hsub. now left. }
  apply H. auto.
Qed.

(** Records whose type is none of the four tags do not matter to
    [normalize], as long as no type value is unhashable. *)
Lemma normalize_records_known data :
  forallb (fun r => hashable (record_type r)) data = true ->
  normalize_records data = normalize_records (filter known_type data).
Proof.
  intros Hhash.
  set (cleaned := map (Dict.without artifact_fields) data).
  set (cleaned' := map (Dict.without artifact_fields) (filter known_type data)).
  assert (Hc : forallb (fun r => hashable (record_type r)) cleaned = true).
  { unfold cleaned. rewrite forallb_forall in *. intros r Hr.
    apply in_map_iff in Hr. destruct Hr as (r0 & <- & Hr0).
    rewrite record_type_without. now apply Hhash. }
  assert (Hc' : forallb (fun r => hashable (record_type r)) cleaned' = true).
  { unfold cleaned'. rewrite forallb_forall. intros r Hr.
    apply in_map_iff in Hr. destruct Hr as (r0 & <- & Hr0). apply filter_In in Hr0.
    rewrite record_type_without. apply known_type_hashable. tauto. }
  destruct (group_by_type_members cleaned Hc) as (g & Hg & Hb).
  destruct (group_by_type_members cleaned' Hc') as (g' & Hg' & Hb').
  unfold normalize_records, normalize_cleaned. fold cleaned cleaned'. rewrite Hg, Hg'. cbn [bind].
  rewrite (build_frames_ext g g'); [reflexivity|].
  intros tag I. rewrite Hb, Hb'. f_equal. unfold cleaned', cleaned.
  rewrite !filter_map_commute. f_equal.
  rewrite !(filter_ext _ (type_is tag) (type_is_without tag)).
  apply eq_sym, filter_filter_implied. intros r. now apply type_is_known.
Qed.

(** The core columns of the table, read off the records. *)
Lemma normalize_records_core_column data df c :
  normalize_records data = inr df ->
  In c core_fields ->
  Frame.column c df = map (py_get c) (rows_in_order data).
Proof.
  intros H Hc. apply normalize_records_table in H. cbv zeta in H.
  rewrite rows_in_order_cleaned in H.
  destruct H as [_ [[E ->]|(_ & (others & Hcols & _) & Hdf)]].
  - apply map_eq_nil in E. now rewrite E.
  - rewrite Hdf. rewrite column_table.
    + rewrite !map_map. apply map_ext. intros r. unfold final_cell.
      assert (Hne : c <> "total_items") by (cbn in Hc; intuition (subst; discriminate)).
      apply String.eqb_neq in Hne. rewrite Hne. apply py_get_without.
      cbn in *. intuition (subst; discriminate).
    + rewrite Hcols. apply in_or_app. left. cbn in *. tauto.
Qed.

Lemma normalize_records_len data df :
  normalize_records data = inr df -> Frame.len df = List.length (rows_in_order data).
Proof.
  intros H. apply normalize_records_table in H. cbv zeta in H.
  rewrite rows_in_order_cleaned in H.
  destruct H as [_ [[E ->]|(_ & _ & Hdf)]].
  - apply map_eq_nil in E. now rewrite E.
  - rewrite Hdf, table_len. now rewrite !length_map.
Qed.

(** C8, as stated, fails: a record whose type value is a list is not
    dropped, it makes [normalize] raise.  The membership test of the
    grouping loop hashes the type value, and a list cannot be hashed; with
    the record left out the table has one row. *)
Lemma normalize_unhashable_type_raises :
  let odd := [("type", VList [VInt 1]); ("source_index", VStr "x_0")] in
  let text := [("type", VStr "text"); ("source_index", VStr "text_0")] in
  known_type odd = false
  /\ normalize {| extracted_data := [text; odd]; schema := [] |} = inl TypeError
  /\ normalize {| extracted_data := [text]; schema := [] |}
     = inr {| columns := ["type"; "source_index"; "total_items"];
              rows := [[VStr "text"; VStr "text_0"; VInt 1]] |}.
Proof. cbv zeta. repeat split; vm_compute; reflexivity. Qed.

(** C8, amended: for every record list whose type values are hashable
    (none is a list or a dict), the records whose type is none of [html],
    [json], [text], [media] contribute nothing: [normalize] returns what it
    returns without them; and the rows of the table are the records with a
    known type, grouped in the order [html], [json], [text], [media], each
    group in the order of the list. *)
Theorem normalize_drops_unknown_types (self : ETLPipeline) :
  forallb (fun r => hashable (record_type r)) (extracted_data self) = true ->
  normalize self
  = normalize {| extracted_data := filter known_type (extracted_data self);
                 schema := schema self |}
  /\ forall df,
       normalize self = inr df ->
       let data := extracted_data self in
       let ordered := filter (type_is "html") data ++ filter (type_is "json") data
                      ++ filter (type_is "text") data ++ filter (type_is "media") data in
       Frame.len df = List.length ordered
       /\ Frame.column "type" df = map (py_get "type") ordered
       /\ Frame.column "source_index" df = map (py_get "source_index") ordered.
Proof.
  intros Hhash. split; [now apply normalize_records_known|].
  intros df H data ordered.
  assert (E : ordered = rows_in_order data) by (symmetry; apply rows_in_order_groups).
  rewrite E. split; [now apply normalize_records_len|].
  split; apply normalize_records_core_column; cbn; auto.
Qed.

Lemma normalize_drops_unknown_types_witness :
  let json := [("type", VStr "json"); ("source_index", VStr "json_0"); ("a", VInt 1)] in
  let pdf := [("type", VStr "pdf"); ("source_index", VStr "pdf_0")] in
  let html := [("type", VStr "html"); ("source_index", VStr "html_0")] in
  let untyped := [("source_index", VStr "none_0")] in
  normalize {| extracted_data := [json; pdf; html; untyped]; schema := [] |}
  = normalize {| extracted_data := [json; html]; schema := [] |}
  /\ exists df,
       normalize {| extracted_data := [json; pdf; html; untyped]; schema := [] |} = inr df
       /\ Frame.column "source_index" df = [VStr "html_0"; VStr "json_0"].
Proof.
  cbv zeta.
  destruct (normalize_drops_unknown_types
              {| extracted_data :=
                   [ [("type", VStr "json"); ("source_index", VStr "json_0"); ("a", VInt 1)];
                     [("type", VStr "pdf"); ("source_index", VStr "pdf_0")];
                     [("type", VStr "html"); ("source_index", VStr "html_0")];
                     [("source_index", VStr "none_0")] ];
                 schema := [] |}) as [Hsame Hrows]; [reflexivity|].
  split; [exact Hsame|].
  eexists. split; [vm_compute; reflexivity|].
  refine (proj2 (proj2 (Hrows _ _))). vm_compute. reflexivity.
Defined.

End UnknownTypes.

(** ** [normalize] returns a table *)

Section NormalizeReturns.

Lemma type_is_has_type tag r :
  In tag known_types -> type_is tag r = true -> In "type" (Dict.keys r).
Proof.
  intros Htag H. unfold type_is, record_type in H.
  destruct (Dict.get "type" r) as [v|] eqn:E.
  - apply get_In in E. change "type" with (fst ("type", v)). now apply in_map.
  - exfalso. cbn in Htag. destruct Htag as [<-|[<-|[<-|[<-|[]]]]]; discriminate H.
Qed.

(** The frame of a bucket is built when some member has the core fields. *)
Lemma type_frame_returns type_records :
  (forall c, In c core_fields -> exists r, In r type_records /\ In c (Dict.keys r)) ->
  exists type_df, type_frame type_records = inr type_df.
Proof.
  intros Hcore. unfold type_frame.
  destruct (Frame.select _ _) as [e|type_df] eqn:E; [|now exists type_df].
  apply select_missing in E. destruct E as (c & _ & Hc & Hmissing).
  exfalso. apply Hmissing. apply in_app_or in Hc. destruct Hc as [Hc|Hc].
  - apply of_records_columns. now apply Hcore.
  - now apply filter_In in Hc.
Qed.

Lemma frames_loop_returns g (members : string -> list dict) tags :
  (forall tag, bucket (VStr tag) g = bucket_of (members tag)) ->
  (forall tag, In tag tags -> members tag <> [] ->
               exists type_df, type_frame (members tag) = inr type_df) ->
  forall acc, exists all_rows, fold_left (frames_step g) tags (inr acc) = inr all_rows.
Proof.
  intros Hg. induction tags as [|tag tags IH]; intros Hok acc; [now exists acc|].
  cbn [fold_left]. unfold frames_step at 2. cbn [bind]. rewrite Hg.
  assert (Hrest : forall t, In t tags -> members t <> [] ->
                            exists type_df, type_frame (members t) = inr type_df)
    by (intros t I; apply Hok; now right).
  destruct (members tag) as [|r0 rs] eqn:Em; cbn [bucket_of]; [now apply IH|].
  destruct (Hok tag) as (type_df & Hdf); [now left | rewrite Em; discriminate|].
  rewrite Em in Hdf. rewrite Hdf. cbn [bind]. now apply IH.
Qed.

Lemma assign_columns c v df c' :
  In c' (columns (Frame.assign c v df)) <-> c' = c \/ In c' (columns df).
Proof.
  unfold Frame.assign. destruct (Frame.mem c (columns df)) eqn:E; cbn [columns].
  - apply mem_In in E. split; [now right | intros [->|H]; assumption].
  - rewrite in_app_iff. cbn. intuition.
Qed.

(** [normalize] returns a table whenever no type value is unhashable and
    every record with a known type has a [source_index], as the records
    of [extract] do. *)
Lemma normalize_records_returns data :
  forallb (fun r => hashable (record_type r)) data = true ->
  (forall r, In r data -> known_type r = true -> In "source_index" (Dict.keys r)) ->
  exists df, normalize_records data = inr df.
Proof.
  intros Hhash Hindex. unfold normalize_records, normalize_cleaned.
  set (cleaned := map (Dict.without artifact_fields) data).
  assert (Hc : forallb (fun r => hashable (record_type r)) cleaned = true).
  { unfold cleaned. rewrite forallb_forall in *. intros r Hr.
    apply in_map_iff in Hr. destruct Hr as (r0 & <- & Hr0).
    rewrite record_type_without. now apply Hhash. }
  destruct (group_by_type_members cleaned Hc) as (g & Hg & Hb).
  rewrite Hg. cbn [bind].
  assert (Hcore : forall tag, In tag known_types ->
            forall r, In r (filter (type_is tag) cleaned) ->
                      forall c, In c core_fields -> In c (Dict.keys r)).
  { intros tag Htag r Hr c Hcin. apply filter_In in Hr. destruct Hr as [Hr Ht].
    cbn in Hcin. destruct Hcin as [<-|[<-|[]]].
    - exact (type_is_has_type tag r Htag Ht).
    - unfold cleaned in Hr. apply in_map_iff in Hr. destruct Hr as (r0 & <- & Hr0).
      rewrite type_is_without in Ht.
      apply contains_key. unfold Dict.contains. rewrite get_without. cbn [existsb].
      cbn [String.eqb Ascii.eqb Bool.eqb orb].
      apply contains_key. apply Hindex; [exact Hr0 | exact (type_is_known tag r0 Htag Ht)]. }
  destruct (frames_loop_returns g (fun tag => filter (type_is tag) cleaned) known_types Hb)
    with (acc := @nil DataFrame) as (all_rows & Hframes).
  { intros tag Htag Hne. apply type_frame_returns. intros c Hcin.
    destruct (filter (type_is tag) cleaned) as [|r0 rs] eqn:Em; [contradiction|].
    exists r0. split; [now left|]. apply (Hcore tag Htag); [rewrite Em; now left | exact Hcin]. }
  fold (build_frames g) in Hframes. rewrite Hframes. cbn [bind].
  destruct (frames_loop g _ known_types Hb [] all_rows Hframes) as (Hrows & _ & _ & Hrecs).
  cbn [app] in Hrows.
  set (df0 := match all_rows with [] => Frame.empty | _ :: _ => Frame.concat all_rows end).
  destruct (Frame.len df0 =? 0)%nat eqn:Elen; [now exists df0|].
  set (df1 := Frame.assign "total_items" (VInt (Z.of_nat (Frame.len df0))) df0).
  destruct (Frame.select _ df1) as [e|df2] eqn:Esel; cbn [bind]; [|eexists; reflexivity].
  exfalso. apply select_missing in Esel. destruct Esel as (c & _ & Hc' & Hmissing).
  apply Hmissing. apply in_app_or in Hc'. destruct Hc' as [Hc'|Hc'].
  - unfold df1. apply assign_columns.
    cbn in Hc'. destruct Hc' as [<-|[<-|[<-|[]]]]; [right | right | now left].
    all: unfold df0; destruct all_rows as [|f fs] eqn:Ea;
      [cbn in Elen; discriminate|]; rewrite <- Ea in *;
      apply concat_columns; exists f; (split; [rewrite Ea; now left|]);
      destruct (parts_of _ known_types) as [|p ps] eqn:Ep; [rewrite Hrows in Ea; discriminate|];
      assert (Hp : In p (parts_of (fun tag => filter (type_is tag) cleaned) known_types))
        by (rewrite Ep; now left);
      rewrite Hrows in Ea; cbn [map] in Ea; injection Ea as <- _; cbn [table_of columns];
      unfold parts_of in Hp; apply in_flat_map in Hp; destruct Hp as (tag & _ & Hp);
      destruct (filter (type_is tag) cleaned); [destruct Hp|];
      destruct Hp as [<-|[]]; cbn [fst]; unfold frame_labels; apply in_or_app; left;
      cbn; tauto.
  - apply sorted_In, filter_In in Hc'. now destruct Hc'.
Qed.

End NormalizeReturns.

(** ** The fill of [infer_schema], then the strip of [normalize] *)

Section FillThenStrip.

Lemma get_app {V : Type} k (d1 d2 : list (string * V)) :
  Dict.get k (d1 ++ d2) = match Dict.get k d1 with Some v => Some v | None => Dict.get k d2 end.
Proof.
  induction d1 as [|[k' v'] d1 IH]; [reflexivity|]. cbn [app Dict.get].
  destruct (String.eqb k k'); [reflexivity | exact IH].
Qed.

Lemma contains_snoc k k' (v : value) (item : dict) :
  Dict.contains k (item ++ [(k', v)]) = Dict.contains k item || String.eqb k k'.
Proof.
  unfold Dict.contains. rewrite get_app. destruct (Dict.get k item); [reflexivity|].
  cbn [Dict.get]. now destruct (String.eqb k k').
Qed.

(** The fill adds the missing keys of the loop, in the order of the loop. *)
Lemma fill_missing_appends keys (item : dict) :
  NoDup keys ->
  fill_missing keys item
  = item ++ map (fun k => (k, VNone)) (filter (fun k => negb (Dict.contains k item)) keys).
Proof.
  unfold fill_missing. revert item.
  induction keys as [|k ks IH]; intros item Hnd; cbn [fold_left filter map].
  - now rewrite app_nil_r.
  - inversion Hnd as [|? ? Hk Hnd']; subst.
    destruct (Dict.contains k item) eqn:E; cbn [negb]; [now apply IH|].
    rewrite setitem_new by now apply contains_false_key.
    rewrite IH by exact Hnd'. rewrite <- app_assoc. cbn [app map]. do 3 f_equal.
    apply filter_ext_in. intros k' I. rewrite contains_snoc.
    destruct (String.eqb_spec k' k) as [->|_]; [contradiction|].
    now rewrite orb_false_r.
Qed.

Lemma without_app excluded (d1 d2 : dict) :
  Dict.without excluded (d1 ++ d2) = Dict.without excluded d1 ++ Dict.without excluded d2.
Proof. apply filter_app. Qed.

Lemma without_nulls excluded keys :
  Dict.without excluded (map (fun k => (k, VNone)) keys)
  = map (fun k => (k, VNone))
        (filter (fun k => negb (existsb (String.eqb k) excluded)) keys).
Proof.
  unfold Dict.without. induction keys as [|k ks IH]; [reflexivity|].
  cbn [map filter fst]. destruct (existsb (String.eqb k) excluded); cbn [negb map];
    now rewrite IH.
Qed.

Lemma filter_filter {A : Type} (p q : A -> bool) l :
  filter p (filter q l) = filter (fun x => q x && p x) l.
Proof.
  induction l as [|x l IH]; [reflexivity|]. cbn [filter].
  destruct (q x); cbn [filter andb]; [destruct (p x)|]; now rewrite IH.
Qed.

(** The record [normalize] strips after [infer_schema] has filled it: the
    stripped record, then a null for each key of the loop that the record
    lacks and that is not stripped. *)
Lemma strip_filled excluded keys (item : dict) :
  NoDup keys ->
  Dict.without excluded (fill_missing keys item)
  = Dict.without excluded item
    ++ map (fun k => (k, VNone))
           (filter (fun k => negb (Dict.contains k item)
                             && negb (existsb (String.eqb k) excluded)) keys).
Proof.
  intros Hnd. rewrite fill_missing_appends by exact Hnd.
  now rewrite without_app, without_nulls, filter_filter.
Qed.

Lemma list_is_nil {A : Type} (l : list A) : (forall x, ~ In x l) -> l = [].
Proof. destruct l as [|x l]; [reflexivity|]. intros H. elim (H x). now left. Qed.

Lemma list_is_singleton {A : Type} (a : A) (l : list A) :
  NoDup l -> (forall x, In x l <-> x = a) -> l = [a].
Proof.
  intros Hnd H. destruct l as [|x l].
  - exfalso. now apply (proj2 (H a)).
  - assert (x = a) by (apply H; now left). subst x. f_equal.
    apply list_is_nil. intros y Hy.
    assert (y = a) by (apply H; now right). subst y.
    inversion Hnd. contradiction.
Qed.

End FillThenStrip.

(** ** End to end *)

Section EndToEnd.
Variable env : environment.

(** The keys of the fill loop: each key of some record, once. *)
Lemma all_keys_facts (data : list dict) :
  let all_keys := PySet.to_list (set_rank env AllKeys) (flat_map Dict.keys data) in
  NoDup all_keys /\ forall k, In k all_keys <-> In k (flat_map Dict.keys data).
Proof. split; [apply to_list_NoDup | intros k; apply to_list_In]. Qed.

Lemma example_extracted :
  extracted_data (extract env example_document new_pipeline)
  = [ [("a", VInt 1); ("type", VStr "json"); ("source_index", VStr "json_0")];
      [("a", VInt 2); ("type", VStr "json"); ("source_index", VStr "json_1")];
      [("type", VStr "text"); ("title", VStr "Hello world this is text");
       ("word_count", VInt 5); ("source_index", VStr "text_0")] ].
Proof. vm_compute. reflexivity. Qed.

Lemma example_stripped :
  map (Dict.without artifact_fields)
      (extracted_data (infer_schema env (extract env example_document new_pipeline)))
  = [ [("a", VInt 1); ("type", VStr "json"); ("source_index", VStr "json_0")];
      [("a", VInt 2); ("type", VStr "json"); ("source_index", VStr "json_1")];
      [("type", VStr "text"); ("source_index", VStr "text_0"); ("a", VNone)] ].
Proof.
  unfold infer_schema. cbn [extracted_data]. rewrite example_extracted.
  match goal with |- context [PySet.to_list ?r ?l] =>
    destruct (all_keys_facts
                [ [("a", VInt 1); ("type", VStr "json"); ("source_index", VStr "json_0")];
                  [("a", VInt 2); ("type", VStr "json"); ("source_index", VStr "json_1")];
                  [("type", VStr "text"); ("title", VStr "Hello world this is text");
                   ("word_count", VInt 5); ("source_index", VStr "text_0")] ])
      as [Hnd Hin];
    set (all_keys := PySet.to_list r l) in *; clearbody all_keys
  end.
  cbn in Hin. cbn [map]. rewrite !strip_filled by exact Hnd.
  assert (Hjson : forall n idx,
            filter (fun k => negb (Dict.contains k
                       [("a", VInt n); ("type", VStr "json"); ("source_index", VStr idx)])
                     && negb (existsb (String.eqb k) artifact_fields)) all_keys = []).
  { intros n idx. apply list_is_nil. intros k Hk. apply filter_In in Hk.
    destruct Hk as [Hk E]. apply Hin in Hk.
    repeat (destruct Hk as [<-|Hk]; [discriminate E|]). exact Hk. }
  assert (Htext :
            filter (fun k => negb (Dict.contains k
                       [("type", VStr "text"); ("title", VStr "Hello world this is text");
                        ("word_count", VInt 5); ("source_index", VStr "text_0")])
                     && negb (existsb (String.eqb k) artifact_fields)) all_keys = ["a"]).
  { apply list_is_singleton; [now apply NoDup_filter|]. intros k. rewrite filter_In, Hin.
    split.
    - intros [Hk E]. repeat (destruct Hk as [<-|Hk]; [first [reflexivity | discriminate E]|]).
      contradiction.
    - intros ->. split; [now left | reflexivity]. }
  rewrite !Hjson, Htext. reflexivity.
Qed.

Lemma book_stripped :
  map (Dict.without artifact_fields)
      (extracted_data (infer_schema env (extract env book_document new_pipeline)))
  = [ [("pages", VInt 412); ("type", VStr "json"); ("source_index", VStr "json_0")] ].
Proof.
  unfold infer_schema. cbn [extracted_data].
  assert (E : extracted_data (extract env book_document new_pipeline)
              = [ [("title", VStr "Dune"); ("word_count", VInt 188000); ("pages", VInt 412);
                   ("type", VStr "json"); ("source_index", VStr "json_0")] ])
    by (vm_compute; reflexivity).
  rewrite E.
  match goal with |- context [PySet.to_list ?r ?l] =>
    destruct (all_keys_facts
                [ [("title", VStr "Dune"); ("word_count", VInt 188000); ("pages", VInt 412);
                   ("type", VStr "json"); ("source_index", VStr "json_0")] ])
      as [Hnd Hin];
    set (all_keys := PySet.to_list r l) in *; clearbody all_keys
  end.
  cbn in Hin. cbn [map]. rewrite strip_filled by exact Hnd.
  match goal with |- context [filter ?p all_keys] =>
    assert (Hnone : filter p all_keys = [])
  end.
  { apply list_is_nil. intros k Hk. apply filter_In in Hk.
    destruct Hk as [Hk E']. apply Hin in Hk.
    repeat (destruct Hk as [<-|Hk]; [discriminate E'|]). exact Hk. }
  rewrite Hnone. reflexivity.
Qed.

End EndToEnd.

(** C2: on the document of two JSON lines and one line of text,
    extraction gives the records [json_0] with [a = 1], [json_1] with
    [a = 2] and [text_0], in this order, and after [infer_schema] the table
    of [normalize] has three rows under the columns [type],
    [source_index], [total_items], [a], with [total_items] 3 in every row
    and a null under [a] in the row of the text; this for every HTML
    parser and every order of the sets. *)
Theorem example_end_to_end (env : environment) :
  extracted_data (extract env example_document new_pipeline)
  = [ [("a", VInt 1); ("type", VStr "json"); ("source_index", VStr "json_0")];
      [("a", VInt 2); ("type", VStr "json"); ("source_index", VStr "json_1")];
      [("type", VStr "text"); ("title", VStr "Hello world this is text");
       ("word_count", VInt 5); ("source_index", VStr "text_0")] ]
  /\ snd (run_stages env example_document)
     = inr {| columns := ["type"; "source_index"; "total_items"; "a"];
              rows := [ [VStr "json"; VStr "json_0"; VInt 3; VInt 1];
                        [VStr "json"; VStr "json_1"; VInt 3; VInt 2];
                        [VStr "text"; VStr "text_0"; VInt 3; VNone] ] |}.
Proof.
  split; [apply example_extracted|].
  unfold run_stages, normalize, normalize_records. cbn [snd].
  rewrite example_stripped. vm_compute. reflexivity.
Qed.

(** C9: a JSON object with fields of its own named [title] and
    [word_count] loses them in the table.  On the document
    [{"title":"Dune","word_count":188000,"pages":412}] the extracted record
    holds both fields with the values of the object, and the table has the
    columns [type], [source_index], [total_items], [pages] only.  In
    general the strip leaves no record, of whatever type, with either
    key, and keeps every other field as it is. *)
Theorem json_title_is_stripped (env : environment) :
  extracted_data (extract env book_document new_pipeline)
  = [ [("title", VStr "Dune"); ("word_count", VInt 188000); ("pages", VInt 412);
       ("type", VStr "json"); ("source_index", VStr "json_0")] ]
  /\ snd (run_stages env book_document)
     = inr {| columns := ["type"; "source_index"; "total_items"; "pages"];
              rows := [ [VStr "json"; VStr "json_0"; VInt 1; VInt 412] ] |}
  /\ (forall (record : dict) key,
        Dict.get key (Dict.without artifact_fields record)
        = if existsb (String.eqb key) ["word_count"; "title"] then None
          else Dict.get key record).
Proof.
  split; [vm_compute; reflexivity|]. split.
  - unfold run_stages, normalize, normalize_records. cbn [snd].
    rewrite book_stripped. vm_compute. reflexivity.
  - intros record key. apply get_without.
Qed.

(** ** [json.loads]: the fuel is never used up *)

Section JsonFuel.

Lemma skip_ws_length s : String.length (Json.skip_ws s) <= String.length s.
Proof.
  induction s as [|c s IH]; [reflexivity|]. cbn [Json.skip_ws].
  destruct (Json.is_ws c); cbn [String.length]; lia.
Qed.

Lemma cons_char_inv c o str r :
  Json.cons_char c o = Some (str, r) -> exists body, o = Some (body, r).
Proof.
  destruct o as [[body rest]|]; [|discriminate]. cbn. intros [= _ <-]. now exists body.
Qed.

Lemma scan_string_shorter n :
  forall s str r,
    String.length s <= n -> Json.scan_string s = Some (str, r) ->
    String.length r < String.length s.
Proof.
  induction n as [|n IH]; intros s str r Hn H.
  - destruct s; [discriminate | cbn in Hn; lia].
  - destruct s as [|c s]; [discriminate|]. cbn [Json.scan_string] in H.
    cbn [String.length] in *.
    destruct (Ascii.eqb c Json.dquote); [injection H as _ <-; lia|].
    destruct (Ascii.eqb c Json.backslash).
    + destruct s as [|e s]; [discriminate|]. cbn [String.length] in *.
      destruct (Ascii.eqb e "u"%char).
      * destruct s as [|h1 [|h2 [|h3 [|h4 s]]]]; try discriminate.
        destruct (Json.hex4 h1 h2 h3 h4) as [k|]; [|discriminate].
        destruct (k <? 256)%nat; [|discriminate].
        apply cons_char_inv in H. destruct H as (body & H).
        cbn [String.length] in *. apply IH in H; lia.
      * destruct (Json.unescape e); [|discriminate].
        apply cons_char_inv in H. destruct H as (body & H). apply IH in H; lia.
    + destruct (nat_of_ascii c <? 32)%nat; [discriminate|].
      apply cons_char_inv in H. destruct H as (body & H). apply IH in H; lia.
Qed.

Lemma span_digits_length s :
  String.length (snd (Json.span_digits s)) <= String.length s.
Proof.
  induction s as [|c s IH]; [reflexivity|]. cbn [Json.span_digits].
  destruct (Json.is_digit c); [|reflexivity].
  destruct (Json.span_digits s) as [ds r]. cbn [snd String.length] in *. lia.
Qed.

Lemma span_digits_digit c s :
  Json.is_digit c = true ->
  String.length (snd (Json.span_digits (String c s))) <= String.length s.
Proof.
  intros H. cbn [Json.span_digits]. rewrite H.
  pose proof (span_digits_length s). destruct (Json.span_digits s). exact H0.
Qed.

Lemma scan_integer_shorter s lit r :
  Json.scan_integer s = Some (lit, r) -> String.length r < String.length s.
Proof.
  unfold Json.scan_integer.
  set (p := match s with String "-"%char r0 => ("-"%string, r0) | _ => (EmptyString, s) end).
  assert (Hp : String.length (snd p) <= String.length s).
  { subst p. destruct s as [|c s]; [reflexivity|].
    destruct c as [[] [] [] [] [] [] [] []]; cbn [snd String.length]; lia. }
  destruct p as [sign s1]. cbn [snd] in Hp.
  destruct s1 as [|c s1]; [discriminate|].
  assert (Hdigits : (if Json.is_digit c
                     then let (ds, r0) := Json.span_digits (String c s1) in
                          Some ((sign ++ ds)%string, r0)
                     else None) = Some (lit, r) -> String.length r < String.length s).
  { destruct (Json.is_digit c) eqn:Hd; [|discriminate].
    pose proof (span_digits_digit c s1 Hd) as Hl.
    destruct (Json.span_digits (String c s1)) as [ds r0]. intros [= _ <-].
    cbn [snd String.length] in *. lia. }
  destruct c as [[] [] [] [] [] [] [] []]; try exact Hdigits.
  intros [= _ <-]. cbn [String.length] in Hp. lia.
Qed.

Lemma scan_frac_length s : String.length (snd (Json.scan_frac s)) <= String.length s.
Proof.
  unfold Json.scan_frac. destruct s as [|c s]; [reflexivity|].
  pose proof (span_digits_length s) as Hl.
  destruct c as [[] [] [] [] [] [] [] []]; try reflexivity.
  destruct (Json.span_digits s) as [[|d ds] r]; cbn [snd String.length] in *; lia.
Qed.

Lemma scan_exp_length s : String.length (snd (Json.scan_exp s)) <= String.length s.
Proof.
  unfold Json.scan_exp. destruct s as [|e s]; [reflexivity|].
  destruct (Ascii.eqb e "e"%char || Ascii.eqb e "E"%char); [|reflexivity].
  set (p := match s with
            | String "-"%char r' => ("-"%string, r')
            | String "+"%char r' => ("+"%string, r')
            | _ => (EmptyString, s)
            end).
  assert (Hp : String.length (snd p) <= String.length s).
  { subst p. destruct s as [|c s]; [reflexivity|].
    destruct c as [[] [] [] [] [] [] [] []]; cbn [snd String.length]; lia. }
  destruct p as [sign r1]. cbn [snd] in Hp.
  pose proof (span_digits_length r1) as Hl.
  destruct (Json.span_digits r1) as [[|d ds] r]; cbn [snd String.length] in *; lia.
Qed.

Lemma scan_number_shorter s v r :
  Json.scan_number s = Some (v, r) -> String.length r < String.length s.
Proof.
  unfold Json.scan_number. destruct (Json.scan_integer s) as [[i r0]|] eqn:Hi; [|discriminate].
  apply scan_integer_shorter in Hi.
  pose proof (scan_frac_length r0) as Hf. destruct (Json.scan_frac r0) as [frac r1].
  pose proof (scan_exp_length r1) as He. destruct (Json.scan_exp r1) as [ex r2].
  cbn [snd] in *.
  destruct (PyStr.truthy frac || PyStr.truthy ex); [intros [= _ <-]; lia|].
  destruct (Json.max_str_digits <? Json.digit_count i)%nat; [discriminate|].
  intros [= _ <-]. lia.
Qed.

Lemma drop_prefix_length p s :
  PyStr.starts_with p s = true ->
  String.length (PyStr.drop (String.length p) s) + String.length p = String.length s.
Proof.
  revert s. induction p as [|a p IH]; intros s H; cbn [String.length PyStr.drop].
  - lia.
  - destruct s as [|b s]; [discriminate|]. cbn [PyStr.starts_with] in H.
    apply andb_true_iff in H. destruct H as [_ H]. apply IH in H.
    cbn [String.length]. lia.
Qed.

Lemma scan_atom_shorter s v r :
  Json.scan_atom s = Json.Ok v r -> String.length r < String.length s.
Proof.
  unfold Json.scan_atom.
  pose proof (drop_prefix_length "null" s) as Hnull.
  pose proof (drop_prefix_length "true" s) as Htrue.
  pose proof (drop_prefix_length "false" s) as Hfalse.
  pose proof (drop_prefix_length "NaN" s) as Hnan.
  pose proof (drop_prefix_length "Infinity" s) as Hinf.
  pose proof (drop_prefix_length "-Infinity" s) as Hminf.
  cbn [String.length] in Hnull, Htrue, Hfalse, Hnan, Hinf, Hminf.
  generalize dependent (PyStr.drop 3 s). generalize dependent (PyStr.drop 4 s).
  generalize dependent (PyStr.drop 5 s). generalize dependent (PyStr.drop 8 s).
  generalize dependent (PyStr.drop 9 s). intros d9 Hminf d8 Hinf d5 Hfalse d4 Hnull Htrue d3 Hnan.
  destruct (PyStr.starts_with "null" s); [intros [= _ <-]; specialize (Hnull eq_refl); lia|].
  destruct (PyStr.starts_with "true" s); [intros [= _ <-]; specialize (Htrue eq_refl); lia|].
  destruct (PyStr.starts_with "false" s); [intros [= _ <-]; specialize (Hfalse eq_refl); lia|].
  destruct (Json.scan_number s) as [[v' r']|] eqn:En.
  - intros [= _ <-]. now apply scan_number_shorter in En.
  - destruct (PyStr.starts_with "NaN" s); [intros [= _ <-]; specialize (Hnan eq_refl); lia|].
    destruct (PyStr.starts_with "Infinity" s);
      [intros [= _ <-]; specialize (Hinf eq_refl); lia|].
    destruct (PyStr.starts_with "-Infinity" s);
      [intros [= _ <-]; specialize (Hminf eq_refl); lia|].
    discriminate.
Qed.


(** What a scan leaves is shorter than what it was given. *)
Lemma scan_shorter fuel :
  (forall s v r, Json.scan_once fuel s = Json.Ok v r -> String.length r < String.length s)
  /\ (forall pairs s v r,
        Json.scan_members fuel pairs s = Json.Ok v r -> String.length r < String.length s)
  /\ (forall values s v r,
        Json.scan_items fuel values s = Json.Ok v r -> String.length r < String.length s).
Proof.
  induction fuel as [|f (IHonce & IHmembers & IHitems)];
    [repeat split; intros; discriminate|].
  split; [|split].
  - intros s v r H. destruct s as [|c s']; [discriminate|].
    cbn [Json.scan_once] in H. cbn [String.length].
    destruct (Ascii.eqb c Json.dquote).
    { destruct (Json.scan_string s') as [[str r0]|] eqn:Es; [|discriminate].
      injection H as _ <-. apply (scan_string_shorter _ _ _ _ (le_n _)) in Es. lia. }
    pose proof (skip_ws_length s') as Hws.
    destruct (Ascii.eqb c "{"%char).
    { destruct (Json.skip_ws s') as [|c1 r1]; [discriminate|]. cbn [String.length] in Hws.
      destruct (Ascii.eqb c1 "}"%char); [injection H as _ <-; lia|].
      destruct (Ascii.eqb c1 Json.dquote); [|discriminate].
      apply IHmembers in H. lia. }
    destruct (Ascii.eqb c "["%char).
    { destruct (Json.skip_ws s') as [|c1 r1]; [discriminate|]. cbn [String.length] in Hws.
      destruct (Ascii.eqb c1 "]"%char); [injection H as _ <-; lia|].
      apply IHitems in H. cbn [String.length] in H. lia. }
    apply scan_atom_shorter in H. cbn [String.length] in H. exact H.
  - intros pairs s v r H. cbn [Json.scan_members] in H.
    destruct (Json.scan_string s) as [[key r0]|] eqn:Es; [|discriminate].
    apply (scan_string_shorter _ _ _ _ (le_n _)) in Es.
    pose proof (skip_ws_length r0) as Hws0.
    destruct (Json.skip_ws r0) as [|c1 r1]; [discriminate|]. cbn [String.length] in Hws0.
    destruct (Ascii.eqb c1 ":"%char); [|discriminate].
    pose proof (skip_ws_length r1) as Hws1.
    destruct (Json.scan_once f (Json.skip_ws r1)) as [v' r2| |] eqn:Eo; try discriminate.
    apply IHonce in Eo. pose proof (skip_ws_length r2) as Hws2.
    destruct (Json.skip_ws r2) as [|c2 r3]; [discriminate|]. cbn [String.length] in Hws2.
    destruct (Ascii.eqb c2 "}"%char); [injection H as _ <-; lia|].
    destruct (Ascii.eqb c2 ","%char); [|discriminate].
    pose proof (skip_ws_length r3) as Hws3.
    destruct (Json.skip_ws r3) as [|c3 r4]; [discriminate|]. cbn [String.length] in Hws3.
    destruct (Ascii.eqb c3 Json.dquote); [|discriminate].
    apply IHmembers in H. lia.
  - intros values s v r H. cbn [Json.scan_items] in H.
    destruct (Json.scan_once f s) as [v' r0| |] eqn:Eo; try discriminate.
    apply IHonce in Eo. pose proof (skip_ws_length r0) as Hws0.
    destruct (Json.skip_ws r0) as [|c1 r1]; [discriminate|]. cbn [String.length] in Hws0.
    destruct (Ascii.eqb c1 "]"%char); [injection H as _ <-; lia|].
    destruct (Ascii.eqb c1 ","%char); [|discriminate].
    pose proof (skip_ws_length r1) as Hws1. apply IHitems in H. lia.
Qed.

(** With fuel above twice the length of the text a scan never stops for
    want of fuel. *)
Lemma scan_fuel fuel :
  (forall s, 2 * String.length s < fuel -> Json.scan_once fuel s <> Json.OutOfFuel)
  /\ (forall pairs s,
        2 * String.length s < fuel -> Json.scan_members fuel pairs s <> Json.OutOfFuel)
  /\ (forall values s,
        2 * String.length s + 1 < fuel -> Json.scan_items fuel values s <> Json.OutOfFuel).
Proof.
  induction fuel as [|f (IHonce & IHmembers & IHitems)];
    [repeat split; intros; lia|].
  split; [|split].
  - intros s Hf. destruct s as [|c s']; [discriminate|].
    cbn [Json.scan_once]. cbn [String.length] in Hf.
    destruct (Ascii.eqb c Json.dquote); [destruct (Json.scan_string s') as [[]|]; discriminate|].
    pose proof (skip_ws_length s') as Hws.
    destruct (Ascii.eqb c "{"%char).
    { destruct (Json.skip_ws s') as [|c1 r1]; [discriminate|]. cbn [String.length] in Hws.
      destruct (Ascii.eqb c1 "}"%char); [discriminate|].
      destruct (Ascii.eqb c1 Json.dquote); [|discriminate].
      apply IHmembers. lia. }
    destruct (Ascii.eqb c "["%char).
    { destruct (Json.skip_ws s') as [|c1 r1]; [discriminate|]. cbn [String.length] in Hws.
      destruct (Ascii.eqb c1 "]"%char); [discriminate|].
      apply IHitems. cbn [String.length]. lia. }
    unfold Json.scan_atom.
    repeat match goal with
           | |- (if ?b then _ else _) <> _ => destruct b; [discriminate|]
           | |- match ?o with Some _ => _ | None => _ end <> _ =>
               destruct o as [[]|]; [discriminate|]
           end.
    discriminate.
  - intros pairs s Hf. cbn [Json.scan_members].
    destruct (Json.scan_string s) as [[key r0]|] eqn:Es; [|discriminate].
    apply (scan_string_shorter _ _ _ _ (le_n _)) in Es.
    pose proof (skip_ws_length r0) as Hws0.
    destruct (Json.skip_ws r0) as [|c1 r1]; [discriminate|]. cbn [String.length] in Hws0.
    destruct (Ascii.eqb c1 ":"%char); [|discriminate].
    pose proof (skip_ws_length r1) as Hws1.
    destruct (Json.scan_once f (Json.skip_ws r1)) as [v' r2| |] eqn:Eo; try discriminate.
    + apply (proj1 (scan_shorter f)) in Eo. pose proof (skip_ws_length r2) as Hws2.
      destruct (Json.skip_ws r2) as [|c2 r3]; [discriminate|]. cbn [String.length] in Hws2.
      destruct (Ascii.eqb c2 "}"%char); [discriminate|].
      destruct (Ascii.eqb c2 ","%char); [|discriminate].
      pose proof (skip_ws_length r3) as Hws3.
      destruct (Json.skip_ws r3) as [|c3 r4]; [discriminate|]. cbn [String.length] in Hws3.
      destruct (Ascii.eqb c3 Json.dquote); [|discriminate].
      apply IHmembers. lia.
    + exfalso. revert Eo. apply IHonce. lia.
  - intros values s Hf. cbn [Json.scan_items].
    destruct (Json.scan_once f s) as [v' r0| |] eqn:Eo; try discriminate.
    + apply (proj1 (scan_shorter f)) in Eo. pose proof (skip_ws_length r0) as Hws0.
      destruct (Json.skip_ws r0) as [|c1 r1]; [discriminate|]. cbn [String.length] in Hws0.
      destruct (Ascii.eqb c1 "]"%char); [discriminate|].
      destruct (Ascii.eqb c1 ","%char); [|discriminate].
      pose proof (skip_ws_length r1) as Hws1. apply IHitems. lia.
    + exfalso. revert Eo. apply IHonce. lia.
Qed.

(** [json.loads] never stops for want of fuel: [None] is a refusal of the
    text. *)
Lemma loads_fuel_suffices s :
  Json.scan_once (S (2 * String.length s)) (Json.skip_ws s) <> Json.OutOfFuel.
Proof.
  apply (proj1 (scan_fuel _)). pose proof (skip_ws_length s). lia.
Qed.

End JsonFuel.

(** ** Detection of JSON objects *)

Section JsonDetection.

Lemma append_assoc (a b c : string) : ((a ++ b) ++ c = a ++ (b ++ c))%string.
Proof. induction a as [|x a IH]; [reflexivity|]. cbn. now rewrite IH. Qed.

Lemma length_append (a b : string) :
  String.length (a ++ b)%string = String.length a + String.length b.
Proof. induction a as [|x a IH]; [reflexivity|]. cbn. now rewrite IH. Qed.

Lemma take_append (a b : string) : PyStr.take (String.length a) (a ++ b)%string = a.
Proof. induction a as [|x a IH]; [now destruct b|]. cbn. now rewrite IH. Qed.

(** Inside text without a brace no match starts. *)
Lemma findall_json_text t rest :
  brace_free t = true ->
  Re.findall Re.json_match 0 (t ++ rest)%string = Re.findall Re.json_match 0 rest.
Proof.
  induction t as [|c t IH]; [reflexivity|]. cbn [brace_free].
  rewrite !andb_true_iff, !negb_true_iff. intros [[Ho _] Ht].
  cbn [append Re.findall Re.json_match]. rewrite Ho. now apply IH.
Qed.

(** From the opening brace of an object the pattern runs to its closing
    brace. *)
Lemma json_span_body body rest :
  brace_free body = true ->
  Re.json_span false (body ++ String "}"%char rest)%string = Some (S (String.length body)).
Proof.
  induction body as [|c body IH]; [reflexivity|]. cbn [brace_free].
  rewrite !andb_true_iff, !negb_true_iff. intros [[Ho Hc] Hb].
  cbn [append Re.json_span String.length]. rewrite Ho, Hc, IH by exact Hb. reflexivity.
Qed.

Lemma object_text_append body rest :
  (object_text body ++ rest)%string = String "{"%char (body ++ String "}"%char rest)%string.
Proof. unfold object_text. cbn [append]. now rewrite append_assoc. Qed.

Lemma object_text_length body : String.length (object_text body) = S (S (String.length body)).
Proof. unfold object_text. cbn [String.length]. rewrite length_append. cbn. lia. Qed.

Lemma json_match_object body rest :
  brace_free body = true ->
  Re.json_match (object_text body ++ rest)%string
  = Some (object_text body, S (S (String.length body))).
Proof.
  intros Hb. rewrite object_text_append. cbn [Re.json_match Ascii.eqb Bool.eqb].
  rewrite json_span_body by exact Hb. rewrite <- object_text_append.
  now rewrite <- object_text_length, take_append.
Qed.

(** The scan passes the characters of a match. *)
Lemma findall_skip (m : string -> option (string * nat)) s rest :
  Re.findall m (String.length s) (s ++ rest)%string = Re.findall m 0 rest.
Proof. induction s as [|c s IH]; [now destruct rest | exact IH]. Qed.

Lemma findall_json_object body rest :
  brace_free body = true ->
  Re.findall Re.json_match 0 (object_text body ++ rest)%string
  = object_text body :: Re.findall Re.json_match 0 rest.
Proof.
  intros Hb. pose proof (json_match_object body rest Hb) as Hm.
  rewrite object_text_append in *. cbn [Re.findall]. rewrite Hm. f_equal.
  cbn [Nat.sub].
  replace (S (String.length body)) with (String.length (body ++ "}")%string)
    by (rewrite length_append; cbn; lia).
  replace (body ++ String "}"%char rest)%string with ((body ++ "}") ++ rest)%string
    by now rewrite append_assoc.
  apply findall_skip.
Qed.

Lemma findall_json_render segments :
  Forall plain_segment segments ->
  Re.findall Re.json_match 0 (render segments) = objects segments.
Proof.
  induction 1 as [|[t|body] segments Hs _ IH]; [reflexivity| |]; cbn [render objects].
  - now rewrite findall_json_text.
  - destruct Hs as [Hb _]. now rewrite findall_json_object, IH.
Qed.

Lemma objects_valid segments o :
  Forall plain_segment segments -> In o (objects segments) -> Json.loads o <> None.
Proof.
  induction 1 as [|[t|body] segments Hs _ IH]; cbn [objects]; [intros [] | exact IH |].
  intros [<-|I]; [now destruct Hs | now apply IH].
Qed.



End JsonDetection.

(** ** The records of [extract] by type *)

Section ExtractedTypes.

Lemma record_type_source_index v (d : dict) :
  record_type (Dict.setitem "source_index" v d) = record_type d.
Proof. unfold record_type. now rewrite get_setitem_ne by discriminate. Qed.

Lemma extract_json_type s : record_type (extract_json s) = VStr "json".
Proof.
  unfold extract_json, record_type.
  destruct (Json.loads s) as [[]|]; try reflexivity. now rewrite get_setitem_eq.
Qed.

Lemma extract_all_types tag (extractor : string -> dict) t spans r :
  (forall s, record_type (extractor s) = VStr t) ->
  In r (extract_all tag extractor spans) -> record_type r = VStr t.
Proof.
  intros H I. unfold extract_all in I. apply in_map_iff in I.
  destruct I as ([i s] & <- & _). now rewrite record_type_source_index.
Qed.

Lemma filter_all {A : Type} (p : A -> bool) l :
  (forall x, In x l -> p x = true) -> filter p l = l.
Proof.
  induction l as [|x l IH]; intros H; [reflexivity|]. cbn [filter].
  rewrite (H x) by now left. f_equal. apply IH. intros y I. apply H. now right.
Qed.

Lemma filter_none {A : Type} (p : A -> bool) l :
  (forall x, In x l -> p x = false) -> filter p l = [].
Proof.
  induction l as [|x l IH]; intros H; [reflexivity|]. cbn [filter].
  rewrite (H x) by now left. apply IH. intros y I. apply H. now right.
Qed.





End ExtractedTypes.

(** ** The pipeline returns a table *)

Section PipelineReturns.
Variable env : environment.

Lemma extract_all_source_index tag extractor spans r :
  In r (extract_all tag extractor spans) -> In "source_index" (Dict.keys r).
Proof.
  unfold extract_all. rewrite in_map_iff. intros ([i s] & <- & _).
  apply contains_key. unfold Dict.contains. now rewrite get_setitem_eq.
Qed.

(** Every record of [extract] has a type among the four tags and a
    [source_index]. *)
Lemma extract_records_well_formed content r :
  In r (extracted_data (extract env content new_pipeline)) ->
  (exists tag, In tag known_types /\ Dict.get "type" r = Some (VStr tag))
  /\ In "source_index" (Dict.keys r).
Proof.
  unfold extract. cbn [extracted_data new_pipeline app]. rewrite !in_app_iff.
  assert (Htype : forall tag extractor t spans,
            (forall s, Dict.get "type" (extractor s) = Some (VStr t)) ->
            In r (extract_all tag extractor spans) -> Dict.get "type" r = Some (VStr t)).
  { intros tag extractor t spans H I. unfold extract_all in I. apply in_map_iff in I.
    destruct I as ([i s] & <- & _). rewrite get_setitem_ne by discriminate. apply H. }
  assert (Hjson : forall s, Dict.get "type" (extract_json s) = Some (VStr "json")).
  { intros s. unfold extract_json.
    destruct (Json.loads s) as [[]|]; try reflexivity. apply get_setitem_eq. }
  intros [I|[I|[I|I]]]; (split; [|exact (extract_all_source_index _ _ _ _ I)]).
  - exists "html". split; [cbn; tauto|].
    exact (Htype "html" (extract_html env) "html" _ (fun _ => eq_refl) I).
  - exists "json". split; [cbn; tauto|]. exact (Htype "json" extract_json "json" _ Hjson I).
  - exists "text". split; [cbn; tauto|].
    exact (Htype "text" extract_text "text" _ (fun _ => eq_refl) I).
  - exists "media". split; [cbn; tauto|].
    exact (Htype "media" extract_media "media" _ (fun _ => eq_refl) I).
Qed.

(** On every document, [normalize] after [extract] and [infer_schema]
    returns a table: it does not raise. *)
Lemma run_stages_returns content : exists df, snd (run_stages env content) = inr df.
Proof.
  unfold run_stages, normalize, infer_schema. cbn [snd extracted_data].
  set (data := extracted_data (extract env content new_pipeline)).
  set (all_keys := PySet.to_list _ _).
  assert (Hfilled : forall r', In r' (map (fill_missing all_keys) data) ->
            (exists tag, Dict.get "type" r' = Some (VStr tag))
            /\ In "source_index" (Dict.keys r')).
  { intros r' Hr'. apply in_map_iff in Hr'. destruct Hr' as (r & <- & Hr).
    destruct (extract_records_well_formed content r Hr) as [(tag & _ & Ht) Hs].
    split.
    - exists tag. now rewrite fill_missing_get, Ht.
    - apply contains_key in Hs. apply contains_key. unfold Dict.contains in *.
      rewrite fill_missing_get. now destruct (Dict.get "source_index" r). }
  apply normalize_records_returns.
  - apply forallb_forall. intros r' Hr'. destruct (Hfilled r' Hr') as [(tag & Ht) _].
    unfold record_type. now rewrite Ht.
  - intros r' Hr' _. now apply Hfilled.
Qed.

End PipelineReturns.




(** ** [normalize] and the record objects *)

Section RecordObjects.

Lemma deref_old (base fresh : list dict) r :
  r < List.length base -> Heap.deref (base ++ fresh) r = Heap.deref base r.
Proof. intros H. unfold Heap.deref. now apply app_nth1. Qed.

Lemma deref_fresh (base fresh : list dict) :
  map (Heap.deref (base ++ fresh)) (seq (List.length base) (List.length fresh)) = fresh.
Proof.
  revert base. induction fresh as [|d fresh IH]; intros base; [reflexivity|].
  cbn [List.length seq map]. f_equal.
  - unfold Heap.deref. rewrite app_nth2, Nat.sub_diag by lia. reflexivity.
  - specialize (IH (base ++ [d])). rewrite <- app_assoc, length_app in IH.
    cbn [List.length app] in IH. rewrite Nat.add_1_r in IH. exact IH.
Qed.

(** The first loop: the store grows by one stripped copy per record, in
    order, and [cleaned_data] holds the references to the copies. *)
Lemma copy_loop base refs :
  Forall (fun r => r < List.length base) refs ->
  forall cleaned fresh,
    fold_left Heap.copy_stripped refs (cleaned, base ++ fresh)
    = (cleaned ++ seq (List.length base + List.length fresh) (List.length refs),
       base ++ fresh
       ++ map (fun r => Dict.without artifact_fields (Heap.deref base r)) refs).
Proof.
  induction 1 as [|r refs Hr _ IH]; intros cleaned fresh.
  - cbn. now rewrite !app_nil_r.
  - cbn [fold_left Heap.copy_stripped]. rewrite deref_old by exact Hr.
    rewrite <- app_assoc, IH. rewrite !length_app. cbn [List.length map seq].
    rewrite <- !app_assoc. cbn [app].
    replace (List.length base + (List.length fresh + 1))
      with (S (List.length base + List.length fresh)) by lia.
    reflexivity.
Qed.

(** C10: [normalize] never mutates the stored records.  With the records
    as objects in a store, the list [extracted_data] holds the same
    references after the call, the store has only grown (by the stripped
    copies), so every record has exactly the fields it had, [title] and
    [word_count] among them; and the table is the one computed from these
    records. *)
Theorem normalize_keeps_records (o : Heap.object_state) :
  Forall (fun r => r < List.length (Heap.store o)) (Heap.extracted_refs o) ->
  let (result, o') := Heap.normalize o in
  Heap.extracted_refs o' = Heap.extracted_refs o
  /\ (exists copies, Heap.store o' = Heap.store o ++ copies)
  /\ Heap.view o' = Heap.view o
  /\ result = normalize_records (Heap.view o).
Proof.
  intros Hvalid. unfold Heap.normalize.
  pose proof (copy_loop _ _ Hvalid [] []) as Hloop.
  rewrite app_nil_r in Hloop. rewrite Hloop. cbn [app List.length Heap.extracted_refs Heap.store].
  rewrite Nat.add_0_r.
  set (copies := map _ (Heap.extracted_refs o)).
  split; [reflexivity|]. split; [now exists copies|]. split.
  - unfold Heap.view. cbn [Heap.store Heap.extracted_refs].
    apply map_ext_in. intros r Hr. apply deref_old.
    rewrite Forall_forall in Hvalid. now apply Hvalid.
  - unfold normalize_records, Heap.view. f_equal.
    assert (E : List.length (Heap.extracted_refs o) = List.length copies)
      by (symmetry; apply length_map).
    rewrite E, deref_fresh. unfold copies. now rewrite map_map.
Qed.

Lemma normalize_keeps_records_witness :
  let record := [("type", VStr "text"); ("title", VStr "Hello"); ("word_count", VInt 1);
                 ("source_index", VStr "text_0")] in
  let o := {| Heap.store := [record]; Heap.extracted_refs := [0] |} in
  Heap.view (snd (Heap.normalize o)) = [record]
  /\ fst (Heap.normalize o)
     = inr {| columns := ["type"; "source_index"; "total_items"];
              rows := [[VStr "text"; VStr "text_0"; VInt 1]] |}.
Proof.
  cbv zeta.
  pose proof (normalize_keeps_records
                {| Heap.store := [[("type", VStr "text"); ("title", VStr "Hello");
                                   ("word_count", VInt 1); ("source_index", VStr "text_0")]];
                   Heap.extracted_refs := [0] |}) as H.
  destruct (Heap.normalize _) as [result o'] in H |- *.
  destruct H as (_ & _ & Hview & Hresult); [repeat constructor|].
  split; [exact Hview | rewrite Hresult; vm_compute; reflexivity].
Defined.

End RecordObjects.

(* ================================================================== *)
(** * Further properties of the code *)
(* ================================================================== *)

(** ** [normalize]: empty tables and cells *)

Section TableContents.

Lemma table_column_origin data df c :
  normalize_records data = inr df ->
  In c (columns df) ->
  ~ In c artifact_fields
  /\ (In c core_order
      \/ exists r, In r (rows_in_order data) /\ In c (Dict.keys r)).
Proof.
  intros H I. apply normalize_records_table in H. cbv zeta in H.
  rewrite rows_in_order_cleaned in H.
  destruct H as [_ [[_ ->]|(_ & (others & Hc & Hothers) & _)]]; [destruct I|].
  rewrite Hc, in_app_iff, sorted_In, Hothers in I.
  destruct I as [I|[_ (r & Hr & Hin)]].
  - split; [|now left]. cbn in *. intuition (subst; discriminate).
  - apply in_map_iff in Hr. destruct Hr as (r0 & <- & Hr0).
    apply without_keys in Hin. destruct Hin as [Hin Hart].
    split; [exact Hart|]. right. now exists r0.
Qed.

(** X1: when no record has one of the four types (in particular when
    there is no record at all), and no type value is unhashable,
    [normalize] returns the empty table: no row and no column, not even
    [total_items]. *)
Theorem normalize_nothing_known (self : ETLPipeline) :
  (forall r, In r (extracted_data self) ->
             hashable (record_type r) = true /\ known_type r = false) ->
  normalize self = inr Frame.empty.
Proof.
  intros H. unfold normalize. rewrite normalize_records_known.
  - rewrite filter_none; [reflexivity|]. intros r Hr. now apply H.
  - apply forallb_forall. intros r Hr. now apply H.
Qed.

Lemma normalize_nothing_known_witness :
  normalize {| extracted_data := [ [("type", VStr "pdf"); ("pages", VInt 3)];
                                   [("source_index", VStr "x_1")] ];
               schema := [] |}
  = inr Frame.empty
  /\ normalize new_pipeline = inr Frame.empty.
Proof.
  split.
  - apply normalize_nothing_known.
    intros r [<-|[<-|[]]]; split; reflexivity.
  - apply normalize_nothing_known. intros r [].
Defined.

(** X2: the rows of the table are the records with a known type, in the
    order of the groups.  A row has one cell for each label; under
    [total_items] it holds the number of rows; under another label it is
    null where the record has no value (the field is missing or null)
    and it holds the string where the value of the record is a string.
    How a number is stored depends on the type pandas gives the column,
    and is not stated. *)
Theorem normalize_cells (self : ETLPipeline) (df : DataFrame) (i : nat) (row : list value) :
  normalize self = inr df ->
  nth_error (rows df) i = Some row ->
  exists record,
    nth_error (rows_in_order (extracted_data self)) i = Some record
    /\ List.length row = List.length (columns df)
    /\ Frame.cell (columns df) row "total_items" = VInt (Z.of_nat (Frame.len df))
    /\ forall c, In c (columns df) -> c <> "total_items" ->
         cell_holds (Frame.cell (columns df) row c) record c.
Proof.
  intros H Hrow. pose proof (normalize_records_len _ _ H) as Hlen.
  pose proof H as Hcols. apply normalize_records_table in H. cbv zeta in H.
  rewrite rows_in_order_cleaned in H.
  destruct H as [_ [[_ ->]|(_ & (others & Hc & Hothers) & Hdf)]].
  { cbn in Hrow. destruct i; discriminate. }
  rewrite Hdf in Hrow. cbn [rows table_of] in Hrow. rewrite !length_map in Hrow.
  rewrite !map_map, nth_error_map in Hrow.
  destruct (nth_error (rows_in_order (extracted_data self)) i) as [record|] eqn:Ei;
    [|discriminate].
  cbn [option_map] in Hrow. injection Hrow as <-.
  exists record. split; [reflexivity|]. split; [apply length_map|].
  assert (Hcell : forall c, In c (columns df) ->
            Frame.cell (columns df)
              (map (final_cell (List.length (rows_in_order (extracted_data self)))
                               (Dict.without artifact_fields record)) (columns df)) c
            = if String.eqb c "total_items" then VInt (Z.of_nat (Frame.len df))
              else py_get c record).
  { intros c Hin. rewrite cell_map. apply mem_In in Hin. rewrite Hin.
    unfold final_cell. rewrite Hlen.
    destruct (String.eqb_spec c "total_items") as [->|Hne]; [reflexivity|].
    apply py_get_without. apply mem_In in Hin.
    exact (proj1 (table_column_origin _ _ c Hcols Hin)). }
  split.
  - rewrite Hcell; [reflexivity|]. rewrite Hc. cbn. tauto.
  - intros c Hin Hne. rewrite (Hcell c Hin).
    destruct (String.eqb_spec c "total_items") as [->|_]; [now elim Hne|].
    split; [trivial | intros s E; exact E].
Qed.

End TableContents.

Lemma normalize_cells_witness :
  let self :=
    {| extracted_data :=
         [ [("type", VStr "text"); ("title", VStr "Hello"); ("source_index", VStr "text_0")];
           [("type", VStr "json"); ("source_index", VStr "json_0"); ("a", VStr "x")] ];
       schema := [] |} in
  exists df row,
    normalize self = inr df
    /\ nth_error (rows df) 1 = Some row
    /\ Frame.cell (columns df) row "a" = VNone
    /\ Frame.cell (columns df) row "source_index" = VStr "text_0"
    /\ Frame.cell (columns df) row "total_items" = VInt 2.
Proof.
  cbv zeta.
  set (self := {| extracted_data := _; schema := [] |}).
  destruct (normalize self) as [e|df] eqn:E; [vm_compute in E; discriminate|].
  assert (Hrow : exists row, nth_error (rows df) 1 = Some row).
  { vm_compute in E. injection E as <-. eexists. reflexivity. }
  destruct Hrow as [row Hrow].
  destruct (normalize_cells self df 1 row E Hrow) as (record & Hrec & _ & Htotal & Hcell).
  assert (Hlen : Frame.len df = 2) by (vm_compute in E; injection E as <-; reflexivity).
  assert (Hcols : columns df = ["type"; "source_index"; "total_items"; "a"])
    by (vm_compute in E; injection E as <-; reflexivity).
  vm_compute in Hrec. injection Hrec as <-.
  exists df, row. split; [reflexivity|]. split; [exact Hrow|]. split; [|split].
  - apply (Hcell "a"); [rewrite Hcols; cbn; tauto | discriminate | reflexivity].
  - apply (Hcell "source_index"); [rewrite Hcols; cbn; tauto | discriminate | reflexivity].
  - now rewrite Htotal, Hlen.
Defined.

(** ** [normalize]: the shape of the table *)

Section TableShape.

Lemma insert_sorted_perm x xs : Permutation (PyStr.insert_sorted x xs) (x :: xs).
Proof.
  induction xs as [|y ys IH]; cbn; [reflexivity|].
  destruct (String.leb x y); [reflexivity|]. rewrite IH. apply perm_swap.
Qed.

Lemma sorted_perm xs : Permutation (PyStr.sorted xs) xs.
Proof.
  unfold PyStr.sorted. induction xs as [|x xs IH]; cbn; [reflexivity|].
  rewrite insert_sorted_perm. now constructor.
Qed.

Lemma insert_sorted_ascending x xs :
  Sorted label_le xs -> Sorted label_le (PyStr.insert_sorted x xs).
Proof.
  induction xs as [|y ys IH]; intros H; cbn.
  - repeat constructor.
  - destruct (String.leb x y) eqn:E.
    + constructor; [exact H | constructor; exact E].
    + inversion H as [|? ? Hs Hh]; subst. constructor; [now apply IH|].
      assert (Hyx : label_le y x).
      { destruct (String.leb_total x y) as [C|C]; [congruence | exact C]. }
      destruct ys as [|z zs]; cbn; [now constructor|].
      destruct (String.leb x z); constructor; [exact Hyx|].
      now inversion Hh.
Qed.

Lemma sorted_ascending xs : Sorted label_le (PyStr.sorted xs).
Proof.
  unfold PyStr.sorted. induction xs as [|x xs IH]; cbn; [constructor|].
  now apply insert_sorted_ascending.
Qed.

Lemma assign_columns_NoDup c v df :
  NoDup (columns df) -> NoDup (columns (Frame.assign c v df)).
Proof.
  intros H. unfold Frame.assign. destruct (Frame.mem c (columns df)) eqn:E; cbn [columns].
  - exact H.
  - apply mem_false in E. apply NoDup_app; [exact H | repeat constructor; cbn; tauto|].
    intros x Hx [<-|[]]. contradiction.
Qed.

(** The labels of a table with rows: the core labels, then the other
    labels of the frame the rows were gathered in, sorted. *)
Lemma normalize_records_labels data df :
  normalize_records data = inr df ->
  Frame.len df <> 0 ->
  exists gathered,
    NoDup gathered
    /\ columns df
       = core_order
         ++ PyStr.sorted (filter (fun col => negb (Frame.mem col core_order)) gathered).
Proof.
  unfold normalize_records, normalize_cleaned. intros H Hlen.
  destruct (group_by_type _) as [e|g]; [discriminate|]. cbn [bind] in H.
  destruct (build_frames g) as [e|all_rows]; [discriminate|]. cbn [bind] in H.
  set (df0 := match all_rows with [] => Frame.empty | _ :: _ => Frame.concat all_rows end) in H.
  assert (Hnd : NoDup (columns df0)).
  { unfold df0. destruct all_rows; [constructor | apply concat_columns_NoDup]. }
  destruct (Frame.len df0 =? 0)%nat eqn:E0.
  { injection H as <-. apply Nat.eqb_eq in E0. contradiction. }
  set (df1 := Frame.assign "total_items" _ df0) in H.
  destruct (Frame.select _ df1) as [e|df2] eqn:Esel; cbn [bind] in H; [discriminate|].
  apply select_ok in Esel. destruct Esel as [_ Hcols2].
  exists (columns df1). split; [now apply assign_columns_NoDup|].
  injection H as <-. now destruct (Frame.mem "total_items" (columns df2)).
Qed.

(** X3: a table with rows has pairwise distinct labels: [type],
    [source_index], [total_items], then the other labels in ascending
    order; and each row has one cell per label. *)
Theorem normalize_table_shape (self : ETLPipeline) (df : DataFrame) :
  normalize self = inr df ->
  Frame.len df <> 0 ->
  (exists others,
      columns df = ["type"; "source_index"; "total_items"] ++ others
      /\ Sorted label_le others
      /\ forall c, In c others -> ~ In c ["type"; "source_index"; "total_items"])
  /\ NoDup (columns df)
  /\ forall row, In row (rows df) -> List.length row = List.length (columns df).
Proof.
  intros H Hlen. destruct (normalize_records_labels _ _ H Hlen) as (gathered & Hnd & Hcols).
  set (others := PyStr.sorted _) in Hcols.
  assert (Hothers : forall c, In c others -> ~ In c core_order).
  { intros c Hc. apply sorted_In, filter_In in Hc. destruct Hc as [_ Hc].
    now apply negb_true_iff, mem_false in Hc. }
  split; [|split].
  - exists others. split; [exact Hcols|]. split; [apply sorted_ascending | exact Hothers].
  - rewrite Hcols. apply NoDup_app.
    + unfold core_order. distinct_keys.
    + apply (Permutation_NoDup (l := filter (fun col => negb (Frame.mem col core_order)) gathered));
        [symmetry; apply sorted_perm | now apply NoDup_filter].
    + intros c Hc1 Hc2. exact (Hothers c Hc2 Hc1).
  - intros row Hrow. apply normalize_records_table in H. cbv zeta in H.
    destruct H as [_ [[_ ->]|(_ & _ & Hdf)]]; [destruct Hrow|].
    rewrite Hdf in Hrow. cbn [rows table_of] in Hrow.
    apply in_map_iff in Hrow. destruct Hrow as (f & <- & _). apply length_map.
Qed.

Lemma normalize_table_shape_witness :
  exists df,
    normalize {| extracted_data :=
                   [ [("type", VStr "json"); ("source_index", VStr "json_0");
                      ("zeta", VInt 1); ("alpha", VInt 2); ("Beta", VInt 3)] ];
                 schema := [] |} = inr df
    /\ NoDup (columns df)
    /\ columns df = ["type"; "source_index"; "total_items"; "Beta"; "alpha"; "zeta"].
Proof.
  eexists. split; [vm_compute; reflexivity|]. split; [|reflexivity].
  refine (proj1 (proj2 (normalize_table_shape
                          {| extracted_data :=
                               [ [("type", VStr "json"); ("source_index", VStr "json_0");
                                  ("zeta", VInt 1); ("alpha", VInt 2); ("Beta", VInt 3)] ];
                             schema := [] |} _ _ _))).
  - vm_compute. reflexivity.
  - vm_compute. discriminate.
Defined.

End TableShape.

(** ** [normalize]: what it raises *)

Section NormalizeRaises.

(** The frame of a bucket whose members all have [type]: it is refused
    exactly when no member has [source_index]. *)
Lemma type_frame_raises type_records :
  type_records <> [] ->
  (forall r, In r type_records -> In "type" (Dict.keys r)) ->
  (forall e, type_frame type_records = inl e ->
             e = KeyError "source_index"
             /\ forall r, In r type_records -> ~ In "source_index" (Dict.keys r))
  /\ ((forall r, In r type_records -> ~ In "source_index" (Dict.keys r)) ->
      type_frame type_records = inl (KeyError "source_index")).
Proof.
  intros Hne Htype.
  assert (Ht : Frame.mem "type" (columns (Frame.of_records type_records)) = true).
  { apply mem_In, of_records_columns. destruct type_records as [|r0 rs]; [contradiction|].
    exists r0. split; [now left | apply Htype; now left]. }
  unfold type_frame, Frame.select. cbn [core_fields app find]. rewrite Ht. cbn [negb].
  destruct (Frame.mem "source_index" (columns (Frame.of_records type_records))) eqn:Es;
    cbn [negb].
  - destruct (find _ _) as [missing|] eqn:Ef.
    + apply find_some in Ef. destruct Ef as [Ef1 Ef2]. apply filter_In in Ef1.
      destruct Ef1 as [Ef1 _]. apply mem_In in Ef1. rewrite Ef1 in Ef2. discriminate.
    + split; [discriminate|]. intros Hnone. exfalso.
      apply mem_In, of_records_columns in Es. destruct Es as (r & Hr & Hin).
      exact (Hnone r Hr Hin).
  - split; [|reflexivity]. intros e [= <-]. split; [reflexivity|].
    intros r Hr Hin. apply mem_false in Es. apply Es, of_records_columns. now exists r.
Qed.

Lemma frames_loop_error g (members : string -> list dict) tags :
  (forall tag, bucket (VStr tag) g = bucket_of (members tag)) ->
  (forall tag r, In tag tags -> In r (members tag) -> In "type" (Dict.keys r)) ->
  forall acc e,
    fold_left (frames_step g) tags (inr acc) = inl e ->
    e = KeyError "source_index"
    /\ exists tag, In tag tags /\ members tag <> []
                   /\ forall r, In r (members tag) -> ~ In "source_index" (Dict.keys r).
Proof.
  intros Hg. induction tags as [|tag tags IH]; intros Htype acc e H; [discriminate|].
  cbn [fold_left] in H. unfold frames_step at 2 in H. cbn [bind] in H. rewrite Hg in H.
  assert (Hrest : forall t r, In t tags -> In r (members t) -> In "type" (Dict.keys r))
    by (intros t r I; apply Htype; now right).
  assert (Hlift : (exists t, In t tags /\ members t <> []
                     /\ forall r, In r (members t) -> ~ In "source_index" (Dict.keys r)) ->
                  exists t, In t (tag :: tags) /\ members t <> []
                     /\ forall r, In r (members t) -> ~ In "source_index" (Dict.keys r)).
  { intros (t & I & Ht). exists t. split; [now right | exact Ht]. }
  destruct (members tag) as [|r0 rs] eqn:Em; cbn [bucket_of] in H.
  - destruct (IH Hrest _ _ H) as [-> Hbad]. split; [reflexivity | now apply Hlift].
  - assert (Hne : r0 :: rs <> []) by discriminate.
    assert (Ht : forall r, In r (r0 :: rs) -> In "type" (Dict.keys r)).
    { intros r Hr. apply (Htype tag); [now left | now rewrite Em]. }
    destruct (type_frame (r0 :: rs)) as [e0|type_df] eqn:Ef; cbn [bind] in H.
    + rewrite frames_loop_raised in H. injection H as <-.
      destruct (proj1 (type_frame_raises _ Hne Ht) e0 Ef) as [-> Hnone].
      split; [reflexivity|]. exists tag. split; [now left|]. now rewrite Em.
    + destruct (IH Hrest _ _ H) as [-> Hbad]. split; [reflexivity | now apply Hlift].
Qed.

Lemma frames_loop_fails g (members : string -> list dict) tags :
  (forall tag, bucket (VStr tag) g = bucket_of (members tag)) ->
  (forall tag r, In tag tags -> In r (members tag) -> In "type" (Dict.keys r)) ->
  (exists tag, In tag tags /\ members tag <> []
               /\ forall r, In r (members tag) -> ~ In "source_index" (Dict.keys r)) ->
  forall acc, fold_left (frames_step g) tags (inr acc) = inl (KeyError "source_index").
Proof.
  intros Hg Htype Hbad acc.
  destruct (fold_left (frames_step g) tags (inr acc)) as [e|all_rows] eqn:E.
  - now destruct (frames_loop_error g members tags Hg Htype acc e E) as [-> _].
  - exfalso. revert acc all_rows E.
    induction tags as [|tag tags IH]; intros acc all_rows E;
      [now destruct Hbad as (t & [] & _)|].
    cbn [fold_left] in E. unfold frames_step at 2 in E. cbn [bind] in E. rewrite Hg in E.
    assert (Hrest : forall t r, In t tags -> In r (members t) -> In "type" (Dict.keys r))
      by (intros t r I; apply Htype; now right).
    destruct Hbad as (t & [<-|I] & Hne & Hnone).
    + destruct (members tag) as [|r0 rs] eqn:Em; [contradiction|]. cbn [bucket_of] in E.
      rewrite (proj2 (type_frame_raises (r0 :: rs) Hne
                        (fun r Hr => Htype tag r (or_introl eq_refl)
                                       (eq_ind_r (fun l => In r l) Hr Em))) Hnone) in E.
      cbn [bind] in E. rewrite frames_loop_raised in E. discriminate.
    + assert (Hbad' : exists t, In t tags /\ members t <> []
                 /\ forall r, In r (members t) -> ~ In "source_index" (Dict.keys r))
        by now exists t.
      destruct (members tag) as [|r0 rs]; cbn [bucket_of] in E;
        [exact (IH Hrest Hbad' _ _ E)|].
      destruct (type_frame (r0 :: rs)) as [e0|type_df]; cbn [bind] in E.
      * rewrite frames_loop_raised in E. discriminate.
      * exact (IH Hrest Hbad' _ _ E).
Qed.

(** Once the frames of the buckets are built, the table is. *)
Lemma normalize_after_frames cleaned g all_rows :
  group_by_type cleaned = inr g ->
  (forall tag, bucket (VStr tag) g = bucket_of (filter (type_is tag) cleaned)) ->
  build_frames g = inr all_rows ->
  exists df, normalize_cleaned cleaned = inr df.
Proof.
  intros Hg Hb Hframes. unfold normalize_cleaned. rewrite Hg. cbn [bind].
  rewrite Hframes. cbn [bind].
  destruct (frames_loop g _ known_types Hb [] all_rows Hframes) as (Hrows & _ & _ & _).
  cbn [app] in Hrows.
  set (df0 := match all_rows with [] => Frame.empty | _ :: _ => Frame.concat all_rows end).
  destruct (Frame.len df0 =? 0)%nat eqn:Elen; [now exists df0|].
  set (df1 := Frame.assign "total_items" (VInt (Z.of_nat (Frame.len df0))) df0).
  destruct (Frame.select _ df1) as [e|df2] eqn:Esel; cbn [bind]; [|eexists; reflexivity].
  exfalso. apply select_missing in Esel. destruct Esel as (c & _ & Hc' & Hmissing).
  apply Hmissing. apply in_app_or in Hc'. destruct Hc' as [Hc'|Hc'].
  - unfold df1. apply assign_columns.
    cbn in Hc'. destruct Hc' as [<-|[<-|[<-|[]]]]; [right | right | now left].
    all: unfold df0; destruct all_rows as [|f fs] eqn:Ea;
      [cbn in Elen; discriminate|]; rewrite <- Ea in *;
      apply concat_columns; exists f; (split; [rewrite Ea; now left|]);
      destruct (parts_of _ known_types) as [|p ps] eqn:Ep; [rewrite Hrows in Ea; discriminate|];
      assert (Hp : In p (parts_of (fun tag => filter (type_is tag) cleaned) known_types))
        by (rewrite Ep; now left);
      rewrite Hrows in Ea; cbn [map] in Ea; injection Ea as <- _; cbn [table_of columns];
      unfold parts_of in Hp; apply in_flat_map in Hp; destruct Hp as (tag & _ & Hp);
      destruct (filter (type_is tag) cleaned); [destruct Hp|];
      destruct Hp as [<-|[]]; cbn [fst]; unfold frame_labels; apply in_or_app; left;
      cbn; tauto.
  - apply sorted_In, filter_In in Hc'. now destruct Hc'.
Qed.

Lemma has_field_without c (r : dict) :
  ~ In c artifact_fields ->
  (In c (Dict.keys (Dict.without artifact_fields r)) <-> In c (Dict.keys r)).
Proof.
  intros Hc. rewrite <- !contains_key. unfold Dict.contains. rewrite get_without.
  destruct (existsb (String.eqb c) artifact_fields) eqn:E; [|reflexivity].
  apply existsb_exists in E. destruct E as (x & I & E). apply String.eqb_eq in E.
  subst. contradiction.
Qed.

(** X4: [normalize] raises in two cases only.  It raises [TypeError] when
    the type value of some record is unhashable (a list or a dict).
    Otherwise it raises [KeyError] for [source_index] when one of the four
    types has records, none of which has the field [source_index].  In
    every other case it returns a table. *)
Theorem normalize_raises (self : ETLPipeline) (e : exn) :
  normalize self = inl e
  <-> (e = TypeError
       /\ exists r, In r (extracted_data self) /\ hashable (record_type r) = false)
      \/ (e = KeyError "source_index"
          /\ (forall r, In r (extracted_data self) -> hashable (record_type r) = true)
          /\ exists tag,
               In tag known_types
               /\ (exists r, In r (extracted_data self) /\ type_is tag r = true)
               /\ forall r, In r (extracted_data self) -> type_is tag r = true ->
                            ~ has_field "source_index" r).
Proof.
  unfold normalize, normalize_records.
  set (data := extracted_data self). set (cleaned := map (Dict.without artifact_fields) data).
  assert (Hall : forallb (fun r => hashable (record_type r)) cleaned
                 = forallb (fun r => hashable (record_type r)) data).
  { unfold cleaned. clearbody data. induction data as [|r rs IH]; [reflexivity|].
    cbn [map forallb]. now rewrite record_type_without, IH. }
  destruct (forallb (fun r => hashable (record_type r)) data) eqn:Hhash.
  - assert (Hh : forall r, In r data -> hashable (record_type r) = true)
      by now apply forallb_forall.
    destruct (group_by_type_members cleaned Hall) as (g & Hg & Hb).
    set (members := fun tag => filter (type_is tag) cleaned) in *.
    assert (Htype : forall tag r, In tag known_types -> In r (members tag) ->
                                  In "type" (Dict.keys r)).
    { intros tag r Htag Hr. apply filter_In in Hr. exact (type_is_has_type tag r Htag (proj2 Hr)). }
    assert (Hbad : forall tag,
              (members tag <> []
               /\ forall r, In r (members tag) -> ~ In "source_index" (Dict.keys r))
              <-> ((exists r, In r data /\ type_is tag r = true)
                   /\ forall r, In r data -> type_is tag r = true ->
                                ~ has_field "source_index" r)).
    { intros tag. unfold members, cleaned. rewrite filter_map_commute.
      rewrite (filter_ext _ (type_is tag) (type_is_without tag)). split.
      - intros [Hne Hnone]. split.
        + destruct (filter (type_is tag) data) as [|r0 rs] eqn:Ef; [now elim Hne|].
          exists r0. apply filter_In. rewrite Ef. now left.
        + intros r Hr Ht Hf. apply (Hnone (Dict.without artifact_fields r)).
          * apply in_map, filter_In. now split.
          * apply (proj2 (has_field_without "source_index" r
                            ltac:(cbn; intuition discriminate))).
            exact Hf.
      - intros [(r0 & Hr0 & Ht0) Hnone]. split.
        + intros E. apply map_eq_nil in E.
          assert (I : In r0 (filter (type_is tag) data)) by (apply filter_In; now split).
          rewrite E in I. destruct I.
        + intros r Hr Hf. apply in_map_iff in Hr. destruct Hr as (r1 & <- & Hr1).
          apply filter_In in Hr1. destruct Hr1 as [Hr1 Ht1].
          apply (Hnone r1 Hr1 Ht1).
          apply (proj1 (has_field_without "source_index" r1
                          ltac:(cbn; intuition discriminate))).
          exact Hf. }
    destruct (build_frames g) as [e0|all_rows] eqn:Hframes.
    + assert (Hn : normalize_cleaned cleaned = inl e0).
      { unfold normalize_cleaned. rewrite Hg. cbn [bind]. now rewrite Hframes. }
      rewrite Hn.
      destruct (frames_loop_error g members known_types Hb Htype [] e0 Hframes)
        as [-> (tag & Htag & Hm)].
      split.
      * intros [= <-]. right. split; [reflexivity|]. split; [exact Hh|].
        exists tag. split; [exact Htag|]. now apply Hbad.
      * intros [[_ (r & Hr & Hu)]|[-> _]]; [|reflexivity].
        rewrite (Hh r Hr) in Hu. discriminate.
    + destruct (normalize_after_frames cleaned g all_rows Hg Hb Hframes) as (df & Hdf).
      rewrite Hdf. split; [discriminate|].
      intros [[_ (r & Hr & Hu)]|[_ [_ (tag & Htag & Hm)]]].
      * rewrite (Hh r Hr) in Hu. discriminate.
      * apply Hbad in Hm. unfold build_frames in Hframes.
        rewrite (frames_loop_fails g members known_types Hb Htype) in Hframes;
          [discriminate|]. now exists tag.
  - assert (Hn : normalize_cleaned cleaned = inl TypeError).
    { unfold normalize_cleaned. now rewrite group_by_type_unhashable. }
    rewrite Hn. split.
    + intros [= <-]. left. split; [reflexivity|].
      assert (Hex : existsb (fun r => negb (hashable (record_type r))) data = true).
      { clear -Hhash. induction data as [|r rs IH]; [discriminate|].
        cbn [forallb existsb] in *. destruct (hashable (record_type r)); cbn in *; auto. }
      apply existsb_exists in Hex. destruct Hex as (r & Hr & Hu).
      exists r. split; [exact Hr | now apply negb_true_iff].
    + intros [[-> _]|[_ [Hh _]]]; [reflexivity|].
      assert (forallb (fun r => hashable (record_type r)) data = true)
        by now apply forallb_forall.
      congruence.
Qed.

End NormalizeRaises.

Lemma normalize_raises_witness :
  normalize {| extracted_data :=
                 [ [("type", VStr "json"); ("source_index", VStr "json_0")];
                   [("type", VStr "text"); ("title", VStr "no index")] ];
               schema := [] |}
  = inl (KeyError "source_index").
Proof.
  apply (proj2 (normalize_raises _ _)). right. split; [reflexivity|]. split.
  - intros r [<-|[<-|[]]]; reflexivity.
  - exists "text". split; [cbn; tauto|]. split.
    + eexists. split; [right; now left | reflexivity].
    + intros r [<-|[<-|[]]] Ht; [discriminate Ht|].
      unfold has_field. cbn. intuition discriminate.
Defined.

(** ** [normalize] after [infer_schema] *)

Section TableIgnoresFill.

Lemma string_leb_trans a b c :
  String.leb a b = true -> String.leb b c = true -> String.leb a c = true.
Proof.
  revert b c. induction a as [|x a IH]; intros [|y b] [|z c]; unfold String.leb;
    cbn [String.compare]; try easy.
  unfold Ascii.compare.
  destruct (N.compare_spec (N_of_ascii x) (N_of_ascii y)) as [Exy|Lxy|Gxy];
    destruct (N.compare_spec (N_of_ascii y) (N_of_ascii z)) as [Eyz|Lyz|Gyz];
    destruct (N.compare_spec (N_of_ascii x) (N_of_ascii z)) as [Exz|Lxz|Gxz];
    try easy; try lia.
  apply IH.
Qed.

Lemma ascending_unique l1 l2 :
  Sorted label_le l1 -> Sorted label_le l2 ->
  NoDup l1 -> NoDup l2 -> (forall c, In c l1 <-> In c l2) -> l1 = l2.
Proof.
  intros S1 S2 N1 N2 Hin.
  assert (Htrans : Relations_1.Transitive label_le)
    by (intros a b c; apply string_leb_trans).
  apply (Sorted_StronglySorted Htrans) in S1, S2.
  pose proof (NoDup_Permutation N1 N2 Hin) as P. clear N1 N2 Hin.
  revert l2 S2 P. induction S1 as [|x l1 S1 IH Hx]; intros l2 S2 P.
  - apply Permutation_nil in P. now subst.
  - destruct S2 as [|y l2 S2 Hy]; [apply Permutation_sym, Permutation_nil in P; discriminate|].
    assert (E : x = y).
    { assert (Ix : In x (y :: l2)) by (apply (Permutation_in _ P); now left).
      assert (Iy : In y (x :: l1)) by (apply (Permutation_in _ (Permutation_sym P)); now left).
      destruct Ix as [->|Ix]; [reflexivity|]. destruct Iy as [->|Iy]; [reflexivity|].
      rewrite Forall_forall in Hx, Hy. apply String.leb_antisym; [now apply Hx | now apply Hy]. }
    subst y. f_equal. apply IH; [exact S2 | exact (Permutation_cons_inv P)].
Qed.

(** The type of a record and its stripped fields do not change when the
    record is filled. *)
Lemma record_type_fill keys (r : dict) :
  In "type" (Dict.keys r) -> record_type (fill_missing keys r) = record_type r.
Proof.
  intros H. unfold record_type. rewrite fill_missing_get.
  apply contains_key in H. unfold Dict.contains in H.
  now destruct (Dict.get "type" r).
Qed.

Lemma py_get_fill keys c (r : dict) : py_get c (fill_missing keys r) = py_get c r.
Proof.
  unfold py_get. rewrite fill_missing_get. destruct (Dict.get c r); [reflexivity|].
  now destruct (in_dec string_dec c keys).
Qed.

Lemma known_type_has_type r : known_type r = true -> In "type" (Dict.keys r).
Proof.
  unfold known_type. rewrite existsb_exists. intros (tag & Htag & Ht).
  exact (type_is_has_type tag r Htag Ht).
Qed.

Lemma known_in_order data r :
  In r data -> known_type r = true -> In r (rows_in_order data).
Proof.
  intros Hr Hk. unfold known_type in Hk. apply existsb_exists in Hk.
  destruct Hk as (tag & Htag & Ht). unfold rows_in_order. apply in_flat_map.
  exists tag. split; [exact Htag | apply filter_In; now split].
Qed.

Lemma keys_fill keys (r : dict) c :
  In c (Dict.keys (fill_missing keys r)) <-> In c (Dict.keys r) \/ In c keys.
Proof.
  rewrite <- !contains_key. unfold Dict.contains. rewrite fill_missing_get.
  destruct (Dict.get c r); [intuition|].
  destruct (in_dec string_dec c keys); intuition discriminate.
Qed.

(** The table of the filled records is the table of the records. *)
Lemma normalize_records_fill (env : environment) (data : list dict) :
  (forall r, In r data -> known_type r = true /\ has_field "source_index" r) ->
  normalize_records
    (map (fill_missing (PySet.to_list (set_rank env AllKeys) (flat_map Dict.keys data))) data)
  = normalize_records data.
Proof.
  intros Hwf. set (all_keys := PySet.to_list _ _).
  assert (Hkeys : forall k, In k all_keys <-> exists r, In r data /\ In k (Dict.keys r))
    by (intros k; apply all_keys_In).
  set (data' := map (fill_missing all_keys) data).
  assert (Hhash : forall d, (forall r, In r d -> known_type r = true /\ has_field "source_index" r)
                            -> forallb (fun r => hashable (record_type r)) d = true).
  { intros d Hd. apply forallb_forall. intros r Hr.
    apply known_type_hashable. now apply Hd. }
  assert (Hwf' : forall r, In r data' -> known_type r = true /\ has_field "source_index" r).
  { intros r' Hr'. apply in_map_iff in Hr'. destruct Hr' as (r & <- & Hr).
    destruct (Hwf r Hr) as [Hk Hs]. split.
    - unfold known_type, type_is in *.
      now rewrite (record_type_fill all_keys r (known_type_has_type r Hk)).
    - apply keys_fill. now left. }
  destruct (normalize_records_returns data (Hhash _ Hwf))
    as (df & Hdf); [intros r Hr _; now apply Hwf|].
  destruct (normalize_records_returns data' (Hhash _ Hwf'))
    as (df' & Hdf'); [intros r Hr _; now apply Hwf'|].
  rewrite Hdf, Hdf'. f_equal.
  assert (Hrows : rows_in_order data' = map (fill_missing all_keys) (rows_in_order data)).
  { unfold rows_in_order, data'. clear -Hwf.
    induction known_types as [|tag tags IH]; [reflexivity|].
    cbn [flat_map]. rewrite map_app, IH. f_equal.
    rewrite filter_map_commute. f_equal. apply filter_ext_in. intros r Hr.
    unfold type_is. rewrite record_type_fill; [reflexivity|].
    apply known_type_has_type. now apply Hwf. }
  pose proof (normalize_records_len _ _ Hdf) as Hlen.
  pose proof (normalize_records_len _ _ Hdf') as Hlen'.
  rewrite Hrows, length_map in Hlen'.
  pose proof (normalize_records_table _ _ Hdf) as Ht.
  pose proof (normalize_records_table _ _ Hdf') as Ht'.
  cbv zeta in Ht, Ht'. rewrite rows_in_order_cleaned in Ht, Ht'. rewrite Hrows in Ht'.
  destruct Ht as [_ [[E ->]|(Hne & (others & Hc & Hothers) & Htable)]].
  { apply map_eq_nil in E. rewrite E in Ht'. cbn [map] in Ht'.
    destruct Ht' as [_ [[_ ->]|[Hne' _]]]; [reflexivity | now elim Hne']. }
  destruct Ht' as [_ [[E _]|(_ & (others' & Hc' & Hothers') & Htable')]].
  { apply map_eq_nil, map_eq_nil in E. rewrite E in Hne. now elim Hne. }
  assert (Hpos : Frame.len df <> 0).
  { rewrite Hlen. intros E. apply length_zero_iff_nil in E. rewrite E in Hne. now elim Hne. }
  assert (Hpos' : Frame.len df' <> 0) by now rewrite Hlen', <- Hlen.
  destruct (normalize_records_labels _ _ Hdf Hpos) as (gathered & Hnd & Hcols).
  destruct (normalize_records_labels _ _ Hdf' Hpos') as (gathered' & Hnd' & Hcols').
  pose proof (fun c => table_column_origin data df c Hdf) as Horigin.
  assert (Hsame : columns df' = columns df).
  { rewrite Hcols, Hcols'. f_equal.
    assert (Hmem : forall c, In c (columns df') <-> In c (columns df)).
    { intros c. rewrite Hc, Hc', !in_app_iff, !sorted_In, Hothers, Hothers'.
      assert (Hex : (exists r, In r (map (Dict.without artifact_fields)
                                         (map (fill_missing all_keys) (rows_in_order data)))
                               /\ In c (Dict.keys r))
                    <-> (exists r, In r (map (Dict.without artifact_fields) (rows_in_order data))
                                   /\ In c (Dict.keys r))).
      { split.
        - intros (r & Hr & Hin). apply in_map_iff in Hr. destruct Hr as (r1 & <- & Hr1).
          apply in_map_iff in Hr1. destruct Hr1 as (r2 & <- & Hr2).
          apply without_keys in Hin. destruct Hin as [Hin Hart].
          apply keys_fill in Hin. destruct Hin as [Hin|Hin].
          + exists (Dict.without artifact_fields r2). split; [now apply in_map|].
            now apply has_field_without.
          + apply Hkeys in Hin. destruct Hin as (r3 & Hr3 & Hin3).
            exists (Dict.without artifact_fields r3). split.
            * apply in_map, known_in_order; [exact Hr3 | now apply Hwf].
            * now apply has_field_without.
        - intros (r & Hr & Hin). apply in_map_iff in Hr. destruct Hr as (r1 & <- & Hr1).
          exists (Dict.without artifact_fields (fill_missing all_keys r1)).
          split; [now apply in_map, in_map|].
          apply without_keys in Hin. destruct Hin as [Hin Hart].
          apply has_field_without; [exact Hart|]. apply keys_fill. now left. }
      rewrite Hex. reflexivity. }
    apply ascending_unique; try apply sorted_ascending.
    - apply (Permutation_NoDup (Permutation_sym (sorted_perm _))). now apply NoDup_filter.
    - apply (Permutation_NoDup (Permutation_sym (sorted_perm _))). now apply NoDup_filter.
    - intros c. specialize (Hmem c). rewrite Hcols, Hcols', !in_app_iff in Hmem.
      split; intros Hin.
      + assert (Hn : ~ In c core_order).
        { apply sorted_In, filter_In in Hin. destruct Hin as [_ Hn].
          apply negb_true_iff in Hn. now apply mem_false. }
        destruct (proj1 Hmem (or_intror Hin)) as [H|H]; [contradiction | exact H].
      + assert (Hn : ~ In c core_order).
        { apply sorted_In, filter_In in Hin. destruct Hin as [_ Hn].
          apply negb_true_iff in Hn. now apply mem_false. }
        destruct (proj2 Hmem (or_intror Hin)) as [H|H]; [contradiction | exact H]. }
  rewrite Htable', Htable, Hsame. unfold table_of. f_equal.
  rewrite !map_map, !length_map. apply map_ext. intros r. apply map_ext_in. intros c Hin.
  unfold final_cell. destruct (String.eqb c "total_items"); [reflexivity|].
  destruct (Horigin c Hin) as [Hart _].
  now rewrite !py_get_without, py_get_fill.
Qed.

(** X5: the fill of [infer_schema] does not show in the table.  When
    every record has one of the four types and a [source_index], as the
    records of [extract] have, [normalize] returns a table before
    [infer_schema] and after it, whatever the order in which
    [infer_schema] went through the keys; the two tables have the same
    labels and the same number of rows, a cell is null in one when it is
    null in the other, and a cell is a string in one when it is the same
    string in the other.  (The nulls written into the records can change
    the type pandas gives a column, and with it how a number is stored;
    this is not stated.) *)
Theorem table_ignores_fill (env : environment) (self : ETLPipeline) :
  (forall r, In r (extracted_data self) ->
             known_type r = true /\ has_field "source_index" r) ->
  exists df df',
    normalize self = inr df
    /\ normalize (infer_schema env self) = inr df'
    /\ columns df' = columns df
    /\ Frame.len df' = Frame.len df
    /\ forall i row row' c,
         nth_error (rows df) i = Some row ->
         nth_error (rows df') i = Some row' ->
         In c (columns df) ->
         same_null_or_string (Frame.cell (columns df) row c)
                             (Frame.cell (columns df') row' c).
Proof.
  intros Hwf.
  destruct (normalize_records_returns (extracted_data self)) as (df & Hdf).
  { apply forallb_forall. intros r Hr. apply known_type_hashable. now apply Hwf. }
  { intros r Hr _. now apply Hwf. }
  exists df, df. split; [exact Hdf|]. split.
  { unfold normalize, infer_schema. cbn [extracted_data].
    rewrite normalize_records_fill by exact Hwf. exact Hdf. }
  split; [reflexivity|]. split; [reflexivity|].
  intros i row row' c Hrow Hrow' _. rewrite Hrow in Hrow'. injection Hrow' as <-.
  split; [reflexivity | intros s; reflexivity].
Qed.

Lemma table_ignores_fill_witness :
  let self :=
    {| extracted_data :=
         [ [("type", VStr "json"); ("source_index", VStr "json_0"); ("a", VStr "x")];
           [("type", VStr "text"); ("title", VStr "Hello"); ("source_index", VStr "text_0")] ];
       schema := [] |} in
  exists df',
    normalize (infer_schema sample_env self) = inr df'
    /\ columns df' = ["type"; "source_index"; "total_items"; "a"]
    /\ Frame.len df' = 2.
Proof.
  cbv zeta.
  destruct (table_ignores_fill sample_env
              {| extracted_data :=
                   [ [("type", VStr "json"); ("source_index", VStr "json_0"); ("a", VStr "x")];
                     [("type", VStr "text"); ("title", VStr "Hello");
                      ("source_index", VStr "text_0")] ];
                 schema := [] |})
    as (df & df' & Hdf & Hdf' & Hcols & Hlen & _).
  - intros r [<-|[<-|[]]]; (split; [reflexivity|]); unfold has_field; cbn; tauto.
  - exists df'. split; [exact Hdf'|]. rewrite Hcols, Hlen.
    vm_compute in Hdf. injection Hdf as <-. split; reflexivity.
Defined.

End TableIgnoresFill.

(** ** [extract] and [run] on a new pipeline *)

Section ExtractOrder.
Variable env : environment.

Lemma extract_all_type_is tag extractor t spans tag' r :
  (forall s, record_type (extractor s) = VStr t) ->
  In r (extract_all tag extractor spans) -> type_is tag' r = String.eqb tag' t.
Proof.
  intros H I. unfold type_is. now rewrite (extract_all_types tag extractor t spans r H I).
Qed.

Lemma filter_group tag extractor t spans tag' :
  (forall s, record_type (extractor s) = VStr t) ->
  filter (type_is tag') (extract_all tag extractor spans)
  = if String.eqb tag' t then extract_all tag extractor spans else [].
Proof.
  intros H. destruct (String.eqb tag' t) eqn:E.
  - apply filter_all. intros r I.
    now rewrite (extract_all_type_is _ _ _ _ tag' r H I).
  - apply filter_none. intros r I.
    now rewrite (extract_all_type_is _ _ _ _ tag' r H I).
Qed.

(** The loops of [extract] go through the types in the order of the tags
    of [normalize]. *)
Lemma rows_in_order_extract content :
  rows_in_order (extracted_data (extract env content new_pipeline))
  = extracted_data (extract env content new_pipeline).
Proof.
  unfold extract, rows_in_order, known_types.
  cbn [extracted_data new_pipeline app flat_map].
  rewrite !filter_app.
  rewrite !(filter_group "html" (extract_html env) "html") by reflexivity.
  rewrite !(filter_group "json" extract_json "json") by apply extract_json_type.
  rewrite !(filter_group "text" extract_text "text") by reflexivity.
  rewrite !(filter_group "media" extract_media "media") by reflexivity.
  cbn. now rewrite !app_nil_r.
Qed.

(** The records of [extract] on a new pipeline are well formed. *)
Lemma extract_well_formed content :
  well_formed (extracted_data (extract env content new_pipeline)).
Proof.
  intros r Hr. destruct (extract_records_well_formed env content r Hr)
    as [(tag & Htag & Ht) Hs].
  split; [|exact Hs]. apply (type_is_known tag r Htag).
  unfold type_is, record_type. rewrite Ht. cbn. apply String.eqb_refl.
Qed.

(** The table of well-formed records that come grouped by type in the
    order of the tags: row by row, the records. *)
Lemma normalize_records_in_order data :
  well_formed data ->
  rows_in_order data = data ->
  exists df,
    normalize_records data = inr df
    /\ Frame.len df = List.length data
    /\ (forall c, In c (columns df) -> ~ In c artifact_fields)
    /\ forall i record,
         nth_error data i = Some record ->
         exists row,
           nth_error (rows df) i = Some row
           /\ forall c, In c (columns df) ->
                Frame.cell (columns df) row c = final_cell (List.length data) record c.
Proof.
  intros Hwf Hrio.
  destruct (normalize_records_returns data) as (df & Hdf).
  { apply forallb_forall. intros r Hr. apply known_type_hashable. now apply Hwf. }
  { intros r Hr _. now apply Hwf. }
  exists df. split; [exact Hdf|].
  pose proof (normalize_records_len _ _ Hdf) as Hlen. rewrite Hrio in Hlen.
  split; [exact Hlen|].
  pose proof (fun c => table_column_origin data df c Hdf) as Horigin.
  split; [intros c Hin; exact (proj1 (Horigin c Hin))|].
  intros i record Hi.
  apply normalize_records_table in Hdf. cbv zeta in Hdf.
  rewrite rows_in_order_cleaned in Hdf. rewrite Hrio in Hdf.
  destruct Hdf as [_ [[E _]|(_ & _ & Htable)]].
  { apply map_eq_nil in E. rewrite E in Hi. destruct i; discriminate. }
  exists (map (final_cell (List.length data) (Dict.without artifact_fields record))
              (columns df)).
  split.
  - rewrite Htable at 1. cbn [rows table_of]. rewrite !length_map, !map_map.
    rewrite nth_error_map, Hi. reflexivity.
  - intros c Hin. rewrite cell_map. apply mem_In in Hin. rewrite Hin.
    unfold final_cell.
    destruct (String.eqb_spec c "total_items") as [->|Hne]; [reflexivity|].
    apply py_get_without. apply mem_In in Hin. exact (proj1 (Horigin c Hin)).
Qed.

Lemma bare_record_keys content r :
  In r (extracted_data (extract env content new_pipeline)) ->
  type_is "json" r = false ->
  Dict.keys r = ["type"; "title"; "word_count"; "source_index"].
Proof.
  unfold extract. cbn [extracted_data new_pipeline app]. rewrite !in_app_iff.
  intros [H|[H|[H|H]]] Hj.
  - unfold extract_all in H. apply in_map_iff in H. now destruct H as ([i s] & <- & _).
  - rewrite (extract_all_type_is _ _ "json" _ "json" r extract_json_type H) in Hj.
    discriminate.
  - unfold extract_all in H. apply in_map_iff in H. now destruct H as ([i s] & <- & _).
  - unfold extract_all in H. apply in_map_iff in H. now destruct H as ([i s] & <- & _).
Qed.

(** X7: only the JSON records bring data into the table.  The row of an
    HTML, text or media record holds its type, its [source_index] and
    [total_items]; under every other label it is null. *)
Theorem run_rows_bare_unless_json (content : string) (i : nat) (record : dict) :
  nth_error (extracted_data (extract env content new_pipeline)) i = Some record ->
  type_is "json" record = false ->
  exists df row,
    snd (run_stages env content) = inr df
    /\ nth_error (rows df) i = Some row
    /\ forall c, In c (columns df) -> ~ In c core_order ->
         Frame.cell (columns df) row c = VNone.
Proof.
  intros Hi Hj.
  pose proof (extract_well_formed content) as Hwf.
  destruct (normalize_records_in_order _ Hwf (rows_in_order_extract content))
    as (df & Hdf & _ & Hart & Hrows).
  destruct (Hrows i record Hi) as (row & Hrow & Hcell).
  exists df, row. split; [|split; [exact Hrow|]].
  { unfold run_stages, normalize, infer_schema. cbn [snd extracted_data].
    rewrite normalize_records_fill by exact Hwf. exact Hdf. }
  intros c Hin Hcore. rewrite (Hcell c Hin). unfold final_cell.
  destruct (String.eqb_spec c "total_items") as [->|Hne];
    [elim Hcore; cbn; tauto|].
  apply py_get_missing. rewrite (bare_record_keys content record (nth_error_In _ _ Hi) Hj).
  specialize (Hart c Hin). cbn in Hart, Hcore |- *. intuition.
Qed.

End ExtractOrder.

Lemma run_rows_bare_unless_json_witness :
  exists df row,
    snd (run_stages sample_env example_document) = inr df
    /\ nth_error (rows df) 2 = Some row
    /\ In "a" (columns df)
    /\ Frame.cell (columns df) row "a" = VNone.
Proof.
  destruct (run_rows_bare_unless_json sample_env example_document 2
              [("type", VStr "text"); ("title", VStr "Hello world this is text");
               ("word_count", VInt 5); ("source_index", VStr "text_0")])
    as (df & row & Hrun & Hrow & Hcell); [reflexivity | reflexivity |].
  exists df, row. split; [exact Hrun|]. split; [exact Hrow|].
  assert (Hin : In "a" (columns df)).
  { vm_compute in Hrun. injection Hrun as <-. cbn. tauto. }
  split; [exact Hin|]. apply Hcell; [exact Hin|]. cbn. intuition discriminate.
Defined.

(** ** [extract]: the values of [source_index] *)

Section SourceIndex.
Variable env : environment.

Lemma of_nat_inj a b : PyStr.of_nat a = PyStr.of_nat b -> a = b.
Proof.
  unfold PyStr.of_nat. intros H.
  apply (f_equal NilEmpty.uint_of_string) in H. rewrite !NilEmpty.usu in H.
  injection H as H. apply (f_equal Nat.of_uint) in H.
  now rewrite !Unsigned.of_to in H.
Qed.

Lemma extract_all_indexes tag extractor spans :
  map (py_get "source_index") (extract_all tag extractor spans)
  = map (fun i => VStr (tag ++ "_" ++ PyStr.of_nat i)%string)
        (seq 0 (List.length spans)).
Proof.
  unfold extract_all, enumerate. rewrite map_map.
  generalize 0. induction spans as [|s spans IH]; intros start; [reflexivity|].
  cbn [List.length seq combine map fst snd]. f_equal; [|apply IH].
  unfold py_get. now rewrite get_setitem_eq.
Qed.

Lemma string_app_inv_head (p a b : string) : (p ++ a = p ++ b)%string -> a = b.
Proof.
  induction p as [|c p IH]; cbn; intros H; [exact H|]. injection H as H. now apply IH.
Qed.

Lemma indexes_NoDup tag n :
  NoDup (map (fun i => VStr (tag ++ "_" ++ PyStr.of_nat i)%string) (seq 0 n)).
Proof.
  apply NoDup_map_NoDup_ForallPairs; [|apply seq_NoDup].
  intros a b _ _ H. injection H as H.
  apply string_app_inv_head in H. injection H as H. now apply of_nat_inj.
Qed.

(** X8: on a new pipeline, no two records of [extract] have the same
    [source_index]: the value names the type of the record and its rank
    among the records of that type. *)
Theorem extract_source_index_distinct (content : string) :
  NoDup (map (py_get "source_index")
             (extracted_data (extract env content new_pipeline))).
Proof.
  unfold extract. cbn [extracted_data new_pipeline app].
  rewrite !map_app, !extract_all_indexes.
  assert (Hfirst : forall tag n v,
            In v (map (fun i => VStr (tag ++ "_" ++ PyStr.of_nat i)%string) (seq 0 n)) ->
            exists rest, v = VStr (tag ++ rest)%string).
  { intros tag n v Hv. apply in_map_iff in Hv. destruct Hv as (i & <- & _). eauto. }
  repeat apply NoDup_app; try apply indexes_NoDup;
    intros v Hv; rewrite ?in_app_iff; intros Hv';
    apply Hfirst in Hv; destruct Hv as (rest & ->);
    repeat destruct Hv' as [Hv'|Hv'];
    apply Hfirst in Hv'; destruct Hv' as (rest' & Hv'); discriminate Hv'.
Qed.

End SourceIndex.

(** ** One pipeline for several files *)

Section ReusedPipeline.
Variable env : environment.

Lemma key_eqb_str_class tag t k :
  key_eqb t k = true -> key_eqb (VStr tag) k = key_eqb (VStr tag) t.
Proof.
  destruct t, k; cbn; intros H; try discriminate; try reflexivity;
    apply String.eqb_eq in H; now subst.
Qed.

Lemma tally_of_tally tag t counts :
  tally_of (VStr tag) (tally t counts)
  = tally_of (VStr tag) counts + (if key_eqb (VStr tag) t then 1 else 0).
Proof.
  induction counts as [|[k n] rest IH]; cbn [tally tally_of].
  - destruct (key_eqb (VStr tag) t); reflexivity.
  - destruct (key_eqb t k) eqn:E; cbn [tally_of].
    + rewrite (key_eqb_str_class tag t k E).
      destruct (key_eqb (VStr tag) t); lia.
    + destruct (key_eqb (VStr tag) k) eqn:E'; [|exact IH].
      destruct (key_eqb (VStr tag) t) eqn:E''; [|lia].
      exfalso. destruct t, k; cbn in *; try discriminate;
        apply String.eqb_eq in E', E''; subst; now rewrite String.eqb_refl in E.
Qed.

Lemma tally_items_hashable data counts :
  forallb (fun r => hashable (record_type r)) data = true ->
  exists counts',
    tally_items data counts = (None, counts')
    /\ forall tag, tally_of (VStr tag) counts'
                   = tally_of (VStr tag) counts + records_of_type tag data.
Proof.
  revert counts. induction data as [|r data IH]; intros counts H.
  - exists counts. split; [reflexivity|]. intros tag. cbn. lia.
  - cbn [forallb] in H. apply andb_true_iff in H. destruct H as [Hr H].
    cbn [tally_items]. rewrite Hr.
    destruct (IH (tally (record_type r) counts) H) as (counts' & E & Hc).
    exists counts'. split; [exact E|]. intros tag.
    rewrite Hc, tally_of_tally. unfold records_of_type, type_is. cbn [filter].
    destruct (key_eqb (VStr tag) (record_type r)); cbn [List.length]; lia.
Qed.


Lemma well_formed_hashable data :
  well_formed data -> forallb (fun r => hashable (record_type r)) data = true.
Proof.
  intros H. apply forallb_forall. intros r Hr. apply known_type_hashable. now apply H.
Qed.


Lemma well_formed_infer_schema self :
  well_formed (extracted_data self) ->
  well_formed (extracted_data (infer_schema env self)).
Proof.
  intros H r' Hr'. unfold infer_schema in Hr'. cbn [extracted_data] in Hr'.
  apply in_map_iff in Hr'. destruct Hr' as (r & <- & Hr).
  destruct (H r Hr) as [Hk Hs]. split.
  - unfold known_type, type_is in *.
    now rewrite (record_type_fill _ r (known_type_has_type r Hk)).
  - apply keys_fill. now left.
Qed.

Lemma type_is_exclusive r :
  known_type r = true ->
  (if type_is "html" r then 1 else 0) + (if type_is "json" r then 1 else 0)
  + (if type_is "text" r then 1 else 0) + (if type_is "media" r then 1 else 0) = 1.
Proof.
  unfold known_type, known_types, type_is. cbn [existsb].
  destruct (record_type r); cbn [key_eqb]; try discriminate;
    repeat match goal with
           | |- context [String.eqb ?a ?b] =>
               destruct (String.eqb_spec a b); [subst; reflexivity|]
           end; discriminate.
Qed.

Lemma rows_in_order_length data :
  (forall r, In r data -> known_type r = true) ->
  List.length (rows_in_order data) = List.length data.
Proof.
  intros H. rewrite rows_in_order_groups, !length_app.
  induction data as [|r data IH]; [reflexivity|].
  pose proof (type_is_exclusive r (H r (or_introl eq_refl))) as Hr.
  specialize (IH (fun r' I => H r' (or_intror I))).
  cbn [filter List.length].
  destruct (type_is "html" r), (type_is "json" r), (type_is "text" r),
    (type_is "media" r); cbn [List.length] in *; lia.
Qed.



End ReusedPipeline.


(** ** [run] when the HTML parser can raise *)

Section GuardedRun.
Variable env : environment.
Variable parser_raises : string -> bool.

Lemma html_loop_records spans records raised :
  html_loop env parser_raises spans = (records, raised) ->
  well_formed records
  /\ raised = existsb (fun ix => parser_raises (snd ix)) spans
  /\ (raised = false ->
      records = map (fun ix => Dict.setitem "source_index"
                                 (VStr ("html" ++ "_" ++ PyStr.of_nat (fst ix))%string)
                                 (extract_html env (snd ix)))
                    spans).
Proof.
  revert records raised. induction spans as [|[idx html] spans IH]; intros records raised H.
  - injection H as <- <-. split; [intros r []|]. split; reflexivity.
  - cbn [html_loop] in H. cbn [existsb snd]. destruct (parser_raises html) eqn:E.
    + injection H as <- <-. split; [intros r []|]. split; [reflexivity | discriminate].
    + destruct (html_loop env parser_raises spans) as [records' raised'] eqn:E'.
      injection H as <- <-. destruct (IH _ _ eq_refl) as (Hwf & Hraised & Hall).
      split; [|split; [exact Hraised|]].
      * intros r [<-|Hr]; [|now apply Hwf]. split.
        -- apply (type_is_known "html"); [cbn; tauto|].
           reflexivity.
        -- unfold has_field. cbn. tauto.
      * intros Hr. cbn [map fst snd]. f_equal. now apply Hall.
Qed.

(** [extract] appends the same records to any pipeline. *)
Lemma extract_guarded_appends content self :
  extracted_data (fst (extract_guarded env parser_raises content self))
  = extracted_data self
    ++ extracted_data (fst (extract_guarded env parser_raises content new_pipeline))
  /\ snd (extract_guarded env parser_raises content self)
     = parser_stops env parser_raises content.
Proof.
  unfold parser_stops, extract_guarded.
  destruct (html_loop env parser_raises _) as [records raised]. split; reflexivity.
Qed.

(** When the parser raises on no span, [extract] is as without the
    exception. *)
Lemma extract_guarded_clean content self :
  parser_stops env parser_raises content = false ->
  extract_guarded env parser_raises content self = (extract env content self, false).
Proof.
  unfold parser_stops, extract_guarded, extract.
  destruct (html_loop env parser_raises _) as [records raised] eqn:E. cbn [snd].
  intros ->. destruct (html_loop_records _ _ _ E) as (_ & _ & Hall).
  now rewrite (Hall eq_refl).
Qed.

Lemma extract_guarded_well_formed content :
  well_formed (extracted_data (fst (extract_guarded env parser_raises content new_pipeline))).
Proof.
  destruct (parser_stops env parser_raises content) eqn:Es.
  - revert Es. unfold parser_stops, extract_guarded.
    destruct (html_loop env parser_raises _) as [records raised] eqn:E. cbn [snd fst].
    intros ->. cbn [extracted_data new_pipeline app]. rewrite app_nil_r.
    exact (proj1 (html_loop_records _ _ _ E)).
  - rewrite (extract_guarded_clean content new_pipeline Es). apply extract_well_formed.
Qed.

(** One call of [run] on a pipeline whose records are well formed. *)
Lemma run_guarded_step content st :
  well_formed (extracted_data (pipeline st)) ->
  let st' := fst (run_guarded env parser_raises content st) in
  let result := snd (run_guarded env parser_raises content st) in
  well_formed (extracted_data (pipeline st'))
  /\ List.length (extracted_data (pipeline st'))
     = List.length (extracted_data (pipeline st))
       + records_appended env parser_raises content
  /\ if parser_stops env parser_raises content
     then result = inl ParserError
     else exists df,
            result = inr df
            /\ Frame.len df = List.length (extracted_data (pipeline st'))
            /\ normalize_records (extracted_data (extract env content (pipeline st)))
               = inr df.
Proof.
  intros Hwf. cbv zeta.
  destruct (extract_guarded_appends content (pipeline st)) as [Hdata Hraised].
  pose proof (extract_guarded_well_formed content) as Hnew.
  assert (Hwf1 : well_formed
                   (extracted_data (fst (extract_guarded env parser_raises content
                                           (pipeline st))))).
  { rewrite Hdata. intros r Hr. apply in_app_iff in Hr.
    destruct Hr as [Hr|Hr]; [now apply Hwf | now apply Hnew]. }
  assert (Hlen : List.length (extracted_data (fst (extract_guarded env parser_raises content
                                                     (pipeline st))))
                 = List.length (extracted_data (pipeline st))
                   + records_appended env parser_raises content).
  { rewrite Hdata, length_app. reflexivity. }
  unfold run_guarded.
  destruct (extract_guarded env parser_raises content (pipeline st)) as [self raised] eqn:E.
  cbn [fst snd] in Hwf1, Hlen, Hraised. rewrite <- Hraised.
  destruct raised.
  - cbn [fst snd pipeline]. split; [exact Hwf1|]. split; [exact Hlen | reflexivity].
  - symmetry in Hraised. rewrite (extract_guarded_clean content _ Hraised) in E.
    injection E as <-.
    destruct (tally_items_hashable _ (items_by_type st) (well_formed_hashable _ Hwf1))
      as (counts & Hc & _).
    rewrite Hc. cbn [fst snd pipeline].
    destruct (normalize_records_returns _ (well_formed_hashable _ Hwf1)) as (df & Hdf);
      [intros r Hr _; now apply Hwf1|].
    split; [now apply well_formed_infer_schema|]. split.
    + unfold infer_schema. cbn [extracted_data]. now rewrite length_map.
    + exists df. unfold normalize, infer_schema. cbn [extracted_data].
      rewrite normalize_records_fill by exact Hwf1. rewrite Hdf.
      split; [reflexivity|]. split; [|reflexivity].
      rewrite length_map, (normalize_records_len _ _ Hdf).
      apply rows_in_order_length. intros r Hr. now apply Hwf1.
Qed.

(** X6: on a new pipeline, [run] raises what the HTML parser raises when
    the parser refuses one of the HTML spans.  Otherwise [extract], the
    loop over [items_by_type], [infer_schema] and [normalize] raise
    nothing: the table has one row for each extracted record, in the
    order in which [extract] appended them; row [i] holds the number of
    records under [total_items] and, under another label, a null where
    record [i] has no value and the string where its value is a string. *)
Theorem run_rows_follow_extraction (content : string) :
  let data := extracted_data (extract env content new_pipeline) in
  let result := snd (run_guarded env parser_raises content new_run_state) in
  if parser_stops env parser_raises content
  then result = inl ParserError
  else
    exists df,
      result = inr df
      /\ Frame.len df = List.length data
      /\ forall i record,
           nth_error data i = Some record ->
           exists row,
             nth_error (rows df) i = Some row
             /\ Frame.cell (columns df) row "total_items"
                = VInt (Z.of_nat (List.length data))
             /\ forall c, In c (columns df) -> c <> "total_items" ->
                  cell_holds (Frame.cell (columns df) row c) record c.
Proof.
  intros data result.
  assert (Hempty : well_formed (extracted_data (pipeline new_run_state)))
    by (intros r []).
  destruct (run_guarded_step content new_run_state Hempty) as (_ & _ & Hresult).
  fold result in Hresult.
  destruct (parser_stops env parser_raises content); [exact Hresult|].
  destruct Hresult as (df & Hdf & _ & Hn).
  change (extract env content (pipeline new_run_state))
    with (extract env content new_pipeline) in Hn. fold data in Hn.
  pose proof (extract_well_formed env content) as Hwf. fold data in Hwf.
  destruct (normalize_records_in_order data Hwf (rows_in_order_extract env content))
    as (df0 & Hdf0 & Hlen & _ & Hrows).
  rewrite Hn in Hdf0. injection Hdf0 as <-.
  exists df. split; [exact Hdf|]. split; [exact Hlen|].
  intros i record Hi. destruct (Hrows i record Hi) as (row & Hrow & Hcell).
  exists row. split; [exact Hrow|].
  assert (Htotal : In "total_items" (columns df)).
  { apply normalize_records_table in Hn. cbv zeta in Hn.
    destruct Hn as [_ [[_ ->]|(_ & (others & Hc & _) & _)]].
    - cbn in Hrow. destruct i; discriminate.
    - rewrite Hc. cbn. tauto. }
  split; [now rewrite (Hcell _ Htotal)|].
  intros c Hin Hne. rewrite (Hcell c Hin). unfold final_cell.
  destruct (String.eqb_spec c "total_items") as [->|_]; [now elim Hne|].
  split; [trivial | intros s E; exact E].
Qed.

Lemma process_files_tables contents st k content :
  well_formed (extracted_data (pipeline st)) ->
  nth_error contents k = Some content ->
  let result := nth_error (snd (process_files env parser_raises contents st)) k in
  if parser_stops env parser_raises content
  then result = Some (inl ParserError)
  else exists df,
         result = Some (inr df)
         /\ Frame.len df
            = List.length (extracted_data (pipeline st))
              + list_sum (map (records_appended env parser_raises)
                              (firstn (S k) contents)).
Proof.
  revert st k. induction contents as [|first rest IH]; intros st k Hwf Hk;
    [destruct k; discriminate|].
  destruct (run_guarded_step first st Hwf) as (Hwf1 & Hlen1 & Hresult).
  cbv zeta. cbn [process_files].
  destruct (run_guarded env parser_raises first st) as [st1 result1] eqn:Erun.
  cbn [fst snd] in Hwf1, Hlen1, Hresult.
  destruct (process_files env parser_raises rest st1) as [st2 results] eqn:Erest.
  cbn [snd]. destruct k as [|k].
  - injection Hk as ->. cbn [nth_error].
    destruct (parser_stops env parser_raises content); [now rewrite Hresult|].
    destruct Hresult as (df & -> & Hlen & _). exists df. split; [reflexivity|].
    rewrite Hlen, Hlen1. cbn [firstn map list_sum fold_right]. lia.
  - cbn [nth_error] in Hk |- *. specialize (IH st1 k Hwf1 Hk). cbv zeta in IH.
    rewrite Erest in IH. cbn [snd] in IH.
    destruct (parser_stops env parser_raises content); [exact IH|].
    destruct IH as (df & Hnth & Hlen). exists df. split; [exact Hnth|].
    rewrite Hlen, Hlen1.
    change (firstn (S (S k)) (first :: rest)) with (first :: firstn (S k) rest).
    cbn [map list_sum fold_right].
    fold (list_sum (map (records_appended env parser_raises) (firstn (S k) rest))). lia.
Qed.

(** X9: [SimpleETL] runs every file on the one pipeline it built, and
    [extract] appends to the records the pipeline holds.  The run of a
    file raises what the HTML parser raises when the parser refuses one
    of its HTML spans; the records of the spans before that one stay in
    the pipeline.  The run of any other file gives a table, and it has
    one row for each record that the [extract] of this file and of every
    file before it appended. *)
Theorem process_existing_files_accumulate (contents : list string) (k : nat)
    (content : string) :
  nth_error contents k = Some content ->
  let result := nth_error (snd (process_existing_files env parser_raises contents)) k in
  if parser_stops env parser_raises content
  then result = Some (inl ParserError)
  else exists df,
         result = Some (inr df)
         /\ Frame.len df
            = list_sum (map (records_appended env parser_raises) (firstn (S k) contents)).
Proof.
  intros Hk. unfold process_existing_files.
  assert (Hempty : well_formed (extracted_data (pipeline new_run_state)))
    by (intros r []).
  exact (process_files_tables contents new_run_state k content Hempty Hk).
Qed.

End GuardedRun.

Lemma process_existing_files_accumulate_witness :
  let shortest_first :=
    {| bs4 := bs4 sample_env; set_rank := fun _ s => String.length s |} in
  let refused html :=
    match Re.find_ci "<![" html with Some _ => true | None => false end in
  let files := [("<p>a</p>" ++ nl ++ "<div><![x]></div>")%string; book_document] in
  nth_error (snd (process_existing_files shortest_first refused files)) 0
  = Some (inl ParserError)
  /\ exists df,
       nth_error (snd (process_existing_files shortest_first refused files)) 1
       = Some (inr df)
       /\ Frame.len df = 2.
Proof.
  cbv zeta. split.
  - exact (process_existing_files_accumulate
             {| bs4 := bs4 sample_env; set_rank := fun _ s => String.length s |}
             (fun html => match Re.find_ci "<![" html with
                          | Some _ => true
                          | None => false
                          end)
             [("<p>a</p>" ++ nl ++ "<div><![x]></div>")%string; book_document]
             0 ("<p>a</p>" ++ nl ++ "<div><![x]></div>")%string eq_refl).
  - destruct (process_existing_files_accumulate
                {| bs4 := bs4 sample_env; set_rank := fun _ s => String.length s |}
                (fun html => match Re.find_ci "<![" html with
                             | Some _ => true
                             | None => false
                             end)
                [("<p>a</p>" ++ nl ++ "<div><![x]></div>")%string; book_document]
                1 book_document eq_refl) as (df & H & Hlen).
    exists df. split; [exact H|]. rewrite Hlen. vm_compute. reflexivity.
Defined.

(** ** [detect_content_types]: the JSON spans *)

Section DetectedJson.

Lemma findall_In (m : string -> option (string * nat)) skip s x :
  In x (Re.findall m skip s) -> exists t len, m t = Some (x, len).
Proof.
  revert skip. induction s as [|c s IH]; intros skip H; [destruct H|].
  cbn [Re.findall] in H. destruct skip as [|k]; [|now apply IH in H].
  destruct (m (String c s)) as [[found len]|] eqn:E.
  - destruct H as [<-|H]; [now exists (String c s), len | now apply IH in H].
  - now apply IH in H.
Qed.

Lemma json_match_opens t x len :
  Re.json_match t = Some (x, len) -> exists rest, x = String "{"%char rest.
Proof.
  destruct t as [|c t]; [discriminate|]. cbn [Re.json_match].
  destruct (Ascii.eqb_spec c "{"%char) as [->|]; [|discriminate].
  destruct (Re.json_span false t) as [n|]; [|discriminate].
  intros H. injection H as <- _. cbn [PyStr.take]. eauto.
Qed.

Lemma scan_members_dict fuel pairs s v r :
  Json.scan_members fuel pairs s = Json.Ok v r -> exists d, v = VDict d.
Proof.
  revert pairs s. induction fuel as [|f IH]; intros pairs s H; [discriminate|].
  cbn [Json.scan_members] in H.
  destruct (Json.scan_string s) as [[key r0]|]; [|discriminate].
  destruct (Json.skip_ws r0) as [|c1 r1]; [discriminate|].
  destruct (Ascii.eqb c1 ":"%char); [|discriminate].
  destruct (Json.scan_once f (Json.skip_ws r1)) as [v0 r2| |]; try discriminate.
  destruct (Json.skip_ws r2) as [|c2 r3]; [discriminate|].
  destruct (Ascii.eqb c2 "}"%char); [injection H as <- _; eauto|].
  destruct (Ascii.eqb c2 ","%char); [|discriminate].
  destruct (Json.skip_ws r3) as [|c3 r4]; [discriminate|].
  destruct (Ascii.eqb c3 Json.dquote); [|discriminate].
  now apply IH in H.
Qed.

(** A text that opens with a brace is decoded to a dict or not at all. *)
Lemma loads_object rest v :
  Json.loads (String "{"%char rest) = Some v -> exists d, v = VDict d.
Proof.
  unfold Json.loads, Json.loads_fuel.
  change (Json.skip_ws (String "{"%char rest)) with (String "{"%char rest).
  generalize (2 * String.length (String "{"%char rest)). intros n.
  cbn [Json.scan_once].
  change (Ascii.eqb "{"%char Json.dquote) with false.
  change (Ascii.eqb "{"%char "{"%char) with true. cbv iota.
  destruct (Json.skip_ws rest) as [|c1 r1]; [discriminate|].
  destruct (Ascii.eqb c1 "}"%char).
  { destruct (Json.skip_ws r1); [|discriminate]. intros H. injection H as <-. eauto. }
  destruct (Ascii.eqb c1 Json.dquote); [|discriminate].
  destruct (Json.scan_members n [] r1) as [v0 r2| |] eqn:E; try discriminate.
  destruct (Json.skip_ws r2); [|discriminate]. intros H. injection H as <-.
  now apply scan_members_dict in E.
Qed.

Lemma keep_json_fold matches kept :
  NoDup kept ->
  NoDup (fold_left keep_json matches kept)
  /\ forall m, In m (fold_left keep_json matches kept) ->
               In m kept \/ (In m matches /\ Json.loads m <> None).
Proof.
  revert kept. induction matches as [|x matches IH]; intros kept Hnd.
  - split; [exact Hnd | now left].
  - cbn [fold_left].
    assert (Hstep : NoDup (keep_json kept x)
                    /\ forall m, In m (keep_json kept x) ->
                                 In m kept \/ (m = x /\ Json.loads m <> None)).
    { unfold keep_json. destruct (Json.loads x) eqn:E; [|split; [exact Hnd | now left]].
      destruct (existsb (String.eqb x) kept) eqn:Ex; [split; [exact Hnd | now left]|].
      split.
      - apply NoDup_app; [exact Hnd | repeat constructor; intros [] |].
        intros a Ha [<-|[]]. apply mem_false in Ex. contradiction.
      - intros m Hm. apply in_app_iff in Hm. destruct Hm as [Hm|[<-|[]]]; [now left|].
        right. split; [reflexivity | congruence]. }
    destruct Hstep as [Hnd' Hin']. destruct (IH _ Hnd') as [Hnd'' Hin''].
    split; [exact Hnd''|]. intros m Hm. destruct (Hin'' m Hm) as [Hk|[Hk Hv]].
    + destruct (Hin' m Hk) as [?|[-> Hv]]; [now left|]. right. split; [now left | exact Hv].
    + right. split; [now right | exact Hv].
Qed.

(** X11: the JSON spans of a document are pairwise different, and each of
    them is a text that [json.loads] decodes to a dict: [extract_json]
    never takes its [except] branch on a span of
    [detect_content_types], its record is the flattened dict with the
    type set. *)
Theorem detected_json_are_objects (env : environment) (content : string) :
  let spans := det_json (detect_content_types env content) in
  NoDup spans
  /\ forall m, In m spans ->
       exists data,
         Json.loads m = Some (VDict data)
         /\ extract_json m
            = Dict.setitem "type" (VStr "json") (flatten_dict data EmptyString "_").
Proof.
  unfold detect_content_types. cbn [det_json].
  destruct (keep_json_fold (Re.findall Re.json_match 0 content) [] (NoDup_nil _))
    as [Hnd Hin].
  split; [exact Hnd|]. intros m Hm.
  destruct (Hin m Hm) as [[]|[Hfound Hvalid]].
  apply findall_In in Hfound. destruct Hfound as (t & len & Hmatch).
  apply json_match_opens in Hmatch. destruct Hmatch as (rest & ->).
  destruct (Json.loads (String "{"%char rest)) as [v|] eqn:E; [|now elim Hvalid].
  destruct (loads_object rest v E) as (data & ->).
  exists data. split; [reflexivity|]. unfold extract_json. now rewrite E.
Qed.

End DetectedJson.

(** ** [detect_content_types]: the text spans *)

Section DetectedText.

Lemma lstrip_head s :
  match PyStr.lstrip s with
  | String c _ => PyStr.is_space c = false
  | EmptyString => True
  end.
Proof.
  induction s as [|c s IH]; [exact I|]. cbn [PyStr.lstrip].
  destruct (PyStr.is_space c) eqn:E; [exact IH | exact E].
Qed.

Lemma rstrip_head s :
  match s with String c _ => PyStr.is_space c = false | EmptyString => True end ->
  match PyStr.rstrip s with String c _ => PyStr.is_space c = false | EmptyString => True end.
Proof.
  destruct s as [|c s]; [trivial|]. intros H. cbn [PyStr.rstrip].
  destruct (PyStr.rstrip s); [rewrite H|]; exact H.
Qed.

Lemma lstrip_fixed s :
  match s with String c _ => PyStr.is_space c = false | EmptyString => True end ->
  PyStr.lstrip s = s.
Proof. destruct s as [|c s]; [reflexivity|]. intros H. cbn [PyStr.lstrip]. now rewrite H. Qed.

Lemma rstrip_idempotent s : PyStr.rstrip (PyStr.rstrip s) = PyStr.rstrip s.
Proof.
  induction s as [|c s IH]; [reflexivity|]. cbn [PyStr.rstrip].
  destruct (PyStr.rstrip s) as [|c' r] eqn:E.
  - destruct (PyStr.is_space c) eqn:Ec; [reflexivity|]. cbn [PyStr.rstrip]. now rewrite Ec.
  - cbn [PyStr.rstrip]. cbn [PyStr.rstrip] in IH. rewrite IH. reflexivity.
Qed.

Lemma strip_idempotent s : PyStr.strip (PyStr.strip s) = PyStr.strip s.
Proof.
  unfold PyStr.strip. rewrite (lstrip_fixed (PyStr.rstrip (PyStr.lstrip s))).
  - apply rstrip_idempotent.
  - apply rstrip_head, lstrip_head.
Qed.

Lemma lstrip_index c s :
  Re.index_of c s = None -> Re.index_of c (PyStr.lstrip s) = None.
Proof.
  induction s as [|b s IH]; [trivial|]. cbn [PyStr.lstrip].
  destruct (PyStr.is_space b); [|trivial]. cbn [Re.index_of].
  destruct (Ascii.eqb b c); [discriminate|].
  destruct (Re.index_of c s); [discriminate|]. intros _. now apply IH.
Qed.

Lemma rstrip_index c s :
  Re.index_of c s = None -> Re.index_of c (PyStr.rstrip s) = None.
Proof.
  induction s as [|b s IH]; [trivial|]. cbn [Re.index_of].
  destruct (Ascii.eqb b c) eqn:Eb; [discriminate|].
  destruct (Re.index_of c s) eqn:Es; [discriminate|]. intros _.
  specialize (IH eq_refl). cbn [PyStr.rstrip].
  destruct (PyStr.rstrip s) as [|c' r].
  - destruct (PyStr.is_space b); [reflexivity|]. cbn [Re.index_of]. now rewrite Eb.
  - cbn [Re.index_of] in *. rewrite Eb. now rewrite IH.
Qed.

Lemma split_on_pieces sep s w :
  In w (PyStr.split_on sep s) -> Re.index_of sep w = None.
Proof.
  revert w. induction s as [|c s IH]; intros w H.
  - destruct H as [<-|[]]. reflexivity.
  - cbn [PyStr.split_on] in H. destruct (Ascii.eqb c sep) eqn:E.
    + destruct H as [<-|H]; [reflexivity | now apply IH].
    + destruct (PyStr.split_on sep s) as [|w0 ws].
      * destruct H as [<-|[]]. cbn [Re.index_of]. now rewrite E.
      * destruct H as [<-|H]; [|apply IH; now right].
        cbn [Re.index_of]. rewrite E. rewrite (IH w0); [reflexivity | now left].
Qed.

(** A text span is the trimmed form of a line without line feed. *)
Lemma detected_text_origin (env : environment) (content t : string) :
  In t (det_text (detect_content_types env content)) ->
  exists p,
    t = PyStr.strip p
    /\ Re.index_of newline p = None
    /\ 5 < String.length (PyStr.strip p).
Proof.
  unfold detect_content_types. cbn [det_text]. intros H.
  apply in_map_iff in H. destruct H as (p & <- & Hp).
  apply filter_In in Hp. destruct Hp as [Hp Hlong].
  apply andb_true_iff in Hlong. destruct Hlong as [_ Hlong].
  exists p. split; [reflexivity|]. split; [exact (split_on_pieces _ _ _ Hp)|].
  now apply Nat.ltb_lt in Hlong.
Qed.

(** X12: a text span is a trimmed piece of one line: it has no white
    space at either end, more than five characters, and no line feed. *)
Theorem detected_text_trimmed (env : environment) (content t : string) :
  In t (det_text (detect_content_types env content)) ->
  PyStr.strip t = t
  /\ 5 < String.length t
  /\ Re.index_of newline t = None.
Proof.
  intros H. destruct (detected_text_origin env content t H) as (p & -> & Hline & Hlong).
  split; [apply strip_idempotent|]. split; [exact Hlong|].
  unfold PyStr.strip. apply rstrip_index, lstrip_index. exact Hline.
Qed.

Lemma detected_text_trimmed_witness :
  let t := "Hello world this is text" in
  PyStr.strip t = t /\ 5 < String.length t /\ Re.index_of newline t = None.
Proof.
  cbv zeta. apply (detected_text_trimmed sample_env example_document).
  vm_compute. left. reflexivity.
Defined.

Lemma findall_never (m : string -> option (string * nat)) (x : ascii) s :
  (forall c t, m (String c t) <> None -> c = x) ->
  Re.index_of x s = None -> Re.findall m 0 s = [].
Proof.
  intros Hm. induction s as [|c s IH]; [reflexivity|]. cbn [Re.index_of Re.findall].
  destruct (Ascii.eqb_spec c x) as [->|Hne]; [discriminate|].
  destruct (Re.index_of x s); [discriminate|]. intros _.
  destruct (m (String c s)) eqn:E; [|now apply IH].
  elim Hne. apply (Hm c s). congruence.
Qed.

Lemma lower_angle b : Ascii.eqb "<"%char (Re.lower b) = true -> b = "<"%char.
Proof.
  destruct b as [b0 b1 b2 b3 b4 b5 b6 b7].
  destruct b0, b1, b2, b3, b4, b5, b6, b7; vm_compute; intros H;
    try discriminate H; reflexivity.
Qed.

Lemma html_match_opens opening closing c t :
  In (opening, closing) html_patterns ->
  Re.html_match opening closing (String c t) <> None -> c = "<"%char.
Proof.
  intros Hp H. unfold Re.html_match in H.
  destruct (Re.starts_with_ci opening (String c t)) eqn:E; [|now elim H].
  apply lower_angle.
  cbn in Hp. destruct Hp as [Hp|[Hp|[Hp|[Hp|[Hp|[]]]]]]; injection Hp as <- <-;
    cbn [Re.starts_with_ci] in E; apply andb_true_iff in E; exact (proj1 E).
Qed.

Lemma json_match_brace c t : Re.json_match (String c t) <> None -> c = "{"%char.
Proof.
  cbn [Re.json_match]. destruct (Ascii.eqb_spec c "{"%char) as [->|]; [reflexivity|].
  intros H. now elim H.
Qed.

(** X13: in a document without [<] and without an opening brace nothing
    is taken for HTML or JSON, and the text spans are the lines of the
    document, trimmed, that have more than five characters left, in the
    order of the lines. *)
Theorem detect_plain_document (env : environment) (content : string) :
  Re.index_of "<"%char content = None ->
  Re.index_of "{"%char content = None ->
  let detected := detect_content_types env content in
  det_html detected = []
  /\ det_json detected = []
  /\ det_text detected
     = map PyStr.strip
           (filter (fun p => (5 <? String.length (PyStr.strip p))%nat)
                   (PyStr.split_on newline content)).
Proof.
  intros Hangle Hbrace. unfold detect_content_types. cbn [det_html det_json det_text].
  assert (Hhtml : flat_map (fun p => Re.findall (Re.html_match (fst p) (snd p)) 0 content)
                           html_patterns = []).
  { assert (H : forall ps, (forall p, In p ps -> In p html_patterns) ->
                  flat_map (fun p => Re.findall (Re.html_match (fst p) (snd p)) 0 content) ps
                  = []).
    { induction ps as [|[opening closing] ps IH]; intros Hsub; [reflexivity|].
      cbn [flat_map fst snd]. rewrite IH by (intros p I; apply Hsub; now right).
      rewrite (findall_never _ "<"%char); [reflexivity| |exact Hangle].
      intros c t. apply html_match_opens. apply Hsub. now left. }
    apply H. auto. }
  assert (Hjson : Re.findall Re.json_match 0 content = []).
  { apply (findall_never _ "{"%char); [exact json_match_brace | exact Hbrace]. }
  rewrite Hhtml, Hjson. cbn [PySet.to_list nodup fold_right fold_left].
  split; [reflexivity|]. split; [reflexivity|]. f_equal. apply filter_ext. intros p.
  destruct (PyStr.strip p); reflexivity.
Qed.

End DetectedText.

Lemma detect_plain_document_witness :
  det_text (detect_content_types sample_env
              ("  first line of text  " ++ nl ++ "short" ++ nl ++ nl ++ "second line")%string)
  = ["first line of text"; "second line"].
Proof.
  refine (eq_trans (proj2 (proj2 (detect_plain_document sample_env _ _ _))) _);
    vm_compute; reflexivity.
Defined.

(** ** [detect_content_types]: base64 runs *)

Section DetectedBase64.

Lemma findall_without (m : string -> option (string * nat)) (x : ascii) s :
  (forall t, m t <> None -> Re.index_of x t <> None) ->
  Re.index_of x s = None -> Re.findall m 0 s = [].
Proof.
  intros Hm. induction s as [|c s IH]; [reflexivity|]. intros Hx.
  cbn [Re.findall]. destruct (m (String c s)) eqn:E.
  - elim (Hm (String c s)); [congruence | exact Hx].
  - apply IH. cbn [Re.index_of] in Hx. destruct (Ascii.eqb c x); [discriminate|].
    now destruct (Re.index_of x s).
Qed.

Lemma findall_passed (m : string -> option (string * nat)) s :
  Re.findall m (String.length s) s = [].
Proof. induction s as [|c s IH]; [reflexivity | exact IH]. Qed.

Lemma starts_with_index p t x :
  PyStr.starts_with p t = true -> Re.index_of x p <> None -> Re.index_of x t <> None.
Proof.
  revert t. induction p as [|a p IH]; intros t H Hx; [now elim Hx|].
  destruct t as [|b t]; [discriminate|]. cbn [PyStr.starts_with] in H.
  apply andb_true_iff in H. destruct H as [Hab H]. apply Ascii.eqb_eq in Hab. subst b.
  cbn [Re.index_of] in *. destruct (Ascii.eqb a x); [discriminate|].
  specialize (IH t H). destruct (Re.index_of x p); [|now elim Hx].
  destruct (Re.index_of x t); [discriminate | now elim IH].
Qed.

Lemma data_uri_match_colon prefix t :
  Re.index_of ":"%char prefix <> None ->
  Re.data_uri_match prefix t <> None -> Re.index_of ":"%char t <> None.
Proof.
  intros Hp H. unfold Re.data_uri_match in H.
  destruct (PyStr.starts_with prefix t) eqn:E; [|now elim H].
  exact (starts_with_index _ _ _ E Hp).
Qed.

Lemma base64_text_index x s :
  Re.is_b64 x = false -> base64_text s = true -> Re.index_of x s = None.
Proof.
  intros Hx. induction s as [|c s IH]; [reflexivity|]. cbn [base64_text Re.index_of].
  intros H. apply andb_true_iff in H. destruct H as [Hc H].
  destruct (Ascii.eqb_spec c x) as [->|_]; [congruence|]. now rewrite IH.
Qed.

Lemma base64_run s : base64_text s = true -> Re.run_length Re.is_b64 s = String.length s.
Proof.
  induction s as [|c s IH]; [reflexivity|]. cbn [base64_text Re.run_length String.length].
  intros H. apply andb_true_iff in H. destruct H as [-> H]. now rewrite IH.
Qed.

Lemma drop_all s : PyStr.drop (String.length s) s = EmptyString.
Proof. induction s as [|c s IH]; [reflexivity | exact IH]. Qed.

Lemma take_all s : PyStr.take (String.length s) s = s.
Proof. induction s as [|c s IH]; [reflexivity|]. cbn. now rewrite IH. Qed.

Lemma is_b64_not_space c : Re.is_b64 c = true -> PyStr.is_space c = false.
Proof.
  destruct c as [b0 b1 b2 b3 b4 b5 b6 b7].
  destruct b0, b1, b2, b3, b4, b5, b6, b7; vm_compute; intros H;
    try discriminate H; reflexivity.
Qed.

Lemma base64_text_strip s : base64_text s = true -> PyStr.strip s = s.
Proof.
  intros H. unfold PyStr.strip.
  assert (Hl : PyStr.lstrip s = s).
  { destruct s as [|c s]; [reflexivity|]. cbn [base64_text] in H.
    apply andb_true_iff in H. cbn [PyStr.lstrip].
    now rewrite (is_b64_not_space c (proj1 H)). }
  rewrite Hl. clear Hl. induction s as [|c s IH]; [reflexivity|].
  cbn [base64_text] in H. apply andb_true_iff in H. destruct H as [Hc H].
  cbn [PyStr.rstrip]. rewrite (IH H), (is_b64_not_space c Hc). now destruct s.
Qed.

Lemma split_on_one_line sep s : Re.index_of sep s = None -> PyStr.split_on sep s = [s].
Proof.
  induction s as [|c s IH]; [reflexivity|]. cbn [Re.index_of PyStr.split_on].
  destruct (Ascii.eqb c sep); [discriminate|].
  destruct (Re.index_of sep s); [discriminate|]. intros _. now rewrite IH.
Qed.

(** X14: the base64 spans are not taken out of the text as the HTML and
    JSON spans are.  A document that is one run of at least 64 characters
    of the base64 alphabet is reported twice, as a base64 span and as a
    text span, so [extract] builds a media record and a text record from
    it. *)
Theorem base64_run_detected_twice (env : environment) (s : string) :
  base64_text s = true ->
  64 <= String.length s ->
  let detected := detect_content_types env s in
  det_html detected = []
  /\ det_json detected = []
  /\ det_base64 detected = [s]
  /\ det_text detected = [s].
Proof.
  intros Hs Hlen. unfold detect_content_types.
  cbn [det_html det_json det_text det_base64].
  assert (Hno : forall x, Re.is_b64 x = false -> Re.index_of x s = None)
    by (intros x Hx; now apply base64_text_index).
  assert (Hhtml : flat_map (fun p => Re.findall (Re.html_match (fst p) (snd p)) 0 s)
                           html_patterns = []).
  { assert (H : forall ps, (forall p, In p ps -> In p html_patterns) ->
                  flat_map (fun p => Re.findall (Re.html_match (fst p) (snd p)) 0 s) ps = []).
    { induction ps as [|[opening closing] ps IH]; intros Hsub; [reflexivity|].
      cbn [flat_map fst snd]. rewrite IH by (intros p I; apply Hsub; now right).
      rewrite (findall_never _ "<"%char); [reflexivity| |now apply Hno].
      intros c t. apply html_match_opens. apply Hsub. now left. }
    apply H. auto. }
  assert (Hjson : Re.findall Re.json_match 0 s = []).
  { apply (findall_never _ "{"%char); [exact json_match_brace | now apply Hno]. }
  assert (Hb64 : flat_map (fun m => Re.findall m 0 s) base64_patterns = [s]).
  { unfold base64_patterns. cbn [flat_map].
    rewrite (findall_without (Re.data_uri_match "data:image/") ":"%char);
      [|intros t; apply data_uri_match_colon; discriminate | now apply Hno].
    rewrite (findall_without (Re.data_uri_match "data:text/") ":"%char);
      [|intros t; apply data_uri_match_colon; discriminate | now apply Hno].
    cbn [app]. rewrite app_nil_r.
    destruct s as [|c s']; [cbn in Hlen; lia|].
    cbn [Re.findall]. unfold Re.base64_run_match.
    rewrite (base64_run _ Hs), drop_all.
    destruct (Nat.leb_spec 64 (String.length (String c s'))) as [_|Hlt]; [|lia].
    cbn [Re.run_length Nat.min]. rewrite Nat.add_0_r, take_all.
    cbn [String.length]. rewrite Nat.sub_succ, Nat.sub_0_r, findall_passed. reflexivity. }
  rewrite Hhtml, Hjson, Hb64. cbn [PySet.to_list nodup fold_right fold_left in_dec].
  split; [reflexivity|]. split; [reflexivity|]. split; [reflexivity|].
  rewrite split_on_one_line by now apply Hno.
  cbn [filter]. rewrite (base64_text_strip s Hs).
  assert (Ht : PyStr.truthy s = true) by (destruct s; [cbn in Hlen; lia | reflexivity]).
  assert (Hl : (5 <? String.length s)%nat = true) by (apply Nat.ltb_lt; lia).
  rewrite Ht, Hl. cbn [andb map]. now rewrite (base64_text_strip s Hs).
Qed.

End DetectedBase64.

Lemma base64_run_detected_twice_witness :
  let s := ("QUJDREVGR0hJSktMTU5PUFFSU1RVVldYWVphYmNkZWZnaGlqa2xtbm9w"
            ++ "cXJzdHV2d3h5ejAxMjM0NTY3ODkrLw")%string in
  map (py_get "source_index") (extracted_data (extract sample_env s new_pipeline))
  = [VStr "text_0"; VStr "media_0"].
Proof.
  cbv zeta.
  destruct (base64_run_detected_twice sample_env
              ("QUJDREVGR0hJSktMTU5PUFFSU1RVVldYWVphYmNkZWZnaGlqa2xtbm9w"
               ++ "cXJzdHV2d3h5ejAxMjM0NTY3ODkrLw")%string)
    as (Hh & Hj & Hb & Ht); [reflexivity | vm_compute; lia |].
  unfold extract. cbv zeta. rewrite Hh, Hj, Hb, Ht. reflexivity.
Defined.

(** ** [infer_schema]: the types of a field, and a second call *)

Section SchemaTypes.
Variable env : environment.

(** X15: the [type] entry of a field lists, each once, the type names of
    the values other than null that the records hold for the field; it
    is [NoneType] alone exactly when every such value is null. *)
Theorem schema_types (self : ETLPipeline) (key : string) :
  let data := extracted_data self in
  (exists item, In item data /\ has_field key item) ->
  exists desc,
    Dict.get key (schema (infer_schema env self)) = Some desc
    /\ NoDup (desc_type desc)
    /\ desc_type desc <> []
    /\ forall t,
         In t (desc_type desc)
         <-> (t = "NoneType"
              /\ forall item v, In item data -> Dict.get key item = Some v -> v = VNone)
             \/ (exists item v,
                    In item data /\ Dict.get key item = Some v
                    /\ v <> VNone /\ type_name v = t).
Proof.
  intros data Hseen.
  exists (describe env data key). split.
  { apply infer_schema_descriptor. now apply count_with_field_pos. }
  unfold describe. cbn [desc_type].
  set (names := map type_name
                    (filter (fun v => negb (is_none v))
                            (map (py_get key) (filter (Dict.contains key) data)))).
  assert (Hnames : forall t, In t names
                             <-> exists item v, In item data /\ Dict.get key item = Some v
                                                /\ v <> VNone /\ type_name v = t).
  { intros t. unfold names. rewrite in_map_iff. split.
    - intros (v & Ht & Hv). apply filter_In in Hv. destruct Hv as [Hv Hnn].
      apply in_map_iff in Hv. destruct Hv as (item & Hget & Hitem).
      apply filter_In in Hitem. destruct Hitem as [Hitem Hc].
      exists item, v. split; [exact Hitem|]. unfold py_get, Dict.contains in *.
      destruct (Dict.get key item) as [v0|]; [|discriminate]. subst v0.
      split; [reflexivity|]. split; [|exact Ht]. intros ->. discriminate.
    - intros (item & v & Hitem & Hget & Hnn & Ht). exists v. split; [exact Ht|].
      apply filter_In. split; [|now destruct v].
      apply in_map_iff. exists item. split; [unfold py_get; now rewrite Hget|].
      apply filter_In. split; [exact Hitem|]. unfold Dict.contains. now rewrite Hget. }
  pose proof (to_list_NoDup (set_rank env (ValueTypes key)) names) as Hnd.
  pose proof (fun t => to_list_In (set_rank env (ValueTypes key)) t names) as Hin.
  destruct (PySet.to_list (set_rank env (ValueTypes key)) names) as [|t0 ts] eqn:E.
  - split; [repeat constructor; intros []|]. split; [discriminate|].
    intros t. split.
    + intros [<-|[]]. left. split; [reflexivity|]. intros item v Hitem Hget.
      destruct (is_none v) eqn:Ev; [now destruct v|]. exfalso.
      apply (proj2 (Hin (type_name v))), Hnames. exists item, v.
      split; [exact Hitem|]. split; [exact Hget|]. split; [|reflexivity].
      intros ->. discriminate.
    + intros [[-> _]|Hex]; [now left|]. exfalso. apply Hnames, Hin in Hex. exact Hex.
  - split; [exact Hnd|]. split; [discriminate|]. intros t. rewrite Hin, Hnames.
    split; [now right|]. intros [[-> Hall]|Hex]; [|exact Hex]. exfalso.
    assert (H0 : In t0 names) by (apply Hin; now left).
    apply Hnames in H0. destruct H0 as (item & v & Hitem & Hget & Hnn & _).
    exact (Hnn (Hall item v Hitem Hget)).
Qed.

Lemma values_of_all key data :
  filter (fun v => negb (is_none v)) (map (py_get key) data)
  = filter (fun v => negb (is_none v))
           (map (py_get key) (filter (Dict.contains key) data)).
Proof.
  induction data as [|item data IH]; [reflexivity|]. cbn [map filter].
  destruct (Dict.contains key item) eqn:Ec.
  - cbn [map filter]. now rewrite IH.
  - assert (Hn : py_get key item = VNone).
    { unfold py_get, Dict.contains in *.
      destruct (Dict.get key item); [discriminate | reflexivity]. }
    rewrite Hn. cbn [is_none negb]. exact IH.
Qed.

(** X16: a second call of [infer_schema] leaves the records as the first
    call filled them, and it finds every field in every record: the
    entry of a field keeps its types and its [nullable], and its
    [present_in] becomes the number of records. *)
Theorem infer_schema_again (self : ETLPipeline) :
  let data := extracted_data self in
  let once := infer_schema env self in
  let twice := infer_schema env once in
  extracted_data twice = extracted_data once
  /\ forall key,
       (exists item, In item data /\ has_field key item) ->
       Dict.get key (schema once) = Some (describe env data key)
       /\ Dict.get key (schema twice)
          = Some {| desc_type := desc_type (describe env data key);
                    nullable := nullable (describe env data key);
                    present_in := List.length data |}.
Proof.
  intros data once twice.
  set (all_keys := PySet.to_list (set_rank env AllKeys) (flat_map Dict.keys data)).
  set (data1 := map (fill_missing all_keys) data).
  set (all_keys1 := PySet.to_list (set_rank env AllKeys) (flat_map Dict.keys data1)).
  assert (Hkeys1 : forall k, In k all_keys1 <-> In k all_keys).
  { intros k. unfold all_keys1, all_keys. rewrite !all_keys_In. unfold data1. split.
    - intros (r1 & Hr1 & Hk). apply in_map_iff in Hr1. destruct Hr1 as (r & <- & Hr).
      apply keys_fill in Hk. destruct Hk as [Hk|Hk]; [now exists r|].
      now apply all_keys_In in Hk.
    - intros (r & Hr & Hk). exists (fill_missing all_keys r).
      split; [now apply in_map | apply keys_fill; now left]. }
  assert (Hfull : forall r1 k, In r1 data1 -> In k all_keys -> Dict.contains k r1 = true).
  { intros r1 k Hr1 Hk. apply in_map_iff in Hr1. destruct Hr1 as (r & <- & _).
    apply contains_key, keys_fill. now right. }
  split.
  - change (map (fill_missing all_keys1) data1 = data1).
    rewrite <- (map_id data1) at 2. apply map_ext_in. intros r1 Hr1.
    rewrite fill_missing_appends by apply to_list_NoDup.
    rewrite filter_none; [apply app_nil_r|]. intros k Hk.
    rewrite (Hfull r1 k Hr1); [reflexivity | now apply Hkeys1].
  - intros key Hseen. split.
    { apply infer_schema_descriptor. now apply count_with_field_pos. }
    assert (Hk : In key all_keys) by now apply all_keys_In.
    change (Dict.get key (schema twice))
      with (Dict.get key
              (fold_left (fun sch k => Dict.setitem k (describe env data1 k) sch)
                         all_keys1 (schema once))).
    rewrite schema_loop_get.
    destruct (in_dec string_dec key all_keys1) as [_|N]; [|elim N; now apply Hkeys1].
    f_equal.
    assert (Hall : filter (Dict.contains key) data1 = data1).
    { apply filter_all. intros r1 Hr1. now apply Hfull. }
    assert (Hvalues : map (py_get key) data1 = map (py_get key) data).
    { unfold data1. rewrite map_map. apply map_ext. intros r. apply py_get_fill. }
    unfold describe. cbn [desc_type nullable]. rewrite Hall, Hvalues.
    rewrite (values_of_all key data). f_equal.
    unfold data1. now rewrite length_map.
Qed.

End SchemaTypes.

Lemma schema_types_witness :
  exists desc,
    Dict.get "a" (schema (infer_schema sample_env
                            {| extracted_data := [ [("a", VInt 1)]; [("a", VNone)];
                                                   [("a", VStr "x"); ("b", VNone)] ];
                               schema := [] |})) = Some desc
    /\ In "int" (desc_type desc) /\ In "str" (desc_type desc)
    /\ ~ In "NoneType" (desc_type desc).
Proof.
  destruct (schema_types sample_env
              {| extracted_data := [ [("a", VInt 1)]; [("a", VNone)];
                                     [("a", VStr "x"); ("b", VNone)] ];
                 schema := [] |} "a") as (desc & Hget & _ & _ & Hin).
  - exists [("a", VInt 1)]. split; [now left | unfold has_field; cbn; tauto].
  - exists desc. split; [exact Hget|]. split; [|split].
    + apply Hin. right. exists [("a", VInt 1)], (VInt 1). cbn. intuition discriminate.
    + apply Hin. right. exists [("a", VStr "x"); ("b", VNone)], (VStr "x").
      cbn. intuition discriminate.
    + intros H. apply Hin in H. destruct H as [[_ Hall]|(item & v & _ & _ & Hnn & Ht)].
      * specialize (Hall [("a", VInt 1)] (VInt 1) (or_introl eq_refl) eq_refl).
        discriminate.
      * destruct v; try discriminate. now elim Hnn.
Defined.

Lemma infer_schema_again_witness :
  let self := {| extracted_data := [ [("a", VInt 1)]; [("b", VNone)] ]; schema := [] |} in
  option_map present_in (Dict.get "a" (schema (infer_schema sample_env self))) = Some 1
  /\ option_map present_in
       (Dict.get "a" (schema (infer_schema sample_env (infer_schema sample_env self))))
     = Some 2.
Proof.
  cbv zeta.
  destruct (infer_schema_again sample_env
              {| extracted_data := [ [("a", VInt 1)]; [("b", VNone)] ]; schema := [] |})
    as [_ H].
  destruct (H "a") as [H1 H2].
  - exists [("a", VInt 1)]. split; [now left | unfold has_field; cbn; tauto].
  - rewrite H1, H2. split; reflexivity.
Defined.

(** ** [flatten_dict]: the shape of the result *)

Section FlattenShape.
Variables (parent sep : string).

(** X17: whatever the nesting of [d], the result of [flatten_dict] holds
    no dict as a value, no key twice, and only keys that begin with
    [parent_key]. *)
Theorem flatten_dict_shape (d : dict) :
  let result := flatten_dict d parent sep in
  NoDup (Dict.keys result)
  /\ (forall k v, In (k, v) result -> is_dict v = false)
  /\ (forall k, In k (Dict.keys result) -> PyStr.starts_with parent k = true).
Proof.
  cbv zeta. split; [apply of_items_NoDup|]. split; [apply flatten_dict_flat|].
  intros k Hk. unfold Dict.keys in Hk. apply in_map_iff in Hk.
  destruct Hk as ([k' v] & <- & Hin). rewrite <- flatten_entry_dict in Hin.
  exact (flatten_entry_keys sep (VDict d) parent (k', v) Hin).
Qed.

(** X18: a field whose value is the empty object leaves no trace: the
    result is the one of the dict without such fields. *)
Theorem flatten_dict_drops_empty_objects (d : dict) :
  flatten_dict (filter (fun kv => negb (is_empty_dict (snd kv))) d) parent sep
  = flatten_dict d parent sep.
Proof.
  unfold flatten_dict, flatten_items. f_equal.
  induction d as [|[k v] d IH]; [reflexivity|]. cbn [filter flat_map fst snd].
  destruct (is_empty_dict v) eqn:E; cbn [negb flat_map fst snd].
  - destruct v as [| | | | | | |[|? ?]]; try discriminate E. cbn. exact IH.
  - now rewrite IH.
Qed.

End FlattenShape.

(** ** [detect_content_types]: objects nested more than one level *)

Section NestedObjects.

Lemma json_span_text inner a rest :
  brace_free a = true ->
  Re.json_span inner (a ++ rest)%string
  = option_map (Nat.add (String.length a)) (Re.json_span inner rest).
Proof.
  induction a as [|c a IH]; intros H.
  - cbn. now destruct (Re.json_span inner rest).
  - cbn [brace_free] in H. rewrite !andb_true_iff, !negb_true_iff in H.
    destruct H as [[Ho Hc] Ha]. cbn [append Re.json_span String.length].
    rewrite Ho, Hc, (IH Ha). now destruct (Re.json_span inner rest).
Qed.

(** The pattern allows one level of braces inside an object: a brace that
    opens a third level ends the attempt. *)
Lemma json_match_too_deep a b rest :
  brace_free a = true -> brace_free b = true ->
  Re.json_match (String "{"%char (a ++ String "{"%char (b ++ String "{"%char rest)))
  = None.
Proof.
  intros Ha Hb. cbn [Re.json_match].
  change (Ascii.eqb "{"%char "{"%char) with true. cbv iota.
  rewrite (json_span_text false a _ Ha). cbn [Re.json_span].
  change (Ascii.eqb "{"%char "{"%char) with true. cbv iota.
  rewrite (json_span_text true b _ Hb). cbn [Re.json_span].
  change (Ascii.eqb "{"%char "{"%char) with true. reflexivity.
Qed.

(** X19: the JSON pattern follows braces one level down and no further.
    Where an object holds an object that holds an object, no match
    starts at the outer brace, and the JSON spans are those of the
    document read from the second brace on: the fields of the outer
    object are not extracted. *)
Theorem outer_object_not_detected (env : environment) (a b rest : string) :
  brace_free a = true ->
  brace_free b = true ->
  let inner := String "{"%char (b ++ String "{"%char rest) in
  det_json (detect_content_types env (String "{"%char (a ++ inner)))
  = det_json (detect_content_types env inner).
Proof.
  intros Ha Hb inner. unfold detect_content_types. cbn [det_json]. f_equal.
  cbn [Re.findall]. unfold inner. rewrite (json_match_too_deep a b rest Ha Hb).
  apply findall_json_text. exact Ha.
Qed.

End NestedObjects.

Lemma outer_object_not_detected_witness :
  det_json (detect_content_types sample_env (quoted "{'a':{'b':{'c':1}}}"))
  = [quoted "{'b':{'c':1}}"].
Proof.
  refine (eq_trans (outer_object_not_detected sample_env (quoted "'a':") (quoted "'b':")
                      (quoted "'c':1}}}") _ _) _); reflexivity.
Defined.

(** ** The order of a set and the text spans *)

Section NestedHtml.

Lemma not_angle_ci c : c <> "<"%char -> Ascii.eqb "<"%char (Re.lower c) = false.
Proof.
  intros H. destruct (Ascii.eqb "<"%char (Re.lower c)) eqn:E; [|reflexivity].
  elim H. now apply lower_angle.
Qed.

Lemma index_of_cons x c s :
  Re.index_of x (String c s) = None -> c <> x /\ Re.index_of x s = None.
Proof.
  cbn [Re.index_of]. destruct (Ascii.eqb_spec c x) as [->|Hne]; [discriminate|].
  destruct (Re.index_of x s); [discriminate|]. now split.
Qed.

(** A closing tag is not found inside text without [<]. *)
Lemma find_ci_text p x rest :
  Re.index_of "<"%char x = None ->
  Re.find_ci (String "<"%char p) (x ++ rest)%string
  = option_map (Nat.add (String.length x)) (Re.find_ci (String "<"%char p) rest).
Proof.
  induction x as [|c x IH]; intros H.
  - cbn [append String.length]. now destruct (Re.find_ci _ rest).
  - apply index_of_cons in H. destruct H as [Hc Hx].
    cbn [append String.length Re.find_ci Re.starts_with_ci].
    change (Re.lower "<"%char) with "<"%char.
    rewrite (not_angle_ci c Hc). cbn [andb]. rewrite (IH Hx).
    now destruct (Re.find_ci _ rest).
Qed.

Lemma findall_text (m : string -> option (string * nat)) x rest :
  (forall c t, m (String c t) <> None -> c = "<"%char) ->
  Re.index_of "<"%char x = None ->
  Re.findall m 0 (x ++ rest)%string = Re.findall m 0 rest.
Proof.
  intros Hm. induction x as [|c x IH]; intros H; [reflexivity|].
  apply index_of_cons in H. destruct H as [Hc Hx]. cbn [append Re.findall].
  destruct (m (String c (x ++ rest)%string)) eqn:E; [|now apply IH].
  elim Hc. apply (Hm c (x ++ rest)%string). congruence.
Qed.

Lemma starts_with_ci_append p t : Re.starts_with_ci p (p ++ t)%string = true.
Proof.
  induction p as [|c p IH]; [reflexivity|]. cbn [append Re.starts_with_ci].
  now rewrite Ascii.eqb_refl, IH.
Qed.

Lemma drop_append p t : PyStr.drop (String.length p) (p ++ t)%string = t.
Proof. induction p as [|c p IH]; [reflexivity | exact IH]. Qed.

Lemma index_of_append x a t :
  Re.index_of x a = None ->
  Re.index_of x (a ++ String x t)%string = Some (String.length a).
Proof.
  induction a as [|c a IH]; intros H.
  - cbn. now rewrite Ascii.eqb_refl.
  - apply index_of_cons in H. destruct H as [Hc Ha].
    cbn [append Re.index_of String.length].
    destruct (Ascii.eqb_spec c x) as [->|_]; [now elim Hc|]. now rewrite (IH Ha).
Qed.

Lemma drop_past a c t : PyStr.drop (S (String.length a)) (a ++ String c t)%string = t.
Proof. induction a as [|b a IH]; [reflexivity | exact IH]. Qed.

(** An element: the opening word, attributes without [>], the body in
    which the closing tag does not occur, the closing tag. *)
Lemma html_match_element opening closing attrs body rest :
  Re.index_of ">"%char attrs = None ->
  Re.find_ci closing (body ++ closing ++ rest)%string = Some (String.length body) ->
  let element := (opening ++ attrs ++ String ">"%char (body ++ closing))%string in
  Re.html_match opening closing (element ++ rest)%string
  = Some (element, String.length element).
Proof.
  intros Hattrs Hbody element.
  assert (Hlen : String.length element
                 = String.length opening + S (String.length attrs) + String.length body
                   + String.length closing).
  { unfold element. rewrite !length_append. cbn [String.length].
    rewrite !length_append. lia. }
  assert (Hshape : (element ++ rest
                    = opening ++ attrs ++ String ">"%char (body ++ closing ++ rest))%string).
  { unfold element. rewrite !append_assoc. cbn [append]. now rewrite !append_assoc. }
  assert (Hs : Re.starts_with_ci opening (element ++ rest) = true)
    by (rewrite Hshape; apply starts_with_ci_append).
  assert (Hd : PyStr.drop (String.length opening) (element ++ rest)
               = (attrs ++ String ">"%char (body ++ closing ++ rest))%string)
    by (rewrite Hshape; apply drop_append).
  unfold Re.html_match. cbv zeta.
  rewrite Hs, Hd, (index_of_append _ _ _ Hattrs), drop_past, Hbody.
  rewrite <- Hlen, take_append. reflexivity.
Qed.


Lemma find_ci_skip p c t :
  Re.starts_with_ci p (String c t) = false ->
  Re.find_ci p (String c t) = option_map S (Re.find_ci p t).
Proof. intros H. cbn [Re.find_ci]. now rewrite H. Qed.

Lemma html_match_no opening closing s :
  Re.starts_with_ci opening s = false -> Re.html_match opening closing s = None.
Proof. intros H. unfold Re.html_match. now rewrite H. Qed.

Lemma findall_step (m : string -> option (string * nat)) c t :
  m (String c t) = None -> Re.findall m 0 (String c t) = Re.findall m 0 t.
Proof. intros H. cbn [Re.findall]. now rewrite H. Qed.

Lemma findall_element (m : string -> option (string * nat)) e rest found :
  m (e ++ rest)%string = Some (found, String.length e) ->
  e <> EmptyString ->
  Re.findall m 0 (e ++ rest)%string = found :: Re.findall m 0 rest.
Proof.
  destruct e as [|c e]; intros H Hne; [now elim Hne|].
  cbn [append Re.findall]. cbn [append] in H. rewrite H.
  cbn [String.length]. rewrite Nat.sub_succ, Nat.sub_0_r. f_equal. apply findall_skip.
Qed.

Lemma remove_from_step old c t :
  PyStr.starts_with old (String c t) = false ->
  PyStr.remove_from old 0 (String c t) = String c (PyStr.remove_from old 0 t).
Proof. intros H. cbn [PyStr.remove_from]. now rewrite H. Qed.

Lemma remove_from_skip old e rest :
  PyStr.remove_from old (String.length e) (e ++ rest)%string = PyStr.remove_from old 0 rest.
Proof. induction e as [|c e IH]; [now destruct rest | exact IH]. Qed.

Lemma starts_with_append p t : PyStr.starts_with p (p ++ t)%string = true.
Proof.
  induction p as [|c p IH]; [reflexivity|]. cbn [append PyStr.starts_with].
  now rewrite Ascii.eqb_refl, IH.
Qed.

Lemma remove_from_occurrence old rest :
  old <> EmptyString ->
  PyStr.remove_from old 0 (old ++ rest)%string = PyStr.remove_from old 0 rest.
Proof.
  intros Hne. pose proof (starts_with_append old rest) as Hs.
  destruct old as [|c old]; [now elim Hne|]. cbn [append] in *.
  cbn [PyStr.remove_from]. rewrite Hs. cbn [String.length].
  rewrite Nat.sub_succ, Nat.sub_0_r. apply remove_from_skip.
Qed.

Lemma index_of_append_none c a b :
  Re.index_of c a = None -> Re.index_of c b = None -> Re.index_of c (a ++ b)%string = None.
Proof.
  induction a as [|d a IH]; intros Ha Hb; [exact Hb|].
  apply index_of_cons in Ha. destruct Ha as [Hd Ha]. cbn [append Re.index_of].
  destruct (Ascii.eqb_spec d c) as [->|_]; [now elim Hd|]. now rewrite (IH Ha Hb).
Qed.


Variable env : environment.
Variable x : string.
Hypothesis Hangle : Re.index_of "<"%char x = None.
Hypothesis Hbrace : Re.index_of "{"%char x = None.

Lemma find_closing_p : Re.find_ci "</p>" (x ++ "</p>" ++ "</div>")%string = Some (String.length x).
Proof.
  rewrite find_ci_text by exact Hangle.
  change (Re.find_ci "</p>" ("</p>" ++ "</div>")) with (Some 0).
  cbn [option_map]. f_equal. lia.
Qed.

Lemma find_closing_div :
  Re.find_ci "</div>" ((paragraph_element x) ++ "</div>" ++ "")%string = Some (String.length (paragraph_element x)).
Proof.
  unfold paragraph_element. cbn [append].
  rewrite !find_ci_skip by reflexivity.
  rewrite append_assoc. rewrite find_ci_text by exact Hangle.
  cbn [append]. rewrite !find_ci_skip by reflexivity.
  change (Re.find_ci "</div>" "</div>") with (Some 0).
  cbn [option_map String.length]. rewrite length_append. reflexivity.
Qed.

Lemma outer_shape : (nested_element x) = ("<div><p>" ++ x ++ "</p></div>")%string.
Proof. unfold nested_element, paragraph_element. cbn [append]. now rewrite append_assoc. Qed.

Lemma append_nil_r (s : string) : (s ++ EmptyString)%string = s.
Proof. induction s as [|c s IH]; [reflexivity|]. cbn. now rewrite IH. Qed.

Ltac pass := rewrite ?findall_step by (apply html_match_no; reflexivity).

Lemma no_match_in_outer opening closing :
  In (opening, closing) [("<html", "</html>"); ("<!DOCTYPE", "</html>"); ("<body", "</body>")] ->
  Re.findall (Re.html_match opening closing) 0 (nested_element x) = [].
Proof.
  intros Hp.
  assert (Hopens : forall c t, Re.html_match opening closing (String c t) <> None -> c = "<"%char).
  { intros c t. apply html_match_opens. cbn in Hp |- *. tauto. }
  rewrite outer_shape. cbn [append].
  destruct Hp as [Hp|[Hp|[Hp|[]]]]; injection Hp as <- <-;
    pass; rewrite (findall_text _ x _ Hopens Hangle); pass; reflexivity.
Qed.

Lemma div_in_outer : Re.findall (Re.html_match "<div" "</div>") 0 (nested_element x) = [(nested_element x)].
Proof.
  rewrite <- (append_nil_r (nested_element x)) at 1.
  rewrite (findall_element _ (nested_element x) EmptyString (nested_element x)); [reflexivity| |discriminate].
  exact (html_match_element "<div" "</div>" EmptyString (paragraph_element x) EmptyString
           eq_refl find_closing_div).
Qed.

Lemma p_in_outer : Re.findall (Re.html_match "<p" "</p>") 0 (nested_element x) = [(paragraph_element x)].
Proof.
  unfold nested_element. cbn [append]. pass.
  rewrite (findall_element _ (paragraph_element x) "</div>" (paragraph_element x)); [reflexivity| |discriminate].
  exact (html_match_element "<p" "</p>" EmptyString x "</div>" eq_refl find_closing_p).
Qed.

Lemma html_matches_of_outer :
  flat_map (fun p => Re.findall (Re.html_match (fst p) (snd p)) 0 (nested_element x)) html_patterns
  = [(nested_element x); (paragraph_element x)].
Proof.
  unfold html_patterns. cbn [flat_map fst snd].
  rewrite (no_match_in_outer "<html" "</html>") by (cbn; tauto).
  rewrite (no_match_in_outer "<!DOCTYPE" "</html>") by (cbn; tauto).
  rewrite (no_match_in_outer "<body" "</body>") by (cbn; tauto).
  now rewrite div_in_outer, p_in_outer.
Qed.

Lemma remove_inner : PyStr.remove_all (paragraph_element x) (nested_element x) = "<div></div>".
Proof.
  unfold PyStr.remove_all. change (PyStr.truthy (paragraph_element x)) with true. cbv iota.
  unfold nested_element. cbn [append].
  rewrite !remove_from_step by reflexivity.
  rewrite remove_from_occurrence by discriminate. reflexivity.
Qed.

Lemma remove_outer_after : PyStr.remove_all (nested_element x) "<div></div>" = "<div></div>".
Proof. reflexivity. Qed.

Lemma remove_passed old s : PyStr.remove_from old (String.length s) s = EmptyString.
Proof. induction s as [|c s IH]; [reflexivity | exact IH]. Qed.

Lemma remove_outer : PyStr.remove_all (nested_element x) (nested_element x) = EmptyString.
Proof.
  unfold PyStr.remove_all. change (PyStr.truthy (nested_element x)) with true. cbv iota.
  pose proof (starts_with_refl (nested_element x)) as Hs. revert Hs.
  change (nested_element x) with (String "<"%char (PyStr.drop 1 (nested_element x))). intros Hs.
  cbn [PyStr.remove_from]. rewrite Hs. cbn [String.length].
  rewrite Nat.sub_succ, Nat.sub_0_r. apply remove_passed.
Qed.


Lemma nested_differs : nested_element x <> paragraph_element x.
Proof.
  intros H. apply (f_equal String.length) in H. unfold nested_element in H.
  rewrite !length_append in H. cbn [String.length] in H. lia.
Qed.

Lemma html_spans_of_outer :
  PySet.to_list (set_rank env HtmlSpans) [nested_element x; paragraph_element x]
  = if (set_rank env HtmlSpans (nested_element x)
        <=? set_rank env HtmlSpans (paragraph_element x))%nat
    then [nested_element x; paragraph_element x]
    else [paragraph_element x; nested_element x].
Proof.
  unfold PySet.to_list. cbn [nodup].
  destruct (in_dec string_dec (nested_element x) [paragraph_element x]) as [[H|[]]|_].
  - elim nested_differs. now symmetry.
  - destruct (in_dec string_dec (paragraph_element x) []) as [[]|_]. reflexivity.
Qed.

Lemma no_json_in_outer : Re.findall Re.json_match 0 (nested_element x) = [].
Proof.
  apply (findall_never _ "{"%char); [exact json_match_brace|].
  rewrite outer_shape. apply index_of_append_none; [reflexivity|].
  apply index_of_append_none; [exact Hbrace | reflexivity].
Qed.

(** X20: the text spans depend on the order in which the interpreter
    lists the set of HTML spans.  For a [p] element inside a [div] both
    elements are HTML spans.  When the outer one is removed from the text
    first nothing is left; when the inner one is removed first the tags
    of the [div] stay behind, the outer span no longer occurs, and the
    tags become a text span. *)
Theorem nested_html_text_depends_on_order :
  let inner := paragraph_element x in
  let outer := nested_element x in
  let detected := detect_content_types env outer in
  Permutation (det_html detected) [outer; inner]
  /\ det_json detected = []
  /\ det_text detected
     = if (set_rank env HtmlSpans outer <=? set_rank env HtmlSpans inner)%nat
       then []
       else ["<div></div>"].
Proof.
  cbv zeta. unfold detect_content_types. cbn [det_html det_json det_text].
  rewrite html_matches_of_outer, no_json_in_outer, html_spans_of_outer.
  cbn [fold_left].
  destruct (set_rank env HtmlSpans (nested_element x)
            <=? set_rank env HtmlSpans (paragraph_element x))%nat.
  - split; [reflexivity|]. split; [reflexivity|].
    cbn [fold_left]. rewrite remove_outer. reflexivity.
  - split; [apply perm_swap|]. split; [reflexivity|].
    cbn [fold_left]. rewrite remove_inner, remove_outer_after. reflexivity.
Qed.

End NestedHtml.

Lemma nested_html_text_depends_on_order_witness :
  let shortest_first := {| bs4 := bs4 sample_env; set_rank := fun _ s => String.length s |} in
  det_text (detect_content_types sample_env "<div><p>hello</p></div>") = []
  /\ det_text (detect_content_types shortest_first "<div><p>hello</p></div>")
     = ["<div></div>"].
Proof.
  cbv zeta. split.
  - exact (proj2 (proj2 (nested_html_text_depends_on_order sample_env "hello"
                           eq_refl eq_refl))).
  - exact (proj2 (proj2 (nested_html_text_depends_on_order
                           {| bs4 := bs4 sample_env;
                              set_rank := fun _ s => String.length s |}
                           "hello" eq_refl eq_refl))).
Defined.

(** ** The schema of a run and the text records *)

Section RunSchema.
Variable env : environment.




Lemma take_length n s : String.length (PyStr.take n s) <= n.
Proof.
  revert s. induction n as [|n IH]; intros s; [cbn; lia|].
  destruct s as [|c s]; cbn; [lia|]. specialize (IH s). lia.
Qed.

Lemma take_whole n s : String.length s <= n -> PyStr.take n s = s.
Proof.
  revert s. induction n as [|n IH]; intros [|c s] H; try reflexivity; cbn in *; [lia|].
  rewrite IH by lia. reflexivity.
Qed.

(** X22: a text record holds the start of one trimmed line as its title:
    at most 50 characters, not empty, not starting with white space; and
    its [word_count] is at least 1. *)
Theorem text_record_fields (content : string) (r : dict) :
  In r (extracted_data (extract env content new_pipeline)) ->
  type_is "text" r = true ->
  exists t,
    In t (det_text (detect_content_types env content))
    /\ Dict.get "title" r = Some (VStr (PyStr.take 50 t))
    /\ 0 < String.length (PyStr.take 50 t) <= 50
    /\ PyStr.lstrip (PyStr.take 50 t) = PyStr.take 50 t
    /\ Dict.get "word_count" r = Some (VInt (Z.of_nat (PyStr.word_count t)))
    /\ 1 <= PyStr.word_count t.
Proof.
  unfold extract. cbn [extracted_data new_pipeline app]. rewrite !in_app_iff.
  intros [H|[H|[H|H]]] Ht.
  - rewrite (extract_all_type_is "html" (extract_html env) "html" _ "text" r
               (fun _ => eq_refl) H) in Ht.
    discriminate.
  - rewrite (extract_all_type_is _ _ "json" _ "text" r extract_json_type H) in Ht.
    discriminate.
  - unfold extract_all in H. apply in_map_iff in H. destruct H as ([i t] & <- & Hin).
    unfold enumerate in Hin. apply in_combine_r in Hin. cbn [snd fst].
    exists t. split; [exact Hin|].
    destruct (detected_text_origin env content t Hin) as (p & Hstrip & _ & Hlong).
    rewrite <- Hstrip in Hlong.
    assert (Hhead : match t with
                    | String c _ => PyStr.is_space c = false
                    | EmptyString => True
                    end).
    { rewrite Hstrip. apply rstrip_head, lstrip_head. }
    destruct t as [|c t]; [cbn in Hlong; lia|].
    split.
    { unfold extract_text. rewrite get_setitem_ne by discriminate. cbn [Dict.get].
      change (String.eqb "title" "type") with false.
      change (String.eqb "title" "title") with true. cbv iota.
      destruct (Nat.ltb_spec 50 (String.length (String c t))) as [_|Hle]; [reflexivity|].
      now rewrite take_whole. }
    split; [split; [cbn; lia | apply take_length]|].
    split; [cbn [PyStr.take PyStr.lstrip]; now rewrite Hhead|].
    split; [reflexivity|].
    unfold PyStr.word_count. cbn [PyStr.count_words]. rewrite Hhead. lia.
  - rewrite (extract_all_type_is "media" extract_media "media" _ "text" r
               (fun _ => eq_refl) H) in Ht.
    discriminate.
Qed.

End RunSchema.


Lemma text_record_fields_witness :
  let r := [("type", VStr "text"); ("title", VStr "Hello world this is text");
            ("word_count", VInt 5); ("source_index", VStr "text_0")] in
  exists t,
    Dict.get "title" r = Some (VStr (PyStr.take 50 t))
    /\ 1 <= PyStr.word_count t.
Proof.
  cbv zeta.
  destruct (text_record_fields sample_env example_document
              [("type", VStr "text"); ("title", VStr "Hello world this is text");
               ("word_count", VInt 5); ("source_index", VStr "text_0")])
    as (t & _ & Htitle & _ & _ & _ & Hwords).
  - vm_compute. right. right. left. reflexivity.
  - reflexivity.
  - exists t. split; [exact Htitle | exact Hwords].
Defined.

(** ** The text around JSON objects *)

Section TextAroundObjects.

Lemma no_html_without_angle content :
  Re.index_of "<"%char content = None ->
  flat_map (fun p => Re.findall (Re.html_match (fst p) (snd p)) 0 content) html_patterns
  = [].
Proof.
  intros Hangle.
  assert (H : forall ps, (forall p, In p ps -> In p html_patterns) ->
                flat_map (fun p => Re.findall (Re.html_match (fst p) (snd p)) 0 content) ps
                = []).
  { induction ps as [|[opening closing] ps IH]; intros Hsub; [reflexivity|].
    cbn [flat_map fst snd]. rewrite IH by (intros p I; apply Hsub; now right).
    rewrite (findall_never _ "<"%char); [reflexivity| |exact Hangle].
    intros c t. apply html_match_opens. apply Hsub. now left. }
  apply H. auto.
Qed.

Lemma starts_with_brace old c t :
  c <> "{"%char -> PyStr.starts_with (String "{"%char old) (String c t) = false.
Proof.
  intros H. cbn [PyStr.starts_with].
  destruct (Ascii.eqb_spec "{"%char c) as [<-|_]; [now elim H | reflexivity].
Qed.

(** The scan for an object passes text without a brace. *)
Lemma remove_from_text old t rest :
  brace_free t = true ->
  PyStr.remove_from (String "{"%char old) 0 (t ++ rest)%string
  = (t ++ PyStr.remove_from (String "{"%char old) 0 rest)%string.
Proof.
  induction t as [|c t IH]; [reflexivity|]. cbn [brace_free].
  rewrite !andb_true_iff, !negb_true_iff. intros [[Ho _] Ht].
  cbn [append]. rewrite remove_from_step.
  - now rewrite (IH Ht).
  - apply starts_with_brace. intros ->. discriminate Ho.
Qed.

Lemma starts_with_body body b rest :
  brace_free body = true -> brace_free b = true ->
  PyStr.starts_with (body ++ "}")%string (b ++ String "}"%char rest)%string = true ->
  body = b.
Proof.
  revert b. induction body as [|c body IH]; intros [|d b] Hbody Hb H;
    cbn [append PyStr.starts_with brace_free] in *.
  - reflexivity.
  - rewrite !andb_true_iff, !negb_true_iff in Hb. destruct Hb as [[_ Hd] _].
    apply andb_true_iff in H. destruct H as [H _]. apply Ascii.eqb_eq in H. subst d.
    discriminate Hd.
  - rewrite !andb_true_iff, !negb_true_iff in Hbody. destruct Hbody as [[_ Hc] _].
    apply andb_true_iff in H. destruct H as [H _]. apply Ascii.eqb_eq in H. subst c.
    discriminate Hc.
  - rewrite !andb_true_iff in Hbody, Hb, H. destruct H as [H H'].
    apply Ascii.eqb_eq in H. subst d. f_equal.
    apply IH; [apply Hbody | apply Hb | exact H'].
Qed.

(** The scan for an object passes an object with another body. *)
Lemma remove_from_other body b rest :
  brace_free body = true -> brace_free b = true -> body <> b ->
  PyStr.remove_from (object_text body) 0 (object_text b ++ rest)%string
  = (object_text b ++ PyStr.remove_from (object_text body) 0 rest)%string.
Proof.
  intros Hbody Hb Hne. rewrite !object_text_append.
  assert (Hs : PyStr.starts_with (object_text body)
                 (String "{"%char (b ++ String "}"%char rest)) = false).
  { unfold object_text. cbn [PyStr.starts_with]. cbn [Ascii.eqb Bool.eqb andb].
    destruct (PyStr.starts_with (body ++ "}") (b ++ String "}"%char rest)) eqn:E;
      [|reflexivity].
    elim Hne. exact (starts_with_body body b rest Hbody Hb E). }
  rewrite remove_from_step by exact Hs. f_equal.
  unfold object_text at 1. rewrite remove_from_text by exact Hb. reflexivity.
Qed.

Lemma remove_object body segments :
  brace_free body = true ->
  Forall braces_paired segments ->
  PyStr.remove_all (object_text body) (render segments)
  = render (without_objects [object_text body] segments).
Proof.
  intros Hbody Hsegs. unfold PyStr.remove_all.
  change (PyStr.truthy (object_text body)) with true. cbv iota.
  induction Hsegs as [|[t|b] segments Hs _ IH]; [reflexivity| |];
    cbn [render without_objects filter] in *.
  - unfold object_text at 1. rewrite remove_from_text by exact Hs.
    fold (object_text body). now rewrite IH.
  - cbn [existsb]. rewrite orb_false_r.
    destruct (String.eqb_spec (object_text b) (object_text body)) as [E|Hne];
      cbn [negb render].
    + rewrite E. rewrite remove_from_occurrence by discriminate. exact IH.
    + rewrite remove_from_other; [now rewrite IH | exact Hbody | exact Hs |].
      intros ->. now elim Hne.
Qed.

Lemma without_objects_paired spans segments :
  Forall braces_paired segments -> Forall braces_paired (without_objects spans segments).
Proof.
  intros H. unfold without_objects. rewrite Forall_forall in *. intros s Hs.
  apply filter_In in Hs. now apply H.
Qed.

Lemma without_objects_more span spans segments :
  without_objects spans (without_objects [span] segments)
  = without_objects (span :: spans) segments.
Proof.
  unfold without_objects. rewrite filter_filter. apply filter_ext. intros [t|b];
    [reflexivity|]. cbn [existsb]. now rewrite orb_false_r, negb_orb.
Qed.

(** The loop that removes the spans from the text. *)
Lemma remove_objects spans segments :
  (forall o, In o spans -> exists body, o = object_text body /\ brace_free body = true) ->
  Forall braces_paired segments ->
  fold_left (fun text span => PyStr.remove_all span text) spans (render segments)
  = render (without_objects spans segments).
Proof.
  revert segments. induction spans as [|o spans IH]; intros segments Hspans Hsegs.
  - cbn [fold_left]. f_equal. unfold without_objects. symmetry. apply filter_all.
    now intros [t|b] _.
  - destruct (Hspans o (or_introl eq_refl)) as (body & -> & Hbody).
    cbn [fold_left]. rewrite remove_object by assumption.
    rewrite IH.
    + now rewrite without_objects_more.
    + intros o' Ho'. apply Hspans. now right.
    + now apply without_objects_paired.
Qed.

Lemma without_all_objects spans segments :
  (forall o, In o (objects segments) -> In o spans) ->
  render (without_objects spans segments) = text_outside segments.
Proof.
  induction segments as [|[t|b] segments IH]; intros H; [reflexivity| |];
    cbn [without_objects filter render text_outside objects] in *.
  - f_equal. now apply IH.
  - assert (Hb : existsb (String.eqb (object_text b)) spans = true).
    { apply existsb_exists. exists (object_text b).
      split; [apply H; now left | apply String.eqb_refl]. }
    rewrite Hb. cbn [negb]. apply IH. intros o Ho. apply H. now right.
Qed.

Lemma keep_json_complete matches kept m :
  (In m kept \/ (In m matches /\ Json.loads m <> None)) ->
  In m (fold_left keep_json matches kept).
Proof.
  revert kept. induction matches as [|x matches IH]; intros kept H.
  - destruct H as [H|[[] _]]. exact H.
  - cbn [fold_left]. apply IH.
    destruct H as [H|[[<-|H] Hv]].
    + left. unfold keep_json. destruct (Json.loads x); [|exact H].
      destruct (existsb (String.eqb x) kept); [exact H | apply in_or_app; now left].
    + left. unfold keep_json. destruct (Json.loads x) eqn:E; [|now elim Hv].
      destruct (existsb (String.eqb x) kept) eqn:Ex.
      * apply existsb_exists in Ex. destruct Ex as (y & Hy & Exy).
        apply String.eqb_eq in Exy. now subst y.
      * apply in_or_app. right. now left.
    + right. now split.
Qed.

Lemma objects_bodies segments o :
  Forall plain_segment segments -> In o (objects segments) ->
  exists body, o = object_text body /\ brace_free body = true.
Proof.
  induction 1 as [|[t|body] segments Hs _ IH]; cbn [objects]; [intros [] | exact IH |].
  intros [<-|I]; [exists body; split; [reflexivity | apply Hs] | now apply IH].
Qed.

(** X23: in a document made of text without braces and of JSON objects
    without inner braces, with no [<] anywhere, every object is cut out
    of the text before the text is split: the text spans are the
    trimmed lines, longer than five characters, of the text outside of
    the objects. *)
Theorem json_objects_cut_from_text (env : environment) (segments : list segment) :
  Forall plain_segment segments ->
  Re.index_of "<"%char (render segments) = None ->
  det_text (detect_content_types env (render segments))
  = map PyStr.strip
        (filter (fun p => (5 <? String.length (PyStr.strip p))%nat)
                (PyStr.split_on newline (text_outside segments))).
Proof.
  intros Hplain Hangle. unfold detect_content_types. cbn [det_text].
  rewrite no_html_without_angle by exact Hangle.
  cbn [PySet.to_list nodup fold_right fold_left].
  rewrite findall_json_render by exact Hplain.
  set (spans := fold_left keep_json (objects segments) []).
  assert (Hpaired : Forall braces_paired segments).
  { rewrite Forall_forall in *. intros [t|b] Hs; [exact (Hplain _ Hs)|].
    exact (proj1 (Hplain _ Hs)). }
  rewrite remove_objects; [| |exact Hpaired].
  - rewrite without_all_objects.
    + f_equal. apply filter_ext. intros p. destruct (PyStr.strip p); reflexivity.
    + intros o Ho. apply keep_json_complete. right. split; [exact Ho|].
      exact (objects_valid segments o Hplain Ho).
  - intros o Ho. destruct (keep_json_fold (objects segments) [] (NoDup_nil _)) as [_ Hin].
    destruct (Hin o Ho) as [[]|[Ho' _]]. exact (objects_bodies segments o Hplain Ho').
Qed.

End TextAroundObjects.

Lemma json_objects_cut_from_text_witness :
  det_text (detect_content_types sample_env
              (render [Text "before the "; Object (quoted "'a':1"); Text "object";
                       Text nl; Object (quoted "'a':1"); Text "tail"]))
  = ["before the object"].
Proof.
  refine (eq_trans (json_objects_cut_from_text sample_env _ _ _) _).
  - repeat constructor; try reflexivity; vm_compute; discriminate.
  - reflexivity.
  - vm_compute. reflexivity.
Defined.
